(** * Automation runner engine: edge-triggered and scheduled-window runners

    A shallow embedding of the two runner classes of the automations page,
    [MotionLightAutomationRunner] (automations/MotionLightAutomation.js) and
    [AlarmAutoArmRunner] (automations/AlarmAutoArmComponent.js).

    Modelling conventions.
    - A runner object is a record of its instance fields.  Everything outside
      the object that a callback touches (the event log written through
      [automationService.logEvent], the requests sent to the hub, the
      trigger-count updates, the browser's timer table) is gathered in a
      [World] record.  A method is a computation in a state-and-exception
      monad over the pair (runner, world): mutations made before a [throw]
      survive it, as in JavaScript.
    - What the hub answers is not decided by the program: each callback takes
      the answers of the requests it may send as arguments ([Result] values).
      A request is recorded in the world when the code really sends it.
    - In [MotionLight] and [AlarmAutoArm] a call or a callback runs to
      completion before the next one starts, and every [new Date()] of one
      callback reads the same instant [now].  [MotionOverlap] and
      [AlarmOverlap] cut the poll callbacks at their requests to the hub, so
      that polls can overlap each other and [stop]; the other callbacks run
      whole there too.
    - Template literals are kept as lists of pieces rather than rendered, so
      that the interpolated numbers stay visible.
    - [logEvent] and [updateAutomationTriggerCount] belong to the persistence
      collaborator, which is not part of these files; they are taken as
      appends that do not throw. *)

From Stdlib Require Import ZArith List String Bool Lia.
Import ListNotations.
Open Scope string_scope.
Open Scope list_scope.
Open Scope Z_scope.

(** ** Shared vocabulary *)

(** Outcome of an awaited call: a value, or a thrown [Error] with its
    [message]. *)
Inductive Result (A : Type) : Type :=
| Ok (value : A)
| Err (message : string).
Arguments Ok {A} value.
Arguments Err {A} message.

(** What the hub returns for an entity: its [state] and its [attributes]
    (kept as the JSON text). *)
Record EntityState : Type := mkEntityState {
  state : string;
  attributes : string
}.

(** A piece of a template literal: fixed text, an interpolated number, an
    interpolated string, [n.toString().padStart(2, '0')], and
    [date.toLocaleTimeString()] of the instant [ms]. *)
Inductive Piece : Type :=
| Lit (text : string)
| Num (n : Z)
| Str (s : string)
| Pad2 (n : Z)
| Clock (ms : Z).

Definition Template := list Piece.

(** [automationService.logEvent(automation.id, event_type, message)]. *)
Record Event : Type := mkEvent {
  automation_id : string;
  event_type : string;
  message : Template
}.

(** A request sent to the hub through the service object. *)
Inductive ApiCall : Type :=
| GetState (entity : string)
| CallService (service domain entity : string).

(** What a timer runs when it fires.  The countdown closure captures the two
    entity names and the delay of the poll that created it. *)
Inductive Callback : Type :=
| PollTick
| TurnOffCountdown (motionEntity lightEntity : string) (delaySeconds : Z)
| VerifyArm.

(** An entry of the timer table: [setInterval] entries repeat, [setTimeout]
    entries fire once. *)
Record Timer : Type := mkTimer {
  handle : positive;
  callback : Callback;
  delayMs : Z;
  repeating : bool
}.

Record World : Type := mkWorld {
  eventLog : list Event;
  apiCalls : list ApiCall;
  triggerCountUpdates : list string;
  timers : list Timer;
  nextHandle : positive
}.

Definition emptyWorld : World :=
  {| eventLog := []; apiCalls := []; triggerCountUpdates := [];
     timers := []; nextHandle := 1%positive |}.

Definition pending (h : positive) (w : World) : bool :=
  existsb (fun t => Pos.eqb (handle t) h) (timers w).

Definition findTimer (h : positive) (w : World) : option Timer :=
  find (fun t => Pos.eqb (handle t) h) (timers w).

Definition removeTimer (h : positive) (ts : list Timer) : list Timer :=
  filter (fun t => negb (Pos.eqb (handle t) h)) ts.

(** JavaScript's [%] on integers truncates toward zero. *)
Definition js_rem (a b : Z) : Z := Z.rem a b.

(** [array.slice(-n)]: the last [n] elements, the whole array when it is
    shorter. *)
Definition slice_last {A : Type} (n : nat) (l : list A) : list A :=
  skipn (List.length l - n) l.

(** The body shared by the two [addStateHistory] methods:
    [history.push(entry); if (history.length > cap) history = history.slice(-cap)]. *)
Definition pushBounded {A : Type} (cap : nat) (entry : A) (history : list A) : list A :=
  let pushed := history ++ [entry] in
  if (cap <? List.length pushed)%nat then slice_last cap pushed else pushed.

(** ** The state-and-exception monad of a callback *)

Module Run.
Section Run.
Context {S : Type}.

Definition M (A : Type) : Type := S -> Result A * S.

Definition ret {A} (a : A) : M A := fun s => (Ok a, s).

Definition bind {A B} (m : M A) (k : A -> M B) : M B :=
  fun s => match m s with
           | (Ok a, s') => k a s'
           | (Err e, s') => (Err e, s')
           end.

Definition throw {A} (e : string) : M A := fun s => (Err e, s).

(** [try { m } catch (error) { h error.message }] *)
Definition try_catch {A} (m : M A) (h : string -> M A) : M A :=
  fun s => match m s with
           | (Ok a, s') => (Ok a, s')
           | (Err e, s') => h e s'
           end.

Definition get : M S := fun s => (Ok s, s).
Definition modify (f : S -> S) : M unit := fun s => (Ok tt, f s).

(** [await p] for a promise whose outcome is [r]. *)
Definition await {A} (r : Result A) : M A := fun s => (r, s).

Definition exec {A} (m : M A) (s : S) : S := snd (m s).
End Run.
End Run.

Declare Scope run_scope.
Delimit Scope run_scope with run.
Notation "x <- m ;; k" := (Run.bind m (fun x => k))
  (at level 61, m at next level, right associativity) : run_scope.
Notation "m ;; k" := (Run.bind m (fun _ => k))
  (at level 61, right associativity) : run_scope.

(** Operations on the world, for any runner type [R]. *)
Section WorldOps.
Context {R : Type}.
Local Open Scope run_scope.

Definition Machine : Type := R * World.

Definition getRunner : Run.M (S := Machine) R := fun s => (Ok (fst s), s).
Definition getWorld : Run.M (S := Machine) World := fun s => (Ok (snd s), s).
Definition onRunner (f : R -> R) : Run.M (S := Machine) unit :=
  Run.modify (fun s => (f (fst s), snd s)).
Definition onWorld (f : World -> World) : Run.M (S := Machine) unit :=
  Run.modify (fun s => (fst s, f (snd s))).

(** [await this.automationService.logEvent(id, type, message)] *)
Definition logEvent (id type : string) (msg : Template) : Run.M (S := Machine) unit :=
  onWorld (fun w =>
    {| eventLog := eventLog w ++ [mkEvent id type msg];
       apiCalls := apiCalls w;
       triggerCountUpdates := triggerCountUpdates w;
       timers := timers w;
       nextHandle := nextHandle w |}).

(** [await this.automationService.updateAutomationTriggerCount(id)] *)
Definition updateAutomationTriggerCount (id : string) : Run.M (S := Machine) unit :=
  onWorld (fun w =>
    {| eventLog := eventLog w;
       apiCalls := apiCalls w;
       triggerCountUpdates := triggerCountUpdates w ++ [id];
       timers := timers w;
       nextHandle := nextHandle w |}).

Definition sendRequest (c : ApiCall) : Run.M (S := Machine) unit :=
  onWorld (fun w =>
    {| eventLog := eventLog w;
       apiCalls := apiCalls w ++ [c];
       triggerCountUpdates := triggerCountUpdates w;
       timers := timers w;
       nextHandle := nextHandle w |}).

(** [await this.automationService.getHAEntityState(entity)], answered by
    [response]. *)
Definition getHAEntityState (entity : string) (response : Result EntityState)
  : Run.M (S := Machine) EntityState :=
  sendRequest (GetState entity);; Run.await response.

(** [await this.automationService.callHAService(service, domain, entity, data)],
    answered by [response]. *)
Definition callHAService (service domain entity : string) (response : Result unit)
  : Run.M (S := Machine) unit :=
  sendRequest (CallService service domain entity);; Run.await response.

(** [setInterval] and [setTimeout]: a fresh handle is entered in the timer
    table and returned. *)
Definition setTimer (c : Callback) (delay : Z) (rep : bool)
  : Run.M (S := Machine) positive :=
  w <- getWorld;;
  onWorld (fun w =>
    {| eventLog := eventLog w;
       apiCalls := apiCalls w;
       triggerCountUpdates := triggerCountUpdates w;
       timers := timers w ++ [mkTimer (nextHandle w) c delay rep];
       nextHandle := Pos.succ (nextHandle w) |});;
  Run.ret (nextHandle w).

Definition setInterval (c : Callback) (delay : Z) := setTimer c delay true.
Definition setTimeout (c : Callback) (delay : Z) := setTimer c delay false.

(** [clearInterval] and [clearTimeout] *)
Definition clearTimer (h : positive) : Run.M (S := Machine) unit :=
  onWorld (fun w =>
    {| eventLog := eventLog w;
       apiCalls := apiCalls w;
       triggerCountUpdates := triggerCountUpdates w;
       timers := removeTimer h (timers w);
       nextHandle := nextHandle w |}).
End WorldOps.
Arguments Machine R : clear implicits.

(** ** The edge-triggered runner: [MotionLightAutomationRunner] *)

Module MotionLight.
Local Open Scope run_scope.

(** [automation.settings]; [delay_seconds] holds what [parseInt] makes of the
    stored value, [None] standing for [NaN]. *)
Record Settings : Type := mkSettings {
  motion_entity : option string;
  light_entity : option string;
  delay_seconds : option Z
}.

Record Automation : Type := mkAutomation {
  id : string;
  name : string;
  settings : Settings
}.

Inductive AdditionalData : Type :=
| ErrorData (error : string)
| ErrorCountData (error : string) (errorCount : Z)
| DelayData (delay : Z).

Record HistoryEntry : Type := mkEntry {
  timestamp : Z;
  motionState : string;
  action : string;
  entryErrorCount : Z;
  entryConsecutiveSuccesses : Z;
  additionalData : option AdditionalData
}.

Record Runner : Type := mkRunner {
  automation : Automation;
  isRunning : bool;
  pollInterval : option positive;
  timeoutId : option positive;
  lastMotionState : option string;
  lastLightState : string;
  stateHistory : list HistoryEntry;
  errorCount : Z;
  maxErrors : Z;
  lastSuccessfulPoll : option Z;
  consecutiveSuccesses : Z
}.

(** [new MotionLightAutomationRunner(automation, automationService)] *)
Definition constructor (a : Automation) : Runner :=
  {| automation := a; isRunning := false; pollInterval := None;
     timeoutId := None; lastMotionState := None; lastLightState := "off";
     stateHistory := []; errorCount := 0; maxErrors := 10;
     lastSuccessfulPoll := None; consecutiveSuccesses := 0 |}.

Definition set_isRunning (v : bool) (r : Runner) : Runner :=
  mkRunner (automation r) v (pollInterval r) (timeoutId r) (lastMotionState r)
    (lastLightState r) (stateHistory r) (errorCount r) (maxErrors r)
    (lastSuccessfulPoll r) (consecutiveSuccesses r).
Definition set_pollInterval (v : option positive) (r : Runner) : Runner :=
  mkRunner (automation r) (isRunning r) v (timeoutId r) (lastMotionState r)
    (lastLightState r) (stateHistory r) (errorCount r) (maxErrors r)
    (lastSuccessfulPoll r) (consecutiveSuccesses r).
Definition set_timeoutId (v : option positive) (r : Runner) : Runner :=
  mkRunner (automation r) (isRunning r) (pollInterval r) v (lastMotionState r)
    (lastLightState r) (stateHistory r) (errorCount r) (maxErrors r)
    (lastSuccessfulPoll r) (consecutiveSuccesses r).
Definition set_lastMotionState (v : option string) (r : Runner) : Runner :=
  mkRunner (automation r) (isRunning r) (pollInterval r) (timeoutId r) v
    (lastLightState r) (stateHistory r) (errorCount r) (maxErrors r)
    (lastSuccessfulPoll r) (consecutiveSuccesses r).
Definition set_stateHistory (v : list HistoryEntry) (r : Runner) : Runner :=
  mkRunner (automation r) (isRunning r) (pollInterval r) (timeoutId r)
    (lastMotionState r) (lastLightState r) v (errorCount r) (maxErrors r)
    (lastSuccessfulPoll r) (consecutiveSuccesses r).
Definition set_errorCount (v : Z) (r : Runner) : Runner :=
  mkRunner (automation r) (isRunning r) (pollInterval r) (timeoutId r)
    (lastMotionState r) (lastLightState r) (stateHistory r) v (maxErrors r)
    (lastSuccessfulPoll r) (consecutiveSuccesses r).
Definition set_lastSuccessfulPoll (v : option Z) (r : Runner) : Runner :=
  mkRunner (automation r) (isRunning r) (pollInterval r) (timeoutId r)
    (lastMotionState r) (lastLightState r) (stateHistory r) (errorCount r)
    (maxErrors r) v (consecutiveSuccesses r).
Definition set_consecutiveSuccesses (v : Z) (r : Runner) : Runner :=
  mkRunner (automation r) (isRunning r) (pollInterval r) (timeoutId r)
    (lastMotionState r) (lastLightState r) (stateHistory r) (errorCount r)
    (maxErrors r) (lastSuccessfulPoll r) v.

Definition M : Type -> Type := Run.M (S := Machine Runner).

(** [addStateHistory(motionState, action, additionalData = null)] *)
Definition pushHistory (e : HistoryEntry) (h : list HistoryEntry) : list HistoryEntry :=
  pushBounded 50 e h.
#[global] Arguments pushHistory : simpl never.

Definition addStateHistory (now : Z) (motionState action : string)
    (additionalData : option AdditionalData) : M unit :=
  onRunner (fun r =>
    set_stateHistory
      (pushHistory
         (mkEntry now motionState action (errorCount r) (consecutiveSuccesses r)
            additionalData)
         (stateHistory r)) r).

(** A setting is usable when it is present and not the empty string
    ([!motionEntity] is false). *)
Definition configured (o : option string) : option string :=
  match o with
  | Some s => if String.eqb s "" then None else Some s
  | None => None
  end.

(** [parseInt(settings.delay_seconds) || 15]: [NaN] and [0] give 15. *)
Definition delaySecondsOf (s : Settings) : Z :=
  match delay_seconds s with
  | Some d => if d =? 0 then 15 else d
  | None => 15
  end.

(** [async stop()] *)
Definition stop : M unit :=
  r <- getRunner;;
  if negb (isRunning r) then Run.ret tt
  else
    onRunner (set_isRunning false);;
    match pollInterval r with
    | Some h => clearTimer h;; onRunner (set_pollInterval None)
    | None => Run.ret tt
    end;;
    match timeoutId r with
    | Some h => clearTimer h;; onRunner (set_timeoutId None)
    | None => Run.ret tt
    end;;
    logEvent (id (automation r)) "stopped" [Lit "Automation stopped"].

(** [async initializeState()]; [init] answers the state request. *)
Definition initializeState (now : Z) (init : Result EntityState) : M unit :=
  r <- getRunner;;
  Run.try_catch
    (match configured (motion_entity (settings (automation r))) with
     | None => Run.throw "Motion entity not configured"
     | Some motionEntity =>
         motionState <- getHAEntityState motionEntity init;;
         onRunner (set_lastMotionState (Some (state motionState)));;
         onRunner (set_lastSuccessfulPoll (Some now));;
         addStateHistory now (state motionState) "initialized" None
     end)
    (fun msg =>
       addStateHistory now "error" (String.append "initialization_failed: " msg) None;;
       logEvent (id (automation r)) "error" [Lit "Failed to initialize: "; Str msg]).

(** [async start()] *)
Definition start (now : Z) (init : Result EntityState) : M unit :=
  r <- getRunner;;
  if isRunning r then Run.ret tt
  else
    onRunner (set_isRunning true);;
    onRunner (set_errorCount 0);;
    h <- setInterval PollTick 750;;
    onRunner (set_pollInterval (Some h));;
    initializeState now init;;
    logEvent (id (automation r)) "started" [Lit "Motion light automation started"].

(** The closure passed to [setTimeout] on an on->off transition; [recheck]
    answers the second look at the motion entity and [turnOff] the service
    call. *)
Definition countdownCallback (now : Z) (motionEntity lightEntity : string)
    (delaySeconds : Z) (recheck : Result EntityState) (turnOff : Result unit)
  : M unit :=
  r <- getRunner;;
  Run.try_catch
    (finalMotionCheck <- getHAEntityState motionEntity recheck;;
     if String.eqb (state finalMotionCheck) "off" then
       Run.try_catch
         (callHAService "turn_off" "light" lightEntity turnOff;;
          addStateHistory now "off" "light_turned_off" None;;
          logEvent (id (automation r)) "action_executed"
            [Lit "No motion for "; Num delaySeconds; Lit "s - turned off ";
             Str lightEntity])
         (fun msg =>
            addStateHistory now "off" "light_error" (Some (ErrorData msg));;
            logEvent (id (automation r)) "error"
              [Lit "Failed to turn off light: "; Str msg])
     else
       addStateHistory now (state finalMotionCheck) "countdown_cancelled" None;;
       logEvent (id (automation r)) "triggered"
         [Lit "Motion detected during countdown - cancelled turn-off"];;
       onRunner (set_lastMotionState (Some (state finalMotionCheck))))
    (fun msg =>
       addStateHistory now "unknown" "timeout_error" (Some (ErrorData msg));;
       logEvent (id (automation r)) "error" [Lit "Error during timeout: "; Str msg]);;
  onRunner (set_timeoutId None).

(** The inner [try] of [checkMotionState]: the state request and the counter
    updates.  [None] is the [return] of its [catch] block. *)
Definition pollMotion (now : Z) (motionEntity : string) (fetch : Result EntityState)
  : M (option EntityState) :=
  Run.try_catch
    (motionState <- getHAEntityState motionEntity fetch;;
     onRunner (set_errorCount 0);;
     onRunner (fun r => set_consecutiveSuccesses (consecutiveSuccesses r + 1) r);;
     onRunner (set_lastSuccessfulPoll (Some now));;
     Run.ret (Some motionState))
    (fun msg =>
       onRunner (fun r => set_errorCount (errorCount r + 1) r);;
       onRunner (set_consecutiveSuccesses 0);;
       r <- getRunner;;
       addStateHistory now "error" "motion_state_error"
         (Some (ErrorCountData msg (errorCount r)));;
       (if (errorCount r =? 1) || (js_rem (errorCount r) 5 =? 0) then
          logEvent (id (automation r)) "error"
            [Lit "Failed to get motion state ("; Num (errorCount r); Lit "/";
             Num (maxErrors r); Lit "): "; Str msg]
        else Run.ret tt);;
       Run.ret None).

(** The off->on branch. *)
Definition motionDetected (now : Z) (currentMotionState lightEntity : string)
    (turnOn : Result unit) : M unit :=
  addStateHistory now currentMotionState "motion_detected" None;;
  r <- getRunner;;
  match timeoutId r with
  | Some h =>
      clearTimer h;;
      onRunner (set_timeoutId None);;
      addStateHistory now currentMotionState "countdown_cancelled" None
  | None => Run.ret tt
  end;;
  Run.try_catch
    (callHAService "turn_on" "light" lightEntity turnOn;;
     addStateHistory now currentMotionState "light_turned_on" None;;
     logEvent (id (automation r)) "triggered"
       [Lit "Motion detected - turned on "; Str lightEntity])
    (fun msg =>
       addStateHistory now currentMotionState "light_error" (Some (ErrorData msg));;
       logEvent (id (automation r)) "error"
         [Lit "Failed to turn on light: "; Str msg]);;
  updateAutomationTriggerCount (id (automation r)).

(** The on->off branch. *)
Definition motionStopped (now : Z) (currentMotionState motionEntity lightEntity : string)
    (delaySeconds : Z) : M unit :=
  r <- getRunner;;
  addStateHistory now currentMotionState "countdown_started"
    (Some (DelayData delaySeconds));;
  h <- setTimeout (TurnOffCountdown motionEntity lightEntity delaySeconds)
         (delaySeconds * 1000);;
  onRunner (set_timeoutId (Some h));;
  logEvent (id (automation r)) "triggered"
    [Lit "Motion stopped - starting "; Num delaySeconds; Lit "s countdown"].

(** [async checkMotionState()], the body of the 750 ms interval.  [fetch]
    answers the state request and [turnOn] the service call, should the code
    send them. *)
Definition checkMotionState (now : Z) (fetch : Result EntityState)
    (turnOn : Result unit) : M unit :=
  r <- getRunner;;
  if maxErrors r <=? errorCount r then
    logEvent (id (automation r)) "error"
      [Lit "Automation stopped due to "; Num (errorCount r);
       Lit " consecutive errors"];;
    stop
  else
    Run.try_catch
      (let delaySeconds := delaySecondsOf (settings (automation r)) in
       match configured (motion_entity (settings (automation r))),
             configured (light_entity (settings (automation r))) with
       | Some motionEntity, Some lightEntity =>
           polled <- pollMotion now motionEntity fetch;;
           match polled with
           | None => Run.ret tt
           | Some motionState =>
               let currentMotionState := state motionState in
               r <- getRunner;;
               match lastMotionState r with
               | None =>
                   onRunner (set_lastMotionState (Some currentMotionState));;
                   addStateHistory now currentMotionState "initialized" None
               | Some last =>
                   if String.eqb last currentMotionState then Run.ret tt
                   else
                     (if String.eqb last "off" && String.eqb currentMotionState "on"
                      then motionDetected now currentMotionState lightEntity turnOn
                      else if String.eqb last "on" && String.eqb currentMotionState "off"
                      then motionStopped now currentMotionState motionEntity
                             lightEntity delaySeconds
                      else Run.ret tt);;
                     onRunner (set_lastMotionState (Some currentMotionState))
               end
           end
       | _, _ => Run.throw "Motion or light entity not configured"
       end)
      (fun msg =>
         onRunner (fun r => set_errorCount (errorCount r + 1) r);;
         onRunner (set_consecutiveSuccesses 0);;
         addStateHistory now "error" "general_error" (Some (ErrorData msg));;
         logEvent (id (automation r)) "error"
           [Lit "Error checking motion state: "; Str msg]).

(** *** The runner driven by its environment

    The environment either calls [start] or [stop], or lets a timer of the
    table fire.  A handle that is not in the table runs nothing; a one-shot
    timer leaves the table when it fires. *)
Inductive Input : Type :=
| CallStart (now : Z) (init : Result EntityState)
| CallStop
| Fire (h : positive) (now : Z) (answer : Result EntityState) (act : Result unit).

Definition fire (h : positive) (now : Z) (answer : Result EntityState)
    (act : Result unit) : M unit :=
  w <- getWorld;;
  match findTimer h w with
  | Some t =>
      match callback t with
      | PollTick => checkMotionState now answer act
      | TurnOffCountdown motionEntity lightEntity delaySeconds =>
          clearTimer h;;
          countdownCallback now motionEntity lightEntity delaySeconds answer act
      | VerifyArm => Run.ret tt
      end
  | None => Run.ret tt
  end.

Definition step (s : Machine Runner) (i : Input) : Machine Runner :=
  match i with
  | CallStart now init => Run.exec (start now init) s
  | CallStop => Run.exec stop s
  | Fire h now answer act => Run.exec (fire h now answer act) s
  end.

Definition run (s : Machine Runner) (inputs : list Input) : Machine Runner :=
  fold_left step inputs s.

Definition initial (a : Automation) : Machine Runner := (constructor a, emptyWorld).

End MotionLight.

(** ** The scheduled-window runner: [AlarmAutoArmRunner] *)

Module AlarmAutoArm.
Local Open Scope run_scope.

(** A [Date]: milliseconds since the epoch, and the local wall-clock hour and
    minute that [getHours()] and [getMinutes()] give for it. *)
Record Date : Type := mkDate {
  epochMs : Z;
  getHours : Z;
  getMinutes : Z
}.

Record Automation : Type := mkAutomation {
  id : string;
  name : string
}.

Inductive MetaValue : Type :=
| MNum (n : Z)
| MStr (s : string)
| MBool (b : bool)
| MTime (ms : Z).

(** An entry of [stateHistory].  [metadata] is the object spread at the end of
    the entry; the keys it repeats ([inWindow], [alarmState]) carry the values
    the entry already has.  The [errorType] key ([error.name]) is left out:
    an error is known by its message only. *)
Record HistoryEntry : Type := mkEntry {
  timestamp : Z;
  action : string;
  details : Template;
  alarmState : option string;
  inWindow : bool;
  metadata : list (string * MetaValue)
}.

Record Runner : Type := mkRunner {
  automation : Automation;
  isRunning : bool;
  checkInterval : option positive;
  lastAlarmState : option string;
  stateHistory : list HistoryEntry;
  errorCount : Z;
  maxErrors : Z;
  lastArmAttempt : option Date;
  armCooldown : Z
}.

(** [new AlarmAutoArmRunner(automation, automationService)] *)
Definition constructor (a : Automation) : Runner :=
  {| automation := a; isRunning := false; checkInterval := None;
     lastAlarmState := None; stateHistory := []; errorCount := 0;
     maxErrors := 10; lastArmAttempt := None;
     armCooldown := 5 * 60 * 1000 |}.

Definition set_isRunning (v : bool) (r : Runner) : Runner :=
  mkRunner (automation r) v (checkInterval r) (lastAlarmState r)
    (stateHistory r) (errorCount r) (maxErrors r) (lastArmAttempt r)
    (armCooldown r).
Definition set_checkInterval (v : option positive) (r : Runner) : Runner :=
  mkRunner (automation r) (isRunning r) v (lastAlarmState r)
    (stateHistory r) (errorCount r) (maxErrors r) (lastArmAttempt r)
    (armCooldown r).
Definition set_lastAlarmState (v : option string) (r : Runner) : Runner :=
  mkRunner (automation r) (isRunning r) (checkInterval r) v
    (stateHistory r) (errorCount r) (maxErrors r) (lastArmAttempt r)
    (armCooldown r).
Definition set_stateHistory (v : list HistoryEntry) (r : Runner) : Runner :=
  mkRunner (automation r) (isRunning r) (checkInterval r) (lastAlarmState r)
    v (errorCount r) (maxErrors r) (lastArmAttempt r) (armCooldown r).
Definition set_errorCount (v : Z) (r : Runner) : Runner :=
  mkRunner (automation r) (isRunning r) (checkInterval r) (lastAlarmState r)
    (stateHistory r) v (maxErrors r) (lastArmAttempt r) (armCooldown r).
Definition set_lastArmAttempt (v : option Date) (r : Runner) : Runner :=
  mkRunner (automation r) (isRunning r) (checkInterval r) (lastAlarmState r)
    (stateHistory r) (errorCount r) (maxErrors r) v (armCooldown r).

Definition M : Type -> Type := Run.M (S := Machine Runner).

Definition panel : string := "alarm_control_panel.home_alarm".

(** [isInArmingWindow()], for the instant [now]. *)
Definition isInArmingWindow (now : Date) : bool :=
  let hour := getHours now in
  let minute := getMinutes now in
  let currentTime := hour * 60 + minute in
  let armStart := 21 * 60 in
  let armEnd := 7 * 60 in
  if armEnd <? armStart then
    (armStart <=? currentTime) || (currentTime <? armEnd)
  else
    (armStart <=? currentTime) && (currentTime <? armEnd).

(** [addStateHistory(action, details, metadata = {})] *)
Definition pushHistory (e : HistoryEntry) (h : list HistoryEntry) : list HistoryEntry :=
  pushBounded 100 e h.
#[global] Arguments pushHistory : simpl never.

Definition addStateHistory (now : Date) (action : string) (details : Template)
    (metadata : list (string * MetaValue)) : M unit :=
  onRunner (fun r =>
    set_stateHistory
      (pushHistory
         (mkEntry (epochMs now) action details (lastAlarmState r)
            (isInArmingWindow now) metadata)
         (stateHistory r)) r).

(** [Math.ceil(ms / 1000 / 60)] for a whole number of milliseconds: the two
    floating-point divisions are exact enough for the ceiling to be the
    integer one. *)
Definition ceilMinutes (ms : Z) : Z :=
  if ms mod 60000 =? 0 then ms / 60000 else ms / 60000 + 1.

(** [haystack.includes(needle)] *)
Fixpoint includes (needle haystack : string) : bool :=
  String.prefix needle haystack
  || match haystack with
     | EmptyString => false
     | String _ rest => includes needle rest
     end.

(** [async stop()] *)
Definition stop : M unit :=
  r <- getRunner;;
  if negb (isRunning r) then Run.ret tt
  else
    onRunner (set_isRunning false);;
    match checkInterval r with
    | Some h => clearTimer h;; onRunner (set_checkInterval None)
    | None => Run.ret tt
    end;;
    logEvent (id (automation r)) "stopped" [Lit "Alarm auto-arm automation stopped"].

(** [async initializeState()] *)
Definition initializeState (now : Date) (init : Result EntityState) : M unit :=
  r <- getRunner;;
  Run.try_catch
    (alarmState <- getHAEntityState panel init;;
     onRunner (set_lastAlarmState (Some (state alarmState)));;
     addStateHistory now "initialized" [Lit "Initial state: "; Str (state alarmState)]
       [("inWindow", MBool (isInArmingWindow now));
        ("currentTime", MTime (epochMs now))])
    (fun msg =>
       addStateHistory now "error" [Lit "Initialization failed: "; Str msg] [];;
       logEvent (id (automation r)) "error"
         [Lit "Failed to initialize alarm state: "; Str msg]).

(** The hub's answers to the requests of one arm sequence, in the order the
    code may send them. *)
Record ArmAnswers : Type := mkArmAnswers {
  preArm : Result EntityState;
  armAway : Result unit;
  alarmDetails : Result EntityState;
  armHome : Result unit
}.

(** The [catch (serviceError)] block of the arm command. *)
Definition armFallback (now : Date) (a : ArmAnswers) (serviceError : string) : M unit :=
  if includes "500" serviceError then
    Run.try_catch
      (d <- getHAEntityState panel (alarmDetails a);;
       addStateHistory now "service_error"
         [Lit "HTTP 500 - Check alarm panel config. Current attrs: ";
          Str (attributes d)]
         [("time", MTime (epochMs now)); ("fullError", MStr serviceError)])
      (fun _ => Run.ret tt);;
    Run.try_catch
      (callHAService "alarm_arm_home" "alarm_control_panel" panel (armHome a);;
       addStateHistory now "fallback_arm" [Lit "Used alarm_arm_home as fallback"] [])
      (fun _ => Run.throw serviceError)
  else Run.throw serviceError.

(** [async armAlarmWithValidation()] *)
Definition armAlarmWithValidation (now : Date) (a : ArmAnswers) : M unit :=
  r <- getRunner;;
  Run.try_catch
    (preArmState <- getHAEntityState panel (preArm a);;
     if negb (String.eqb (state preArmState) "disarmed") then
       addStateHistory now "abort_arm"
         [Lit "Alarm changed to "; Str (state preArmState); Lit " before arming"] []
     else
       addStateHistory now "arming" [Lit "Sending alarm_arm_away command"]
         [("time", MTime (epochMs now)); ("preArmState", MStr (state preArmState))];;
       Run.try_catch
         (callHAService "alarm_arm_away" "alarm_control_panel" panel (armAway a))
         (armFallback now a);;
       addStateHistory now "armed" [Lit "Arm command completed"]
         [("time", MTime (epochMs now))];;
       logEvent (id (automation r)) "action_executed"
         [Lit "Auto-armed alarm during night hours ("; Clock (epochMs now); Lit ")"];;
       _ <- setTimeout VerifyArm 5000;;
       Run.ret tt)
    (fun msg =>
       let errorDetails :=
         if includes "500" msg then
           String.append msg " - This usually means the alarm panel rejected the command. Check: 1) Alarm is properly configured, 2) All sensors are closed, 3) Alarm panel is ready to arm"
         else msg in
       addStateHistory now "arm_error" [Lit "Failed to arm: "; Str errorDetails]
         [("time", MTime (epochMs now))];;
       logEvent (id (automation r)) "error"
         [Lit "Failed to arm alarm: "; Str errorDetails]).

(** [async verifyArmStatus()] *)
Definition verifyArmStatus (now : Date) (post : Result EntityState) : M unit :=
  Run.try_catch
    (postArmState <- getHAEntityState panel post;;
     let newState := state postArmState in
     if String.eqb newState "armed_away" || String.eqb newState "armed_home" then
       addStateHistory now "verify_success"
         [Lit "Verification: alarm successfully armed ("; Str newState; Lit ")"] []
     else if String.eqb newState "pending" then
       addStateHistory now "verify_pending"
         [Lit "Verification: alarm in pending state (exit delay)"] []
     else
       addStateHistory now "verify_failed"
         [Lit "Verification: alarm still "; Str newState; Lit " after arm attempt"] [])
    (fun msg =>
       addStateHistory now "verify_error"
         [Lit "Could not verify arm status: "; Str msg] []).

(** [reasons.join(sep)] on templates. *)
Fixpoint joinTemplates (sep : Template) (parts : list Template) : Template :=
  match parts with
  | [] => []
  | [p] => p
  | p :: rest => p ++ sep ++ joinTemplates sep rest
  end.

(** The inner [try] of [checkAndArm]: the panel request.  [None] is the
    [return] of its [catch] block. *)
Definition pollAlarm (now : Date) (fetch : Result EntityState) : M (option string) :=
  Run.try_catch
    (alarmStateResponse <- getHAEntityState panel fetch;;
     Run.ret (Some (state alarmStateResponse)))
    (fun msg =>
       onRunner (fun r => set_errorCount (errorCount r + 1) r);;
       r <- getRunner;;
       addStateHistory now "fetch_error" [Lit "Failed to get alarm state: "; Str msg]
         [("errorCount", MNum (errorCount r)); ("time", MTime (epochMs now))];;
       logEvent (id (automation r)) "error"
         [Lit "Failed to get alarm state: "; Str msg];;
       Run.ret None).

(** The cooldown check; [true] is the [return] taken while the cooldown
    runs. *)
Definition checkCooldown (now : Date) (shouldAttemptArm : bool) : M bool :=
  r <- getRunner;;
  match shouldAttemptArm, lastArmAttempt r with
  | true, Some last =>
      let timeSinceLastAttempt := epochMs now - epochMs last in
      let cooldownRemaining := armCooldown r - timeSinceLastAttempt in
      if 0 <? cooldownRemaining then
        let remainingMinutes := ceilMinutes cooldownRemaining in
        addStateHistory now "cooldown"
          [Lit "Waiting "; Num remainingMinutes; Lit "m before next arm attempt"] [];;
        Run.ret true
      else Run.ret false
  | _, _ => Run.ret false
  end.

Definition notArmingReasons (now : Date) (inWindow : bool) (currentState : string)
  : Template :=
  let outside :=
    if negb inWindow then
      [[Lit "outside time window (current: "; Num (getHours now); Lit ":";
        Pad2 (getMinutes now); Lit ", need: 21:00-07:00)"]]
    else [] in
  let armed :=
    if negb (String.eqb currentState "disarmed") then
      [[Lit "alarm is "; Str currentState; Lit " (need: disarmed)"]]
    else [] in
  joinTemplates [Lit " and "] (outside ++ armed).

(** [async checkAndArm()], the body of the 30 s interval.  [fetch] answers the
    panel request and [arm] the requests of the arm sequence. *)
Definition checkAndArm (now : Date) (fetch : Result EntityState) (arm : ArmAnswers)
  : M unit :=
  r <- getRunner;;
  if maxErrors r <=? errorCount r then
    logEvent (id (automation r)) "error"
      [Lit "Automation stopped due to "; Num (errorCount r);
       Lit " consecutive errors"];;
    stop
  else
    Run.try_catch
      (let inWindow := isInArmingWindow now in
       polled <- pollAlarm now fetch;;
       match polled with
       | None => Run.ret tt
       | Some currentState =>
           onRunner (set_errorCount 0);;
           r <- getRunner;;
           match lastAlarmState r with
           | Some last =>
               if negb (String.eqb last currentState) then
                 addStateHistory now "state_change"
                   [Str last; Lit " → "; Str currentState]
                   [("inWindow", MBool inWindow); ("time", MTime (epochMs now))];;
                 logEvent (id (automation r)) "triggered"
                   [Lit "Alarm state changed: "; Str last; Lit " → ";
                    Str currentState; Lit " (Window: ";
                    Lit (if inWindow then "Active" else "Inactive"); Lit ")"]
               else Run.ret tt
           | None => Run.ret tt
           end;;
           onRunner (set_lastAlarmState (Some currentState));;
           let shouldAttemptArm := inWindow && String.eqb currentState "disarmed" in
           cooling <- checkCooldown now shouldAttemptArm;;
           if (cooling : bool) then Run.ret tt
           else
             (if shouldAttemptArm then
                armAlarmWithValidation now arm;;
                onRunner (set_lastArmAttempt (Some now))
              else
                addStateHistory now "no_action"
                  (Lit "Not arming: " :: notArmingReasons now inWindow currentState)
                  [("inWindow", MBool inWindow); ("alarmState", MStr currentState);
                   ("time", MTime (epochMs now)); ("hour", MNum (getHours now))]);;
             updateAutomationTriggerCount (id (automation r))
       end)
      (fun msg =>
         onRunner (fun r => set_errorCount (errorCount r + 1) r);;
         r <- getRunner;;
         addStateHistory now "error" [Str msg]
           [("errorCount", MNum (errorCount r)); ("time", MTime (epochMs now))];;
         if (errorCount r =? 1) || (js_rem (errorCount r) 3 =? 0) then
           logEvent (id (automation r)) "error"
             [Lit "Failed to check alarm state ("; Num (errorCount r); Lit "/";
              Num (maxErrors r); Lit "): "; Str msg]
         else Run.ret tt).

(** [async start()]: the interval is set, then the state is initialised and a
    first check runs at once. *)
Definition start (now : Date) (init fetch : Result EntityState) (arm : ArmAnswers)
  : M unit :=
  r <- getRunner;;
  if isRunning r then Run.ret tt
  else
    onRunner (set_isRunning true);;
    onRunner (set_errorCount 0);;
    h <- setInterval PollTick 30000;;
    onRunner (set_checkInterval (Some h));;
    initializeState now init;;
    checkAndArm now fetch arm;;
    logEvent (id (automation r)) "started"
      [Lit "Alarm auto-arm automation started - checking every 30 seconds"].

(** *** The runner driven by its environment *)
Inductive Input : Type :=
| CallStart (now : Date) (init fetch : Result EntityState) (arm : ArmAnswers)
| CallStop
| Fire (h : positive) (now : Date) (answer : Result EntityState) (arm : ArmAnswers).

Definition fire (h : positive) (now : Date) (answer : Result EntityState)
    (arm : ArmAnswers) : M unit :=
  w <- getWorld;;
  match findTimer h w with
  | Some t =>
      match callback t with
      | PollTick => checkAndArm now answer arm
      | VerifyArm => clearTimer h;; verifyArmStatus now answer
      | TurnOffCountdown _ _ _ => Run.ret tt
      end
  | None => Run.ret tt
  end.

Definition step (s : Machine Runner) (i : Input) : Machine Runner :=
  match i with
  | CallStart now init fetch arm => Run.exec (start now init fetch arm) s
  | CallStop => Run.exec stop s
  | Fire h now answer arm => Run.exec (fire h now answer arm) s
  end.

Definition run (s : Machine Runner) (inputs : list Input) : Machine Runner :=
  fold_left step inputs s.

Definition initial (a : Automation) : Machine Runner := (constructor a, emptyWorld).

End AlarmAutoArm.

(** * Vocabulary of the statements *)

(** [if (handle) { clearTimeout(handle) }] on the timer table. *)
Definition clearHandle (o : option positive) (ts : list Timer) : list Timer :=
  match o with
  | Some h => removeTimer h ts
  | None => ts
  end.

(** [m] keeps [P], whether it returns or throws. *)
Definition preserves {S A : Type} (P : S -> Prop) (m : Run.M (S := S) A) : Prop :=
  forall s, P s -> P (snd (m s)).

(** A property of the runner object alone. *)
Definition ofRunner {R : Type} (Q : R -> Prop) : Machine R -> Prop :=
  fun s => Q (fst s).

Module MotionSpec.
Import MotionLight.

(** The history is within the capacity of the ring. *)
Definition bounded (r : Runner) : Prop :=
  (List.length (stateHistory r) <= 50)%nat.

(** The runner is below its error limit and both entities are configured, so
    that a poll sends its state request. *)
Definition polling (r : Runner) (motionEntity lightEntity : string) : Prop :=
  errorCount r < maxErrors r /\
  configured (motion_entity (settings (automation r))) = Some motionEntity /\
  configured (light_entity (settings (automation r))) = Some lightEntity.

(** A sequence of polls, each with the instant it runs at, the hub's answer
    to the state request and its answer to a turn-on call. *)
Definition polls (s : Machine Runner)
    (ps : list (Z * Result EntityState * Result unit)) : Machine Runner :=
  fold_left
    (fun s p => Run.exec (checkMotionState (fst (fst p)) (snd (fst p)) (snd p)) s)
    ps s.

(** The world with more requests sent, and with more events logged. *)
Definition addRequests (cs : list ApiCall) (w : World) : World :=
  {| eventLog := eventLog w; apiCalls := apiCalls w ++ cs;
     triggerCountUpdates := triggerCountUpdates w; timers := timers w;
     nextHandle := nextHandle w |}.

Definition addEvents (es : list Event) (w : World) : World :=
  {| eventLog := eventLog w ++ es; apiCalls := apiCalls w;
     triggerCountUpdates := triggerCountUpdates w; timers := timers w;
     nextHandle := nextHandle w |}.

(** The counters after a state request that succeeded at [now]. *)
Definition polledOk (now : Z) (r : Runner) : Runner :=
  set_lastSuccessfulPoll (Some now)
    (set_consecutiveSuccesses (consecutiveSuccesses r + 1) (set_errorCount 0 r)).

(** The history entry [addStateHistory] builds on the runner [r]. *)
Definition entryOf (now : Z) (ms a : string) (r : Runner)
    (d : option AdditionalData) : HistoryEntry :=
  mkEntry now ms a (errorCount r) (consecutiveSuccesses r) d.

(** The world after the off->on branch: a pending countdown is cleared, the
    turn-on call is sent, its outcome logged, the trigger count updated. *)
Definition afterMotionDetected (r : Runner) (w : World) (m l : string)
    (turnOn : Result unit) : World :=
  {| eventLog := eventLog w ++
       [match turnOn with
        | Ok _ => mkEvent (id (automation r)) "triggered"
                    [Lit "Motion detected - turned on "; Str l]
        | Err msg => mkEvent (id (automation r)) "error"
                    [Lit "Failed to turn on light: "; Str msg]
        end];
     apiCalls := apiCalls w ++ [GetState m; CallService "turn_on" "light" l];
     triggerCountUpdates := triggerCountUpdates w ++ [id (automation r)];
     timers := match timeoutId r with
               | Some h => removeTimer h (timers w)
               | None => timers w
               end;
     nextHandle := nextHandle w |}.

(** The history after the off->on branch. *)
Definition historyAfterMotionDetected (now : Z) (r : Runner) (turnOn : Result unit)
  : list HistoryEntry :=
  let r1 := polledOk now r in
  let h1 := pushHistory (entryOf now "on" "motion_detected" r1 None) (stateHistory r) in
  let h2 := match timeoutId r with
            | Some _ => pushHistory (entryOf now "on" "countdown_cancelled" r1 None) h1
            | None => h1
            end in
  pushHistory
    (match turnOn with
     | Ok _ => entryOf now "on" "light_turned_on" r1 None
     | Err msg => entryOf now "on" "light_error" r1 (Some (ErrorData msg))
     end) h2.

(** The runner object after the body of [stop]. *)
Definition stopped (r : Runner) : Runner :=
  set_timeoutId None (set_pollInterval None (set_isRunning false r)).

(** The history entry and the event of a poll whose state request fails. *)
Definition failedEntry (now : Z) (msg : string) (r : Runner) : HistoryEntry :=
  mkEntry now "error" "motion_state_error" (errorCount r + 1) 0
    (Some (ErrorCountData msg (errorCount r + 1))).

Definition failedEvent (msg : string) (r : Runner) : Event :=
  mkEvent (id (automation r)) "error"
    [Lit "Failed to get motion state ("; Num (errorCount r + 1); Lit "/";
     Num (maxErrors r); Lit "): "; Str msg].

(** The poll saw the sensor go from "off" to "on". *)
Definition isOffOn (last : option string) (current : string) : bool :=
  match last with
  | Some s => String.eqb s "off" && String.eqb current "on"
  | None => false
  end.

(** Callbacks of a handle, as inputs of the runner. *)
Definition ticks (h : positive) (ps : list (Z * Result EntityState * Result unit))
  : list Input :=
  map (fun p => Fire h (fst (fst p)) (snd (fst p)) (snd p)) ps.

(** Polls whose state request fails with the given messages. *)
Definition failures (h : positive) (fs : list (Z * string * Result unit))
  : list Input :=
  map (fun f => Fire h (fst (fst f)) (Err (snd (fst f))) (snd f)) fs.

Definition isCountdown (t : Timer) : bool :=
  match callback t with
  | TurnOffCountdown _ _ _ => true
  | _ => false
  end.

End MotionSpec.

Module AlarmSpec.
Import AlarmAutoArm.

(** The history is within the capacity of the ring. *)
Definition bounded (r : Runner) : Prop :=
  (List.length (stateHistory r) <= 100)%nat.

(** [r] is [r0] but for the history. *)
Definition historyOnly (r0 r : Runner) : Prop :=
  exists h, r = set_stateHistory h r0.

(** The action condition of a poll that fetched [currentState] at [now]. *)
Definition shouldAttemptArm (now : Date) (currentState : string) : bool :=
  isInArmingWindow now && String.eqb currentState "disarmed".

(** The cooldown since the last arm attempt still runs at [now]. *)
Definition cooling (r : Runner) (now : Date) : bool :=
  match lastArmAttempt r with
  | Some last => 0 <? armCooldown r - (epochMs now - epochMs last)
  | None => false
  end.

(** The runner object after the body of [stop]. *)
Definition stopped (r : Runner) : Runner :=
  set_checkInterval None (set_isRunning false r).

(** The history entry and the event of a poll whose panel request fails. *)
Definition failedEntry (now : Date) (msg : string) (r : Runner) : HistoryEntry :=
  mkEntry (epochMs now) "fetch_error" [Lit "Failed to get alarm state: "; Str msg]
    (lastAlarmState r) (isInArmingWindow now)
    [("errorCount", MNum (errorCount r + 1)); ("time", MTime (epochMs now))].

Definition failedEvent (msg : string) (r : Runner) : Event :=
  mkEvent (id (automation r)) "error" [Lit "Failed to get alarm state: "; Str msg].

(** Callbacks of a handle, as inputs of the runner. *)
Definition ticks (h : positive) (ps : list (Date * Result EntityState * ArmAnswers))
  : list Input :=
  map (fun p => Fire h (fst (fst p)) (snd (fst p)) (snd p)) ps.

(** Polls whose panel request fails with the given messages. *)
Definition failures (h : positive) (fs : list (Date * string * ArmAnswers))
  : list Input :=
  map (fun f => Fire h (fst (fst f)) (Err (snd (fst f))) (snd f)) fs.

(** What a poll does about arming, from any state: either it sends at most
    its own request and leaves [lastArmAttempt] alone, or it also sends the
    pre-arm request, no cooldown was running, and [lastArmAttempt] is now the
    instant of the poll. *)
Definition armDecision (now : Date) (own : nat) (r : Runner) (w : World)
    (s' : Machine Runner) : Prop :=
  armCooldown (fst s') = armCooldown r /\
  ((exists sent,
      apiCalls (snd s') = apiCalls w ++ sent /\ (List.length sent <= own)%nat /\
      lastArmAttempt (fst s') = lastArmAttempt r)
   \/
   (exists sent,
      apiCalls (snd s') = apiCalls w ++ sent /\ (own < List.length sent)%nat /\
      lastArmAttempt (fst s') = Some now /\ cooling r now = false)).

(** *** The instants at which arm sequences start

    A step has entered the arm sequence when it has sent more requests than
    its own: a callback sends one request of its own (the poll or the
    verification), [start] two (the initial state and the first poll); the
    arm sequence begins with one more, the pre-arm request. *)
Definition requestsSent (s s' : Machine Runner) : nat :=
  (List.length (apiCalls (snd s')) - List.length (apiCalls (snd s)))%nat.

Definition armedAt (s : Machine Runner) (i : Input) : option Date :=
  let sent := requestsSent s (step s i) in
  match i with
  | CallStart now _ _ _ => if (2 <? sent)%nat then Some now else None
  | Fire _ now _ _ => if (1 <? sent)%nat then Some now else None
  | CallStop => None
  end.

(** The instants, in order, at which a run enters the arm sequence. *)
Fixpoint armTimes (s : Machine Runner) (inputs : list Input) : list Date :=
  match inputs with
  | [] => []
  | i :: rest =>
      match armedAt s i with
      | Some now => [now]
      | None => []
      end ++ armTimes (step s i) rest
  end.

(** Every instant of the list is at least [gap] milliseconds before each of
    the later ones. *)
Fixpoint spaced (gap : Z) (ts : list Date) : Prop :=
  match ts with
  | [] => True
  | t :: rest =>
      Forall (fun t' => gap <= epochMs t' - epochMs t) rest /\ spaced gap rest
  end.

End AlarmSpec.

(** ** Concrete runs used to exercise the statements *)

Module Demo.

Definition hub (s : string) : Result EntityState := Ok (mkEntityState s "{}").

Definition hall : MotionLight.Automation :=
  MotionLight.mkAutomation "a1" "hall"
    (MotionLight.mkSettings (Some "m1") (Some "l1") (Some 15)).

(** The edge-triggered runner right after [start], the sensor reading "off"
    or "on". *)
Definition hallOff : Machine MotionLight.Runner :=
  Eval vm_compute in
    MotionLight.run (MotionLight.initial hall) [MotionLight.CallStart 0 (hub "off")].

Definition hallOn : Machine MotionLight.Runner :=
  Eval vm_compute in
    MotionLight.run (MotionLight.initial hall) [MotionLight.CallStart 0 (hub "on")].

(** ... and after an on->off poll, with the countdown pending. *)
Definition hallCounting : Machine MotionLight.Runner :=
  Eval vm_compute in
    MotionLight.run hallOn [MotionLight.Fire 1 750 (hub "off") (Ok tt)].

Definition alarm : AlarmAutoArm.Automation :=
  AlarmAutoArm.mkAutomation "a2" "night alarm".

Definition armsFine : AlarmAutoArm.ArmAnswers :=
  AlarmAutoArm.mkArmAnswers (hub "disarmed") (Ok tt) (hub "disarmed") (Ok tt).

Definition at_21_05 : AlarmAutoArm.Date := AlarmAutoArm.mkDate 75900000 21 5.
Definition at_21_06 : AlarmAutoArm.Date := AlarmAutoArm.mkDate 75960000 21 6.
Definition at_12_00 : AlarmAutoArm.Date := AlarmAutoArm.mkDate 43200000 12 0.

(** The scheduled-window runner started at noon on an armed panel. *)
Definition alarmIdle : Machine AlarmAutoArm.Runner :=
  Eval vm_compute in
  AlarmAutoArm.run (AlarmAutoArm.initial alarm)
    [AlarmAutoArm.CallStart at_12_00 (hub "armed_away") (hub "armed_away") armsFine].

(** The scheduled-window runner started at 21:05 on a disarmed panel: it has
    armed, and the verification timer is pending. *)
Definition alarmArmed : Machine AlarmAutoArm.Runner :=
  Eval vm_compute in
  AlarmAutoArm.run (AlarmAutoArm.initial alarm)
    [AlarmAutoArm.CallStart at_21_05 (hub "disarmed") (hub "disarmed") armsFine].

(** The edge-triggered runner after ten polls in a row whose state request
    failed. *)
Definition hallFailing : Machine MotionLight.Runner :=
  Eval vm_compute in
    MotionLight.run Demo.hallOff
      (MotionSpec.failures 1
         [(750, "timeout", Ok tt); (1500, "timeout", Ok tt);
          (2250, "timeout", Ok tt); (3000, "timeout", Ok tt);
          (3750, "timeout", Ok tt); (4500, "timeout", Ok tt);
          (5250, "timeout", Ok tt); (6000, "timeout", Ok tt);
          (6750, "timeout", Ok tt); (7500, "timeout", Ok tt)]).

End Demo.

(** * More of the two files *)

(** ** [getDebugInfo()] of the two runners *)

(** [x !== null], for a field that holds a timer handle or [null]. *)
Definition notNull {A : Type} (o : option A) : bool :=
  match o with
  | Some _ => true
  | None => false
  end.

Module MotionLightDebug.

(** The object [getDebugInfo()] returns. *)
Record DebugInfo : Type := mkDebugInfo {
  isRunning : bool;
  lastMotionState : option string;
  hasTimeout : bool;
  errorCount : Z;
  consecutiveSuccesses : Z;
  lastSuccessfulPoll : option Z;
  stateHistory : list MotionLight.HistoryEntry;
  pollIntervalActive : bool;
  automationId : string;
  automationName : string
}.

Definition getDebugInfo (r : MotionLight.Runner) : DebugInfo :=
  {| isRunning := MotionLight.isRunning r;
     lastMotionState := MotionLight.lastMotionState r;
     hasTimeout := notNull (MotionLight.timeoutId r);
     errorCount := MotionLight.errorCount r;
     consecutiveSuccesses := MotionLight.consecutiveSuccesses r;
     lastSuccessfulPoll := MotionLight.lastSuccessfulPoll r;
     stateHistory := slice_last 10 (MotionLight.stateHistory r);
     pollIntervalActive := notNull (MotionLight.pollInterval r);
     automationId := MotionLight.id (MotionLight.automation r);
     automationName := MotionLight.name (MotionLight.automation r) |}.

End MotionLightDebug.

Module AlarmAutoArmDebug.

(** The object [getDebugInfo()] returns; [currentTime] and [lastArmAttempt]
    are kept as the instants that [toLocaleTimeString()] renders. *)
Record DebugInfo : Type := mkDebugInfo {
  isRunning : bool;
  lastAlarmState : option string;
  inArmingWindow : bool;
  currentTime : Z;
  currentHour : Z;
  errorCount : Z;
  stateHistory : list AlarmAutoArm.HistoryEntry;
  checkIntervalActive : bool;
  automationId : string;
  automationName : string;
  lastArmAttempt : option Z;
  cooldownRemaining : Z
}.

Definition getDebugInfo (now : AlarmAutoArm.Date) (r : AlarmAutoArm.Runner) : DebugInfo :=
  {| isRunning := AlarmAutoArm.isRunning r;
     lastAlarmState := AlarmAutoArm.lastAlarmState r;
     inArmingWindow := AlarmAutoArm.isInArmingWindow now;
     currentTime := AlarmAutoArm.epochMs now;
     currentHour := AlarmAutoArm.getHours now;
     errorCount := AlarmAutoArm.errorCount r;
     stateHistory := slice_last 15 (AlarmAutoArm.stateHistory r);
     checkIntervalActive := notNull (AlarmAutoArm.checkInterval r);
     automationId := AlarmAutoArm.id (AlarmAutoArm.automation r);
     automationName := AlarmAutoArm.name (AlarmAutoArm.automation r);
     lastArmAttempt := option_map AlarmAutoArm.epochMs (AlarmAutoArm.lastArmAttempt r);
     cooldownRemaining :=
       match AlarmAutoArm.lastArmAttempt r with
       | Some last =>
           Z.max 0 (AlarmAutoArm.armCooldown r
                    - (AlarmAutoArm.epochMs now - AlarmAutoArm.epochMs last))
       | None => 0
       end |}.

End AlarmAutoArmDebug.

(** ** The display components

    The React components that show an automation on the page, as far as they
    compute: the helpers that format times, keep the list of debug messages
    and build the address of the hub. *)

(** An entry of [debugMessages]: [{ time, message }]. *)
Module DebugMessage.
Record t : Type := mk {
  time : Z;
  message : Template
}.
End DebugMessage.

(** [url.replace(/\/$/, '')]: one slash at the very end is dropped. *)
Fixpoint dropTrailingSlash (url : string) : string :=
  match url with
  | EmptyString => EmptyString
  | String c rest =>
      match rest with
      | EmptyString => if String.eqb url "/" then EmptyString else url
      | String _ _ => String c (dropTrailingSlash rest)
      end
  end.

(** The address both components send their requests to, from the stored
    [ha_url]. *)
Definition finalUrl (haUrl : string) : string :=
  let normalizedUrl := dropTrailingSlash haUrl in
  if negb (String.prefix "http://" normalizedUrl)
     && negb (String.prefix "https://" normalizedUrl)
  then String.append "http://" normalizedUrl
  else normalizedUrl.

Module MotionLightDisplay.

(** The function [addDebugMessage] hands to [setDebugMessages], run when the
    debounced call goes through; nothing happens once the component is
    unmounted. *)
Definition addDebugMessage (isMounted : bool) (timestamp : Z) (message : Template)
    (prev : list DebugMessage.t) : list DebugMessage.t :=
  if negb isMounted then prev
  else DebugMessage.mk timestamp message :: firstn 9 prev.

(** [formatLastTriggered(timestamp)] at the instant [now]; [None] is a
    missing timestamp, [Some date] one that [new Date] reads as the instant
    [date]. *)
Definition formatLastTriggered (now : Z) (timestamp : option Z) : Template :=
  match timestamp with
  | None => [Lit "Never"]
  | Some date =>
      let diffMs := now - date in
      let diffMins := diffMs / 60000 in
      let diffHours := diffMins / 60 in
      let diffDays := diffHours / 24 in
      if diffMins <? 1 then [Lit "Just now"]
      else if diffMins <? 60 then [Num diffMins; Lit "m ago"]
      else if diffHours <? 24 then [Num diffHours; Lit "h ago"]
      else [Num diffDays; Lit "d ago"]
  end.

End MotionLightDisplay.

Module AlarmAutoArmDisplay.

(** The component's own [isInArmingWindow()]: it looks at the hour only. *)
Definition isInArmingWindow (now : AlarmAutoArm.Date) : bool :=
  let hour := AlarmAutoArm.getHours now in
  (21 <=? hour) || (hour <? 7).

Definition addDebugMessage (timestamp : Z) (message : Template)
    (prev : list DebugMessage.t) : list DebugMessage.t :=
  DebugMessage.mk timestamp message :: firstn 49 prev.

(** [getTimeUntilNext()] at the instant [now], for the [nextArmTime] the
    component holds. *)
Definition getTimeUntilNext (now : Z) (nextArmTime : option Z) : Template :=
  match nextArmTime with
  | None => []
  | Some next =>
      let diffMs := next - now in
      let diffHours := diffMs / (1000 * 60 * 60) in
      let diffMins := js_rem diffMs (1000 * 60 * 60) / (1000 * 60) in
      if 0 <? diffHours then [Num diffHours; Lit "h "; Num diffMins; Lit "m"]
      else [Num diffMins; Lit "m"]
  end.

End AlarmAutoArmDisplay.

(** ** Vocabulary of the further statements *)

(** A request that commands the hub, as opposed to one that reads a state. *)
Definition isService (c : ApiCall) : bool :=
  match c with
  | CallService _ _ _ => true
  | GetState _ => false
  end.

Module AlarmLaws.
Import AlarmAutoArm AlarmSpec.

Definition armAwayCall : ApiCall :=
  CallService "alarm_arm_away" "alarm_control_panel" panel.

Definition armHomeCall : ApiCall :=
  CallService "alarm_arm_home" "alarm_control_panel" panel.

(** The pre-arm check found the panel disarmed. *)
Definition preArmPassed (a : ArmAnswers) : bool :=
  match preArm a with
  | Ok e => String.eqb (state e) "disarmed"
  | Err _ => false
  end.

(** The arm command failed with a message that mentions 500. *)
Definition fallbackTried (a : ArmAnswers) : bool :=
  match armAway a with
  | Ok _ => false
  | Err msg => includes "500" msg
  end.

(** The hub accepted an arm command: [alarm_arm_away], or [alarm_arm_home]
    after a 500. *)
Definition commandAccepted (a : ArmAnswers) : bool :=
  match armAway a with
  | Ok _ => true
  | Err msg =>
      includes "500" msg && match armHome a with Ok _ => true | Err _ => false end
  end.

(** The requests of one arm sequence, in order. *)
Definition armRequests (a : ArmAnswers) : list ApiCall :=
  GetState panel ::
  (if preArmPassed a then
     armAwayCall :: (if fallbackTried a then [GetState panel; armHomeCall] else [])
   else []).

(** The actions of the history entries one arm sequence writes, in order. *)
Definition armActions (a : ArmAnswers) : list string :=
  match preArm a with
  | Err _ => ["arm_error"]
  | Ok e =>
      if String.eqb (state e) "disarmed" then
        "arming" ::
        match armAway a with
        | Ok _ => ["armed"]
        | Err msg =>
            if includes "500" msg then
              match alarmDetails a with Ok _ => ["service_error"] | Err _ => [] end
              ++ match armHome a with
                 | Ok _ => ["fallback_arm"; "armed"]
                 | Err _ => ["arm_error"]
                 end
            else ["arm_error"]
        end
      else ["abort_arm"]
  end.

(** The types of the events one arm sequence logs. *)
Definition armEventTypes (a : ArmAnswers) : list string :=
  match preArm a with
  | Err _ => ["error"]
  | Ok e =>
      if String.eqb (state e) "disarmed" then
        if commandAccepted a then ["action_executed"] else ["error"]
      else []
  end.

(** Entries appended to the history one after the other. *)
Definition pushAll (entries : list HistoryEntry) (h : list HistoryEntry)
  : list HistoryEntry :=
  fold_left (fun h e => pushHistory e h) entries h.

(** The requests of one poll. *)
Definition pollRequests (r : Runner) (now : Date) (fetch : Result EntityState)
    (arm : ArmAnswers) : list ApiCall :=
  if maxErrors r <=? errorCount r then []
  else
    GetState panel ::
    match fetch with
    | Ok e =>
        if shouldAttemptArm now (state e) && negb (cooling r now)
        then armRequests arm else []
    | Err _ => []
    end.



(** The poll found a state other than the one it had stored. *)
Definition stateChanged (r : Runner) (e : EntityState) : bool :=
  match lastAlarmState r with
  | Some last => negb (String.eqb last (state e))
  | None => false
  end.

(** The three requests the runner has any use for. *)
Definition allowed (c : ApiCall) : Prop :=
  c = GetState panel \/ c = armAwayCall \/ c = armHomeCall.

(** The action of the entry [verifyArmStatus] writes for an answer. *)
Definition verifyAction (post : Result EntityState) : string :=
  match post with
  | Ok e =>
      if String.eqb (state e) "armed_away" || String.eqb (state e) "armed_home"
      then "verify_success"
      else if String.eqb (state e) "pending" then "verify_pending"
      else "verify_failed"
  | Err _ => "verify_error"
  end.

End AlarmLaws.

Module MotionLaws.
Import MotionLight MotionSpec.

Definition turnOnCall (lightEntity : string) : ApiCall :=
  CallService "turn_on" "light" lightEntity.

Definition turnOffCall (lightEntity : string) : ApiCall :=
  CallService "turn_off" "light" lightEntity.

(** The requests of one poll. *)
Definition pollRequests (r : Runner) (fetch : Result EntityState) : list ApiCall :=
  if maxErrors r <=? errorCount r then []
  else
    match configured (motion_entity (settings (automation r))),
          configured (light_entity (settings (automation r))) with
    | Some m, Some l =>
        GetState m ::
        match fetch with
        | Ok e => if isOffOn (lastMotionState r) (state e) then [turnOnCall l] else []
        | Err _ => []
        end
    | _, _ => []
    end.

(** The requests a runner of the automation [a] has any use for: the state
    of its motion entity, and the two commands on its light. *)
Definition allowedFor (a : Automation) (c : ApiCall) : Prop :=
  match configured (motion_entity (settings a)) with
  | Some m =>
      c = GetState m \/
      match configured (light_entity (settings a)) with
      | Some l => c = turnOnCall l \/ c = turnOffCall l
      | None => False
      end
  | None => False
  end.

(** The countdowns in the timer table were made for the entities of [a]. *)
Definition countdownsFor (a : Automation) (ts : list Timer) : Prop :=
  forall t m l d,
    In t ts -> callback t = TurnOffCountdown m l d ->
    configured (motion_entity (settings a)) = Some m /\
    configured (light_entity (settings a)) = Some l.

(** The history entry and the event of a poll that finds an entity missing
    from the settings. *)
Definition misconfiguredEntry (now : Z) (r : Runner) : HistoryEntry :=
  mkEntry now "error" "general_error" (errorCount r + 1) 0
    (Some (ErrorData "Motion or light entity not configured")).

Definition misconfiguredEvent (r : Runner) : Event :=
  mkEvent (id (automation r)) "error"
    [Lit "Error checking motion state: "; Str "Motion or light entity not configured"].

(** The fields the constructor sets and no method assigns. *)
Definition configIs (a : Automation) (limit : Z) (r : Runner) : Prop :=
  automation r = a /\ maxErrors r = limit.

End MotionLaws.

(** A property of the world alone. *)
Definition ofWorld {R : Type} (W : World -> Prop) : Machine R -> Prop :=
  fun s => W (snd s).

(** The handles of the timer table are distinct, and older than the next
    handle [setTimeout] or [setInterval] will give out. *)
Definition handlesFresh (w : World) : Prop :=
  NoDup (map handle (timers w)) /\
  Forall (fun t => (handle t < nextHandle w)%positive) (timers w).

Module AlarmInv.
Import AlarmAutoArm.

Definition pollTimer (h : positive) : Timer := mkTimer h PollTick 30000 true.

(** The runner and the timer table agree: a running runner holds the handle
    of its poll interval, which is in the table; a runner that is not
    running holds none, and no poll interval is in the table; the table
    holds nothing but poll intervals and verifications. *)
Record timersAgree (s : Machine Runner) : Prop := mkAgree {
  agree_fresh : handlesFresh (snd s);
  agree_running :
    isRunning (fst s) = true ->
    exists h, checkInterval (fst s) = Some h /\ In (pollTimer h) (timers (snd s));
  agree_stopped : isRunning (fst s) = false -> checkInterval (fst s) = None;
  agree_poll :
    forall t, In t (timers (snd s)) -> callback t = PollTick ->
              checkInterval (fst s) = Some (handle t);
  agree_kinds :
    forall t, In t (timers (snd s)) ->
              callback t = PollTick \/ callback t = VerifyArm;
  agree_limit : 0 < maxErrors (fst s)
}.

(** The fields the constructor sets and no method assigns. *)
Definition configIs (a : Automation) (limit cooldown : Z) (r : Runner) : Prop :=
  automation r = a /\ maxErrors r = limit /\ armCooldown r = cooldown.

End AlarmInv.

Module MotionInv.
Import MotionLight.

Definition pollTimer (h : positive) : Timer := mkTimer h PollTick 750 true.

(** The runner and the timer table agree: a running runner holds the handle
    of its poll interval, which is in the table; a runner that is not
    running holds no handle, and no poll interval is in the table; the
    countdown handle is never the one of the poll interval. *)
Record timersAgree (s : Machine Runner) : Prop := mkAgree {
  agree_fresh : handlesFresh (snd s);
  agree_running :
    isRunning (fst s) = true ->
    exists h, pollInterval (fst s) = Some h /\ In (pollTimer h) (timers (snd s));
  agree_stopped :
    isRunning (fst s) = false -> pollInterval (fst s) = None /\ timeoutId (fst s) = None;
  agree_poll :
    forall t, In t (timers (snd s)) -> callback t = PollTick ->
              pollInterval (fst s) = Some (handle t);
  agree_kinds : forall t, In t (timers (snd s)) -> callback t <> VerifyArm;
  agree_timeout :
    forall h, timeoutId (fst s) = Some h -> pollInterval (fst s) <> Some h;
  agree_limit : 0 < maxErrors (fst s)
}.

End MotionInv.

Module StartLaws.

(** Polls of a handle, whatever the hub would answer. *)
Definition misconfiguredEvents (r : MotionLight.Runner) (n : nat) : list Event :=
  repeat (MotionLaws.misconfiguredEvent r) n.

End StartLaws.

(** The event types the two runners log. *)
Definition knownEventTypes : list string :=
  ["started"; "stopped"; "error"; "triggered"; "action_executed"].

(** Everything written to the persistence collaborator is written under the
    automation [aid], with a known event type. *)
Definition ownLog (aid : string) (w : World) : Prop :=
  Forall (fun e => automation_id e = aid /\ In (event_type e) knownEventTypes)
    (eventLog w) /\
  Forall (fun i => i = aid) (triggerCountUpdates w).

(** ... by a runner made for that automation. *)
Definition keepsOwnLog {R : Type} (idOf : R -> string) (aid : string)
  : Machine R -> Prop :=
  fun s => idOf (fst s) = aid /\ ownLog aid (snd s).

(** Instants in the order of time: none is later than one that follows. *)
Fixpoint ordered (ts : list Z) : Prop :=
  match ts with
  | [] => True
  | t :: rest => Forall (fun t' => t <= t') rest /\ ordered rest
  end.

(** Timestamps in order, and none after [bound]. *)
Definition orderedUntil (bound : Z) (ts : list Z) : Prop :=
  ordered ts /\ Forall (fun t => t <= bound) ts.

Module Chronology.

(** The instants at which the inputs of a run happen. *)
Definition motionInstants (inputs : list MotionLight.Input) : list Z :=
  flat_map
    (fun i => match i with
              | MotionLight.CallStart now _ => [now]
              | MotionLight.CallStop => []
              | MotionLight.Fire _ now _ _ => [now]
              end)
    inputs.

Definition alarmInstants (inputs : list AlarmAutoArm.Input) : list Z :=
  flat_map
    (fun i => match i with
              | AlarmAutoArm.CallStart now _ _ _ => [AlarmAutoArm.epochMs now]
              | AlarmAutoArm.CallStop => []
              | AlarmAutoArm.Fire _ now _ _ => [AlarmAutoArm.epochMs now]
              end)
    inputs.

Definition motionStamps (r : MotionLight.Runner) : list Z :=
  map MotionLight.timestamp (MotionLight.stateHistory r).

Definition alarmStamps (r : AlarmAutoArm.Runner) : list Z :=
  map AlarmAutoArm.timestamp (AlarmAutoArm.stateHistory r).

End Chronology.

(** ** Polls that overlap

    [setInterval] starts a poll callback every 750 ms (every 30 s in the
    scheduled-window runner) whether or not the previous one has returned,
    and neither class keeps a flag for a poll in progress.  A poll gives way
    at each [await] of the hub: other calls and callbacks run before the
    answer arrives.  The two modules below cut the poll callbacks at these
    points.  A suspended poll keeps what its closure holds, the constants
    read before the [await]; what it reads through [this] it reads when it
    goes on, and a [new Date()] after the [await] reads the later instant.
    The calls of the persistence collaborator are taken to return without
    another callback running in between, as in the rest of the file. *)

(** The list without its element of index [k]. *)
Fixpoint removeNth {A : Type} (k : nat) (l : list A) : list A :=
  match l, k with
  | [], _ => []
  | _ :: rest, O => rest
  | x :: rest, S k' => x :: removeNth k' rest
  end.

Module MotionOverlap.
Import MotionLight.
Local Open Scope run_scope.

(** A poll that awaits the hub, with the constants of its closure: at the
    state request (l.461), and at the turn-on call (l.523). *)
Inductive Awaiting : Type :=
| AwaitingState (motionEntity lightEntity : string) (delaySeconds : Z)
| AwaitingTurnOn (currentMotionState lightEntity : string).

(** The outer [catch] of [checkMotionState] (l.624-635). *)
Definition generalError (now : Z) (msg : string) : M unit :=
  onRunner (fun r => set_errorCount (errorCount r + 1) r);;
  onRunner (set_consecutiveSuccesses 0);;
  addStateHistory now "error" "general_error" (Some (ErrorData msg));;
  r <- getRunner;;
  logEvent (id (automation r)) "error"
    [Lit "Error checking motion state: "; Str msg].

(** [checkMotionState] from its start until the state request is sent
    (l.436-461).  [None]: the callback has returned. *)
Definition checkMotionStateBegin (now : Z) : M (option Awaiting) :=
  r <- getRunner;;
  if maxErrors r <=? errorCount r then
    logEvent (id (automation r)) "error"
      [Lit "Automation stopped due to "; Num (errorCount r);
       Lit " consecutive errors"];;
    stop;;
    Run.ret None
  else
    Run.try_catch
      (let delaySeconds := delaySecondsOf (settings (automation r)) in
       match configured (motion_entity (settings (automation r))),
             configured (light_entity (settings (automation r))) with
       | Some motionEntity, Some lightEntity =>
           sendRequest (GetState motionEntity);;
           Run.ret (Some (AwaitingState motionEntity lightEntity delaySeconds))
       | _, _ => Run.throw "Motion or light entity not configured"
       end)
      (fun msg => generalError now msg;; Run.ret None).

(** [checkMotionState] from the answer to the state request until the
    turn-on call is sent, or to its end (l.461-523, l.551-622). *)
Definition afterState (now : Z) (motionEntity lightEntity : string)
    (delaySeconds : Z) (fetch : Result EntityState) : M (option Awaiting) :=
  Run.try_catch
    (polled <-
       Run.try_catch
         (motionState <- Run.await fetch;;
          onRunner (set_errorCount 0);;
          onRunner (fun r => set_consecutiveSuccesses (consecutiveSuccesses r + 1) r);;
          onRunner (set_lastSuccessfulPoll (Some now));;
          Run.ret (Some motionState))
         (fun msg =>
            onRunner (fun r => set_errorCount (errorCount r + 1) r);;
            onRunner (set_consecutiveSuccesses 0);;
            r <- getRunner;;
            addStateHistory now "error" "motion_state_error"
              (Some (ErrorCountData msg (errorCount r)));;
            (if (errorCount r =? 1) || (js_rem (errorCount r) 5 =? 0) then
               logEvent (id (automation r)) "error"
                 [Lit "Failed to get motion state ("; Num (errorCount r); Lit "/";
                  Num (maxErrors r); Lit "): "; Str msg]
             else Run.ret tt);;
            Run.ret None);;
     match polled with
     | None => Run.ret None
     | Some motionState =>
         let currentMotionState := state motionState in
         r <- getRunner;;
         match lastMotionState r with
         | None =>
             onRunner (set_lastMotionState (Some currentMotionState));;
             addStateHistory now currentMotionState "initialized" None;;
             Run.ret None
         | Some last =>
             if String.eqb last currentMotionState then Run.ret None
             else if String.eqb last "off" && String.eqb currentMotionState "on" then
               addStateHistory now currentMotionState "motion_detected" None;;
               r <- getRunner;;
               match timeoutId r with
               | Some h =>
                   clearTimer h;;
                   onRunner (set_timeoutId None);;
                   addStateHistory now currentMotionState "countdown_cancelled" None
               | None => Run.ret tt
               end;;
               sendRequest (CallService "turn_on" "light" lightEntity);;
               Run.ret (Some (AwaitingTurnOn currentMotionState lightEntity))
             else
               (if String.eqb last "on" && String.eqb currentMotionState "off"
                then motionStopped now currentMotionState motionEntity lightEntity
                       delaySeconds
                else Run.ret tt);;
               onRunner (set_lastMotionState (Some currentMotionState));;
               Run.ret None
         end
     end)
    (fun msg => generalError now msg;; Run.ret None).

(** [checkMotionState] from the answer to the turn-on call to its end
    (l.523-548, l.621-622). *)
Definition afterTurnOn (now : Z) (currentMotionState lightEntity : string)
    (turnOn : Result unit) : M unit :=
  Run.try_catch
    (r <- getRunner;;
     Run.try_catch
       (Run.await turnOn;;
        addStateHistory now currentMotionState "light_turned_on" None;;
        logEvent (id (automation r)) "triggered"
          [Lit "Motion detected - turned on "; Str lightEntity])
       (fun msg =>
          addStateHistory now currentMotionState "light_error" (Some (ErrorData msg));;
          logEvent (id (automation r)) "error"
            [Lit "Failed to turn on light: "; Str msg]);;
     updateAutomationTriggerCount (id (automation r));;
     onRunner (set_lastMotionState (Some currentMotionState)))
    (generalError now).

(** The parts one after the other, with nothing in between. *)
Definition inOneGo (now : Z) (fetch : Result EntityState) (turnOn : Result unit)
  : M unit :=
  a <- checkMotionStateBegin now;;
  match a with
  | Some (AwaitingState motionEntity lightEntity delaySeconds) =>
      a' <- afterState now motionEntity lightEntity delaySeconds fetch;;
      match a' with
      | Some (AwaitingTurnOn currentMotionState lightEntity') =>
          afterTurnOn now currentMotionState lightEntity' turnOn
      | _ => Run.ret tt
      end
  | _ => Run.ret tt
  end.

(** *** The runner with polls in flight *)
Record State : Type := mkState {
  machine : Machine Runner;
  inFlight : list Awaiting
}.

(** The environment lets a call or a callback run as a whole, as in
    [MotionLight.step]; or lets the interval fire, the poll running until it
    awaits the hub; or answers the request of the poll of index [k] among
    those in flight, which then runs until it awaits the hub again or
    returns. *)
Inductive Input : Type :=
| Whole (i : MotionLight.Input)
| Tick (h : positive) (now : Z)
| Reply (k : nat) (now : Z) (answer : Result EntityState) (act : Result unit).

Definition suspended (out : Result (option Awaiting) * Machine Runner)
  : list Awaiting :=
  match fst out with
  | Ok (Some a) => [a]
  | _ => []
  end.

Definition step (st : State) (i : Input) : State :=
  match i with
  | Whole i => mkState (MotionLight.step (machine st) i) (inFlight st)
  | Tick h now =>
      match findTimer h (snd (machine st)) with
      | Some t =>
          match callback t with
          | PollTick =>
              let out := checkMotionStateBegin now (machine st) in
              mkState (snd out) (inFlight st ++ suspended out)
          | _ => st
          end
      | None => st
      end
  | Reply k now answer act =>
      match nth_error (inFlight st) k with
      | Some (AwaitingState motionEntity lightEntity delaySeconds) =>
          let out := afterState now motionEntity lightEntity delaySeconds answer
                       (machine st) in
          mkState (snd out) (removeNth k (inFlight st) ++ suspended out)
      | Some (AwaitingTurnOn currentMotionState lightEntity) =>
          mkState
            (Run.exec (afterTurnOn now currentMotionState lightEntity act) (machine st))
            (removeNth k (inFlight st))
      | None => st
      end
  end.

Definition run (st : State) (inputs : list Input) : State :=
  fold_left step inputs st.

Definition initial (a : Automation) : State := mkState (MotionLight.initial a) [].

End MotionOverlap.

Module AlarmOverlap.
Import AlarmAutoArm.
Local Open Scope run_scope.

(** A poll that awaits the hub: at the panel request of [checkAndArm]
    (l.901), and at the pre-arm request, the first of the arm sequence
    (l.1019).  Its closure holds [now], the instant [checkAndArm] took when
    it started (l.888). *)
Inductive Awaiting : Type :=
| AwaitingPanel (now : Date)
| AwaitingPreArm (now : Date).

(** The outer [catch] of [checkAndArm] (l.996-1010), at the instant
    [clock]. *)
Definition generalError (clock : Date) (msg : string) : M unit :=
  onRunner (fun r => set_errorCount (errorCount r + 1) r);;
  r <- getRunner;;
  addStateHistory clock "error" [Str msg]
    [("errorCount", MNum (errorCount r)); ("time", MTime (epochMs clock))];;
  if (errorCount r =? 1) || (js_rem (errorCount r) 3 =? 0) then
    logEvent (id (automation r)) "error"
      [Lit "Failed to check alarm state ("; Num (errorCount r); Lit "/";
       Num (maxErrors r); Lit "): "; Str msg]
  else Run.ret tt.

(** [checkAndArm] from its start until the panel request is sent
    (l.874-901). *)
Definition checkAndArmBegin (now : Date) : M (option Awaiting) :=
  r <- getRunner;;
  if maxErrors r <=? errorCount r then
    logEvent (id (automation r)) "error"
      [Lit "Automation stopped due to "; Num (errorCount r);
       Lit " consecutive errors"];;
    stop;;
    Run.ret None
  else
    sendRequest (GetState panel);;
    Run.ret (Some (AwaitingPanel now)).

(** [checkAndArm] from the answer to the panel request, which arrives at the
    instant [clock], until the pre-arm request is sent, or to its end
    (l.901-963, l.971-994).  [now] and [inWindow] are the constants taken
    at the start of the callback; [addStateHistory] reads the clock again. *)
Definition afterPanel (now clock : Date) (fetch : Result EntityState)
  : M (option Awaiting) :=
  Run.try_catch
    (let inWindow := isInArmingWindow now in
     polled <-
       Run.try_catch
         (alarmStateResponse <- Run.await fetch;;
          Run.ret (Some (state alarmStateResponse)))
         (fun msg =>
            onRunner (fun r => set_errorCount (errorCount r + 1) r);;
            r <- getRunner;;
            addStateHistory clock "fetch_error"
              [Lit "Failed to get alarm state: "; Str msg]
              [("errorCount", MNum (errorCount r)); ("time", MTime (epochMs now))];;
            logEvent (id (automation r)) "error"
              [Lit "Failed to get alarm state: "; Str msg];;
            Run.ret None);;
     match polled with
     | None => Run.ret None
     | Some currentState =>
         onRunner (set_errorCount 0);;
         r <- getRunner;;
         match lastAlarmState r with
         | Some last =>
             if negb (String.eqb last currentState) then
               addStateHistory clock "state_change"
                 [Str last; Lit " → "; Str currentState]
                 [("inWindow", MBool inWindow); ("time", MTime (epochMs now))];;
               logEvent (id (automation r)) "triggered"
                 [Lit "Alarm state changed: "; Str last; Lit " → ";
                  Str currentState; Lit " (Window: ";
                  Lit (if inWindow then "Active" else "Inactive"); Lit ")"]
             else Run.ret tt
         | None => Run.ret tt
         end;;
         onRunner (set_lastAlarmState (Some currentState));;
         let shouldAttemptArm := inWindow && String.eqb currentState "disarmed" in
         r <- getRunner;;
         cooling <-
           match shouldAttemptArm, lastArmAttempt r with
           | true, Some last =>
               let timeSinceLastAttempt := epochMs now - epochMs last in
               let cooldownRemaining := armCooldown r - timeSinceLastAttempt in
               if 0 <? cooldownRemaining then
                 let remainingMinutes := ceilMinutes cooldownRemaining in
                 addStateHistory clock "cooldown"
                   [Lit "Waiting "; Num remainingMinutes;
                    Lit "m before next arm attempt"] [];;
                 Run.ret true
               else Run.ret false
           | _, _ => Run.ret false
           end;;
         if (cooling : bool) then Run.ret None
         else if shouldAttemptArm then
           sendRequest (GetState panel);;
           Run.ret (Some (AwaitingPreArm now))
         else
           addStateHistory clock "no_action"
             (Lit "Not arming: " :: notArmingReasons now inWindow currentState)
             [("inWindow", MBool inWindow); ("alarmState", MStr currentState);
              ("time", MTime (epochMs now)); ("hour", MNum (getHours now))];;
           r <- getRunner;;
           updateAutomationTriggerCount (id (automation r));;
           Run.ret None
     end)
    (fun msg => generalError clock msg;; Run.ret None).

(** [armAlarmWithValidation] from the answer to its pre-arm request to its
    end (l.1019-1126).  The requests that follow are answered by [a] at
    once. *)
Definition armAfterPreArm (clock : Date) (a : ArmAnswers) : M unit :=
  r <- getRunner;;
  Run.try_catch
    (preArmState <- Run.await (preArm a);;
     if negb (String.eqb (state preArmState) "disarmed") then
       addStateHistory clock "abort_arm"
         [Lit "Alarm changed to "; Str (state preArmState); Lit " before arming"] []
     else
       addStateHistory clock "arming" [Lit "Sending alarm_arm_away command"]
         [("time", MTime (epochMs clock)); ("preArmState", MStr (state preArmState))];;
       Run.try_catch
         (callHAService "alarm_arm_away" "alarm_control_panel" panel (armAway a))
         (armFallback clock a);;
       addStateHistory clock "armed" [Lit "Arm command completed"]
         [("time", MTime (epochMs clock))];;
       logEvent (id (automation r)) "action_executed"
         [Lit "Auto-armed alarm during night hours ("; Clock (epochMs clock); Lit ")"];;
       _ <- setTimeout VerifyArm 5000;;
       Run.ret tt)
    (fun msg =>
       let errorDetails :=
         if includes "500" msg then
           String.append msg " - This usually means the alarm panel rejected the command. Check: 1) Alarm is properly configured, 2) All sensors are closed, 3) Alarm panel is ready to arm"
         else msg in
       addStateHistory clock "arm_error" [Lit "Failed to arm: "; Str errorDetails]
         [("time", MTime (epochMs clock))];;
       logEvent (id (automation r)) "error"
         [Lit "Failed to arm alarm: "; Str errorDetails]).

(** [checkAndArm] from the answer to the pre-arm request to its end: the
    rest of the arm sequence, then l.970 and l.993-994. *)
Definition afterPreArm (now clock : Date) (a : ArmAnswers) : M unit :=
  Run.try_catch
    (armAfterPreArm clock a;;
     onRunner (set_lastArmAttempt (Some now));;
     r <- getRunner;;
     updateAutomationTriggerCount (id (automation r)))
    (generalError clock).

(** The parts one after the other, with nothing in between. *)
Definition inOneGo (now : Date) (fetch : Result EntityState) (arm : ArmAnswers)
  : M unit :=
  a <- checkAndArmBegin now;;
  match a with
  | Some (AwaitingPanel now1) =>
      a' <- afterPanel now1 now fetch;;
      match a' with
      | Some (AwaitingPreArm now2) => afterPreArm now2 now arm
      | _ => Run.ret tt
      end
  | _ => Run.ret tt
  end.

(** *** The runner with polls in flight *)
Record State : Type := mkState {
  machine : Machine Runner;
  inFlight : list Awaiting
}.

Inductive Input : Type :=
| Whole (i : AlarmAutoArm.Input)
| Tick (h : positive) (now : Date)
| Reply (k : nat) (clock : Date) (answer : Result EntityState) (arm : ArmAnswers).

Definition suspended (out : Result (option Awaiting) * Machine Runner)
  : list Awaiting :=
  match fst out with
  | Ok (Some a) => [a]
  | _ => []
  end.

Definition step (st : State) (i : Input) : State :=
  match i with
  | Whole i => mkState (AlarmAutoArm.step (machine st) i) (inFlight st)
  | Tick h now =>
      match findTimer h (snd (machine st)) with
      | Some t =>
          match callback t with
          | PollTick =>
              let out := checkAndArmBegin now (machine st) in
              mkState (snd out) (inFlight st ++ suspended out)
          | _ => st
          end
      | None => st
      end
  | Reply k clock answer arm =>
      match nth_error (inFlight st) k with
      | Some (AwaitingPanel now) =>
          let out := afterPanel now clock answer (machine st) in
          mkState (snd out) (removeNth k (inFlight st) ++ suspended out)
      | Some (AwaitingPreArm now) =>
          mkState (Run.exec (afterPreArm now clock arm) (machine st))
            (removeNth k (inFlight st))
      | None => st
      end
  end.

Definition run (st : State) (inputs : list Input) : State :=
  fold_left step inputs st.

Definition initial (a : Automation) : State := mkState (AlarmAutoArm.initial a) [].

End AlarmOverlap.

(** The fields of the edge-triggered runner that, with the automation and
    the limit set by the constructor, no run changes; and a counter that is
    not negative. *)
Definition motionCounts (a : MotionLight.Automation) (r : MotionLight.Runner) : Prop :=
  0 <= MotionLight.errorCount r /\
  MotionLight.maxErrors r = 10 /\
  MotionLight.automation r = a.

Definition alarmCounts (a : AlarmAutoArm.Automation) (r : AlarmAutoArm.Runner) : Prop :=
  0 <= AlarmAutoArm.errorCount r /\
  AlarmAutoArm.maxErrors r = 10 /\
  AlarmAutoArm.armCooldown r = 300000 /\
  AlarmAutoArm.automation r = a.

(** * Properties *)

(** ** Lists: the bounded history *)

Section Bounded.
Context {A : Type}.
Implicit Types (l h : list A) (e : A) (n cap : nat).

Lemma slice_last_length n l :
  List.length (slice_last n l) = Nat.min n (List.length l).
Proof. unfold slice_last. rewrite length_skipn. lia. Qed.

Lemma slice_last_short n l :
  (List.length l <= n)%nat -> slice_last n l = l.
Proof.
  intros H. unfold slice_last.
  replace (List.length l - n)%nat with 0%nat by lia. reflexivity.
Qed.

Lemma pushBounded_slice cap e h :
  pushBounded cap e h = slice_last cap (h ++ [e]).
Proof.
  unfold pushBounded. cbv zeta.
  destruct (Nat.ltb_spec cap (List.length (h ++ [e]))) as [Hlt | Hge].
  - reflexivity.
  - symmetry. apply slice_last_short. exact Hge.
Qed.

Lemma pushBounded_length cap e h :
  (List.length (pushBounded cap e h) <= cap)%nat.
Proof. rewrite pushBounded_slice, slice_last_length. lia. Qed.

(** What is dropped is a prefix of the pushed list, that is, the oldest
    entries. *)
Lemma pushBounded_evicts cap e h :
  exists evicted,
    h ++ [e] = evicted ++ pushBounded cap e h /\
    List.length evicted = (List.length (h ++ [e]) - cap)%nat.
Proof.
  exists (firstn (List.length (h ++ [e]) - cap) (h ++ [e])).
  rewrite pushBounded_slice. unfold slice_last. split.
  - symmetry. apply firstn_skipn.
  - rewrite length_firstn. lia.
Qed.

(** The entry just pushed is the newest one kept, when there is room for
    one entry at all. *)
Lemma pushBounded_newest cap e h :
  (0 < cap)%nat -> exists older, pushBounded cap e h = older ++ [e].
Proof.
  intros Hcap. rewrite pushBounded_slice. unfold slice_last.
  rewrite length_app. cbn [List.length].
  exists (skipn (List.length h + 1 - cap) h).
  rewrite skipn_app.
  replace (List.length h + 1 - cap - List.length h)%nat with 0%nat by lia.
  reflexivity.
Qed.

(** Entries pushed a moment ago survive the next push. *)
Lemma pushBounded_keeps cap e older recent :
  (List.length recent < cap)%nat ->
  exists older', pushBounded cap e (older ++ recent) = older' ++ recent ++ [e].
Proof.
  intros Hlen. rewrite pushBounded_slice. unfold slice_last.
  rewrite <- app_assoc, !length_app. cbn [List.length].
  set (k := (List.length older + (List.length recent + 1) - cap)%nat).
  exists (skipn k older). rewrite skipn_app.
  replace (k - List.length older)%nat with 0%nat by lia.
  reflexivity.
Qed.

Lemma pushBounded_full cap e x h :
  List.length (x :: h) = cap -> pushBounded cap e (x :: h) = h ++ [e].
Proof.
  intros H. rewrite pushBounded_slice. unfold slice_last.
  rewrite length_app. cbn [List.length] in *.
  replace (S (List.length h) + 1 - cap)%nat with 1%nat by lia.
  reflexivity.
Qed.
End Bounded.

Lemma removeTimer_gone h ts :
  existsb (fun t => Pos.eqb (handle t) h) (removeTimer h ts) = false.
Proof.
  unfold removeTimer. induction ts as [| t ts IH]; cbn; trivial.
  destruct (Pos.eqb (handle t) h) eqn:Heq; cbn; trivial.
  rewrite Heq. cbn. exact IH.
Qed.

Lemma pending_removeTimer h ts w :
  timers w = removeTimer h ts -> pending h w = false.
Proof. intros H. unfold pending. rewrite H. apply removeTimer_gone. Qed.

Lemma existsb_filter_false {A} (p q : A -> bool) l :
  existsb p l = false -> existsb p (filter q l) = false.
Proof.
  induction l as [| x l IH]; cbn; trivial.
  intros H. apply orb_false_iff in H as [Hx Hl].
  destruct (q x); cbn; rewrite ?Hx; auto.
Qed.

Lemma clearHandle_keeps_gone h o ts :
  existsb (fun t => Pos.eqb (handle t) h) ts = false ->
  existsb (fun t => Pos.eqb (handle t) h) (clearHandle o ts) = false.
Proof.
  intros H. destruct o as [h' |]; cbn; trivial.
  apply existsb_filter_false, H.
Qed.

Lemma findTimer_not_pending h w :
  pending h w = false -> findTimer h w = None.
Proof.
  unfold pending, findTimer. induction (timers w) as [| t ts IH]; cbn; trivial.
  destruct (Pos.eqb (handle t) h); cbn; [discriminate | exact IH].
Qed.

(** ** Invariants of monadic code *)

Section Preserves.
Context {S : Type}.
Implicit Types P : S -> Prop.

Lemma preserves_ret {A} P (a : A) : preserves P (Run.ret a).
Proof. intros s H. exact H. Qed.

Lemma preserves_throw {A} P e : preserves P (Run.throw (A := A) e).
Proof. intros s H. exact H. Qed.

Lemma preserves_await {A} P (r : Result A) : preserves P (Run.await r).
Proof. intros s H. exact H. Qed.

Lemma preserves_get P : preserves P Run.get.
Proof. intros s H. exact H. Qed.

Lemma preserves_modify P (f : S -> S) :
  (forall s, P s -> P (f s)) -> preserves P (Run.modify f).
Proof. intros Hf s H. apply Hf, H. Qed.

Lemma preserves_bind {A B} P (m : Run.M A) (k : A -> Run.M B) :
  preserves P m -> (forall a, preserves P (k a)) -> preserves P (Run.bind m k).
Proof.
  intros Hm Hk s H. unfold Run.bind.
  specialize (Hm s H). destruct (m s) as [[a | e] s']; cbn in *.
  - apply Hk, Hm.
  - exact Hm.
Qed.

Lemma preserves_try_catch {A} P (m : Run.M A) (h : string -> Run.M A) :
  preserves P m -> (forall e, preserves P (h e)) ->
  preserves P (Run.try_catch m h).
Proof.
  intros Hm Hh s H. unfold Run.try_catch.
  specialize (Hm s H). destruct (m s) as [[a | e] s']; cbn in *.
  - exact Hm.
  - apply Hh, Hm.
Qed.

Lemma preserves_exec {A} P (m : Run.M A) s :
  preserves P m -> P s -> P (Run.exec m s).
Proof. intros Hm H. apply Hm, H. Qed.
End Preserves.

Section PreservesMachine.
Context {R : Type}.
Variable Q : R -> Prop.

Lemma preserves_getRunner : preserves (ofRunner Q) getRunner.
Proof. intros s H. exact H. Qed.

Lemma preserves_getWorld : preserves (ofRunner Q) getWorld.
Proof. intros s H. exact H. Qed.

Lemma preserves_onWorld f : preserves (ofRunner Q) (onWorld f).
Proof. intros s H. exact H. Qed.

Lemma preserves_onRunner f :
  (forall r, Q r -> Q (f r)) -> preserves (ofRunner Q) (onRunner f).
Proof. intros Hf s H. apply Hf, H. Qed.

Lemma preserves_logEvent i t m : preserves (ofRunner Q) (logEvent i t m).
Proof. apply preserves_onWorld. Qed.

Lemma preserves_updateAutomationTriggerCount i :
  preserves (ofRunner Q) (updateAutomationTriggerCount i).
Proof. apply preserves_onWorld. Qed.

Lemma preserves_clearTimer h : preserves (ofRunner Q) (clearTimer h).
Proof. apply preserves_onWorld. Qed.

Lemma preserves_getHAEntityState e r : preserves (ofRunner Q) (getHAEntityState e r).
Proof.
  apply preserves_bind; [apply preserves_onWorld | intros; apply preserves_await].
Qed.

Lemma preserves_callHAService s d e r :
  preserves (ofRunner Q) (callHAService s d e r).
Proof.
  apply preserves_bind; [apply preserves_onWorld | intros; apply preserves_await].
Qed.

Lemma preserves_setTimer c d b : preserves (ofRunner Q) (setTimer c d b).
Proof.
  apply preserves_bind; [apply preserves_getWorld | intros].
  apply preserves_bind; [apply preserves_onWorld | intros; apply preserves_ret].
Qed.
End PreservesMachine.

(** Walks through a method, leaving the runner updates to be justified. *)
Ltac preserve_step :=
  first
    [ apply preserves_ret
    | apply preserves_throw
    | apply preserves_getRunner
    | apply preserves_getWorld
    | apply preserves_logEvent
    | apply preserves_updateAutomationTriggerCount
    | apply preserves_clearTimer
    | apply preserves_getHAEntityState
    | apply preserves_callHAService
    | apply preserves_setTimer
    | apply preserves_bind; [ | intros ]
    | apply preserves_try_catch; [ | intros ]
    | match goal with
      | |- preserves _ (let x := _ in _) => cbv zeta
      | |- preserves _ (if ?b then _ else _) => destruct b
      | |- preserves _ (match ?x with _ => _ end) => destruct x
      end ].

(** ** The history ring stays within its capacity *)

Module MotionHistory.
Import MotionLight MotionSpec.

Lemma motion_addStateHistory_bounded now ms a d :
  preserves (ofRunner bounded) (addStateHistory now ms a d).
Proof.
  apply preserves_onRunner. intros r _.
  unfold bounded. cbn. apply pushBounded_length.
Qed.

(** A field update that leaves [stateHistory] alone. *)
Ltac other_field :=
  apply preserves_onRunner; let r := fresh in let H := fresh in
  intros r H; exact H.

Create HintDb motion_bounded.
#[local] Hint Resolve motion_addStateHistory_bounded : motion_bounded.

(** Methods already treated are used through their lemmas. *)
Ltac walk :=
  repeat first [ solve [ auto 1 with motion_bounded nocore ]
               | other_field | preserve_step ].

Lemma motion_stop_bounded : preserves (ofRunner bounded) stop.
Proof. unfold stop. walk. Qed.
#[local] Hint Resolve motion_stop_bounded : motion_bounded.

Lemma motion_initializeState_bounded now init :
  preserves (ofRunner bounded) (initializeState now init).
Proof. unfold initializeState. walk. Qed.
#[local] Hint Resolve motion_initializeState_bounded : motion_bounded.

Lemma motion_start_bounded now init : preserves (ofRunner bounded) (start now init).
Proof. unfold start, setInterval. walk. Qed.

Lemma countdownCallback_bounded now m l d recheck turnOff :
  preserves (ofRunner bounded) (countdownCallback now m l d recheck turnOff).
Proof. unfold countdownCallback. walk. Qed.

Lemma pollMotion_bounded now m fetch :
  preserves (ofRunner bounded) (pollMotion now m fetch).
Proof. unfold pollMotion. walk. Qed.

Lemma motionDetected_bounded now c l turnOn :
  preserves (ofRunner bounded) (motionDetected now c l turnOn).
Proof. unfold motionDetected. walk. Qed.

Lemma motionStopped_bounded now c m l d :
  preserves (ofRunner bounded) (motionStopped now c m l d).
Proof. unfold motionStopped, setTimeout. walk. Qed.
#[local] Hint Resolve countdownCallback_bounded pollMotion_bounded
  motionDetected_bounded motionStopped_bounded : motion_bounded.

Lemma checkMotionState_bounded now fetch turnOn :
  preserves (ofRunner bounded) (checkMotionState now fetch turnOn).
Proof. unfold checkMotionState. walk. Qed.
#[local] Hint Resolve checkMotionState_bounded : motion_bounded.

Lemma motion_fire_bounded h now answer act :
  preserves (ofRunner bounded) (fire h now answer act).
Proof. unfold fire. walk. Qed.

Lemma motion_step_bounded s i : ofRunner bounded s -> ofRunner bounded (step s i).
Proof.
  intros H. destruct i; cbn [step]; apply preserves_exec; trivial.
  - apply motion_start_bounded.
  - apply motion_stop_bounded.
  - apply motion_fire_bounded.
Qed.

Lemma motion_run_bounded inputs :
  forall s, ofRunner bounded s -> ofRunner bounded (run s inputs).
Proof.
  induction inputs as [| i rest IH]; intros s H; cbn.
  - exact H.
  - apply IH, motion_step_bounded, H.
Qed.

End MotionHistory.

Module AlarmHistory.
Import AlarmAutoArm AlarmSpec.

Lemma alarm_addStateHistory_bounded now a d m :
  preserves (ofRunner bounded) (addStateHistory now a d m).
Proof.
  apply preserves_onRunner. intros r _.
  unfold bounded. cbn. apply pushBounded_length.
Qed.

Lemma addStateHistory_historyOnly r0 now a d m :
  preserves (ofRunner (historyOnly r0)) (addStateHistory now a d m).
Proof.
  apply preserves_onRunner. intros r [h ->]. cbn.
  eexists. reflexivity.
Qed.

Create HintDb alarm_walk.
#[local] Hint Resolve alarm_addStateHistory_bounded addStateHistory_historyOnly : alarm_walk.

Ltac other_field :=
  apply preserves_onRunner; let r := fresh in let H := fresh in
  intros r H; exact H.

Ltac walk :=
  repeat first [ solve [ auto 1 with alarm_walk nocore ]
               | other_field | preserve_step ].

Section Methods.
Variable Q : Runner -> Prop.
Hypothesis addStateHistory_Q :
  forall now a d m, preserves (ofRunner Q) (addStateHistory now a d m).
Hint Resolve addStateHistory_Q : alarm_walk.

Lemma armFallback_keeps now a e : preserves (ofRunner Q) (armFallback now a e).
Proof. unfold armFallback. walk. Qed.
Hint Resolve armFallback_keeps : alarm_walk.

(** The arm sequence and the verification write nothing but history. *)
Lemma armAlarmWithValidation_keeps now a :
  preserves (ofRunner Q) (armAlarmWithValidation now a).
Proof. unfold armAlarmWithValidation, setTimeout. walk. Qed.

Lemma verifyArmStatus_keeps now post :
  preserves (ofRunner Q) (verifyArmStatus now post).
Proof. unfold verifyArmStatus. walk. Qed.
End Methods.

Lemma armAlarmWithValidation_bounded now a :
  preserves (ofRunner bounded) (armAlarmWithValidation now a).
Proof. apply armAlarmWithValidation_keeps. exact alarm_addStateHistory_bounded. Qed.

Lemma verifyArmStatus_bounded now post :
  preserves (ofRunner bounded) (verifyArmStatus now post).
Proof. apply verifyArmStatus_keeps. exact alarm_addStateHistory_bounded. Qed.

Lemma armAlarmWithValidation_historyOnly r0 now a :
  preserves (ofRunner (historyOnly r0)) (armAlarmWithValidation now a).
Proof. apply armAlarmWithValidation_keeps. exact (addStateHistory_historyOnly r0). Qed.

Lemma verifyArmStatus_historyOnly r0 now post :
  preserves (ofRunner (historyOnly r0)) (verifyArmStatus now post).
Proof. apply verifyArmStatus_keeps. exact (addStateHistory_historyOnly r0). Qed.

#[local] Hint Resolve armAlarmWithValidation_bounded verifyArmStatus_bounded
  : alarm_walk.

Lemma alarm_stop_bounded : preserves (ofRunner bounded) stop.
Proof. unfold stop. walk. Qed.
#[local] Hint Resolve alarm_stop_bounded : alarm_walk.

Lemma alarm_initializeState_bounded now init :
  preserves (ofRunner bounded) (initializeState now init).
Proof. unfold initializeState. walk. Qed.

Lemma pollAlarm_bounded now fetch : preserves (ofRunner bounded) (pollAlarm now fetch).
Proof. unfold pollAlarm. walk. Qed.

Lemma checkCooldown_bounded now b : preserves (ofRunner bounded) (checkCooldown now b).
Proof. unfold checkCooldown. walk. Qed.
#[local] Hint Resolve alarm_initializeState_bounded pollAlarm_bounded
  checkCooldown_bounded : alarm_walk.

Lemma checkAndArm_bounded now fetch arm :
  preserves (ofRunner bounded) (checkAndArm now fetch arm).
Proof. unfold checkAndArm. walk. Qed.
#[local] Hint Resolve checkAndArm_bounded : alarm_walk.

Lemma alarm_start_bounded now init fetch arm :
  preserves (ofRunner bounded) (start now init fetch arm).
Proof. unfold start, setInterval. walk. Qed.

Lemma alarm_fire_bounded h now answer arm :
  preserves (ofRunner bounded) (fire h now answer arm).
Proof. unfold fire. walk. Qed.

Lemma alarm_step_bounded s i : ofRunner bounded s -> ofRunner bounded (step s i).
Proof.
  intros H. destruct i; cbn [step]; apply preserves_exec; trivial.
  - apply alarm_start_bounded.
  - apply alarm_stop_bounded.
  - apply alarm_fire_bounded.
Qed.

Lemma alarm_run_bounded inputs :
  forall s, ofRunner bounded s -> ofRunner bounded (run s inputs).
Proof.
  induction inputs as [| i rest IH]; intros s H; cbn.
  - exact H.
  - apply IH, alarm_step_bounded, H.
Qed.

End AlarmHistory.

(** C7.  In every state either runner reaches from its constructor, by any
    sequence of start and stop calls and timer callbacks with any answers from
    the hub, the history holds at most 50 entries (edge-triggered runner) or
    100 entries (scheduled-window runner); and an append keeps a suffix of the
    extended history, so what it drops are exactly the oldest entries beyond
    the capacity. *)
Theorem history_ring_bounded :
  (forall a inputs,
     (List.length (MotionLight.stateHistory
        (fst (MotionLight.run (MotionLight.initial a) inputs))) <= 50)%nat) /\
  (forall a inputs,
     (List.length (AlarmAutoArm.stateHistory
        (fst (AlarmAutoArm.run (AlarmAutoArm.initial a) inputs))) <= 100)%nat) /\
  (forall e h, exists evicted,
     h ++ [e] = evicted ++ MotionLight.pushHistory e h /\
     List.length evicted = (List.length (h ++ [e]) - 50)%nat) /\
  (forall e h, exists evicted,
     h ++ [e] = evicted ++ AlarmAutoArm.pushHistory e h /\
     List.length evicted = (List.length (h ++ [e]) - 100)%nat).
Proof.
  repeat split.
  - intros a inputs. apply (MotionHistory.motion_run_bounded inputs).
    unfold ofRunner, MotionSpec.bounded. cbn. lia.
  - intros a inputs. apply (AlarmHistory.alarm_run_bounded inputs).
    unfold ofRunner, AlarmSpec.bounded. cbn. lia.
  - intros e h. apply pushBounded_evicts.
  - intros e h. apply pushBounded_evicts.
Qed.

(** C3.  The time predicate of the scheduled-window runner, on the minutes
    since midnight [m] of a wall-clock hour and minute, holds exactly when [m]
    lies in [21*60, 24*60) or in [0, 7*60); it holds at 23:59, 00:00 and 06:59
    and fails at 07:00 and 20:59. *)
Theorem arming_window_predicate :
  (forall now : AlarmAutoArm.Date,
     0 <= AlarmAutoArm.getHours now < 24 ->
     0 <= AlarmAutoArm.getMinutes now < 60 ->
     let m := AlarmAutoArm.getHours now * 60 + AlarmAutoArm.getMinutes now in
     AlarmAutoArm.isInArmingWindow now = true <->
     (21 * 60 <= m < 24 * 60 \/ 0 <= m < 7 * 60)) /\
  (forall ms,
     AlarmAutoArm.isInArmingWindow (AlarmAutoArm.mkDate ms 23 59) = true /\
     AlarmAutoArm.isInArmingWindow (AlarmAutoArm.mkDate ms 0 0) = true /\
     AlarmAutoArm.isInArmingWindow (AlarmAutoArm.mkDate ms 6 59) = true /\
     AlarmAutoArm.isInArmingWindow (AlarmAutoArm.mkDate ms 7 0) = false /\
     AlarmAutoArm.isInArmingWindow (AlarmAutoArm.mkDate ms 20 59) = false).
Proof.
  split.
  - intros now Hh Hm m. subst m. unfold AlarmAutoArm.isInArmingWindow.
    cbv zeta. change (7 * 60 <? 21 * 60) with true. cbv iota.
    rewrite orb_true_iff, Z.leb_le, Z.ltb_lt. lia.
  - intros ms. repeat split; reflexivity.
Qed.

Lemma arming_window_predicate_witness :
  AlarmAutoArm.isInArmingWindow (AlarmAutoArm.mkDate 0 23 59) = true <->
  (21 * 60 <= 23 * 60 + 59 < 24 * 60 \/ 0 <= 23 * 60 + 59 < 7 * 60).
Proof.
  apply (proj1 arming_window_predicate (AlarmAutoArm.mkDate 0 23 59)); cbn; lia.
Defined.

(** ** The edge-triggered runner, poll by poll *)

(** Symbolic execution of a callback: the monad and the world operations are
    unfolded, the runner's methods are left to the caller. *)
Ltac unfold_run :=
  cbv [Run.bind Run.ret Run.try_catch Run.throw Run.get Run.modify Run.await
       Run.exec getRunner getWorld onRunner onWorld logEvent sendRequest
       getHAEntityState callHAService setTimer setInterval setTimeout
       clearTimer updateAutomationTriggerCount fst snd].

Module MotionFacts.
Import MotionLight MotionSpec.

(** The runner object is opened into its fields, so that every field access
    computes. *)
Ltac open_runner r :=
  destruct r as [?auto ?running ?interval ?timeout ?last ?light ?history
                 ?errors ?limit ?polled ?successes];
  unfold polling in *; cbn in * |-.

Ltac enter_poll Hp :=
  let Hg := fresh "Hlimit" in
  let Hm := fresh "Hmotion" in
  let Hl := fresh "Hlight" in
  destruct Hp as (Hg & Hm & Hl);
  apply Z.leb_gt in Hg;
  unfold checkMotionState, pollMotion, addStateHistory;
  unfold_run; cbn;
  rewrite Hg, Hm, Hl; cbn.

Lemma poll_same_state r w m l now e turnOn :
  polling r m l -> lastMotionState r = Some (state e) ->
  Run.exec (checkMotionState now (Ok e) turnOn) (r, w)
  = (polledOk now r, addRequests [GetState m] w).
Proof.
  intros Hp Hlast. open_runner r. subst last. enter_poll Hp.
  rewrite String.eqb_refl. reflexivity.
Qed.

Lemma poll_first r w m l now e turnOn :
  polling r m l -> lastMotionState r = None ->
  Run.exec (checkMotionState now (Ok e) turnOn) (r, w)
  = (set_stateHistory
       (pushHistory
          (mkEntry now (state e) "initialized" 0 (consecutiveSuccesses r + 1) None)
          (stateHistory r))
       (set_lastMotionState (Some (state e)) (polledOk now r)),
     addRequests [GetState m] w).
Proof.
  intros Hp Hlast. open_runner r. subst last. enter_poll Hp. reflexivity.
Qed.

Lemma polls_same_state ps :
  forall r w m l st,
    polling r m l -> 0 < maxErrors r -> lastMotionState r = Some st ->
    Forall (fun p => exists e, snd (fst p) = Ok e /\ state e = st) ps ->
    let s' := polls (r, w) ps in
    snd s' = addRequests (repeat (GetState m) (List.length ps)) w /\
    stateHistory (fst s') = stateHistory r /\
    lastMotionState (fst s') = Some st /\
    timeoutId (fst s') = timeoutId r /\
    isRunning (fst s') = isRunning r.
Proof.
  induction ps as [| [[now fetch] turnOn] rest IH];
    intros r w m l st Hp Hmax Hlast Hall; cbn.
  - repeat split; trivial. destruct w; unfold addRequests; cbn.
    rewrite app_nil_r. reflexivity.
  - inversion Hall as [| p ps' (e & Hfetch & Hst) Hrest]; subst.
    cbn in Hfetch. subst fetch.
    rewrite (poll_same_state r w m l now e turnOn Hp Hlast).
    destruct (IH (polledOk now r) (addRequests [GetState m] w) m l (state e))
      as (Hw & Hh & Hl & Ht & Hr); trivial.
    + destruct Hp as (_ & Hm & Hli). repeat split; trivial.
    + unfold polls in *. rewrite Hw. repeat split; trivial.
      unfold addRequests; cbn. rewrite <- app_assoc. reflexivity.
Qed.

Lemma poll_on_off r w m l now e turnOn :
  polling r m l -> lastMotionState r = Some "on" -> state e = "off" ->
  let d := delaySecondsOf (settings (automation r)) in
  let s' := Run.exec (checkMotionState now (Ok e) turnOn) (r, w) in
  fst s' =
    set_lastMotionState (Some "off")
      (set_timeoutId (Some (nextHandle w))
         (set_stateHistory
            (pushHistory
               (entryOf now "off" "countdown_started" (polledOk now r)
                  (Some (DelayData d)))
               (stateHistory r))
            (polledOk now r))) /\
  snd s' =
    {| eventLog := eventLog w ++
         [mkEvent (id (automation r)) "triggered"
            [Lit "Motion stopped - starting "; Num d; Lit "s countdown"]];
       apiCalls := apiCalls w ++ [GetState m];
       triggerCountUpdates := triggerCountUpdates w;
       timers := timers w ++
         [mkTimer (nextHandle w) (TurnOffCountdown m l d) (d * 1000) false];
       nextHandle := Pos.succ (nextHandle w) |}.
Proof.
  intros Hp Hlast He d s'. subst d s'. open_runner r. subst last.
  enter_poll Hp. rewrite He. cbn. split; reflexivity.
Qed.

Lemma poll_off_on r w m l now e turnOn :
  polling r m l -> lastMotionState r = Some "off" -> state e = "on" ->
  Run.exec (checkMotionState now (Ok e) turnOn) (r, w)
  = (set_lastMotionState (Some "on")
       (set_stateHistory (historyAfterMotionDetected now r turnOn)
          (set_timeoutId None (polledOk now r))),
     afterMotionDetected r w m l turnOn).
Proof.
  intros Hp Hlast He. open_runner r. subst last. enter_poll Hp.
  rewrite He. cbn.
  unfold afterMotionDetected, historyAfterMotionDetected.
  destruct timeout as [h |]; destruct turnOn as [[] | msg];
    unfold motionDetected, addStateHistory; unfold_run;
    cbn; rewrite <- app_assoc; reflexivity.
Qed.

Lemma motion_stop_running r w :
  isRunning r = true ->
  Run.exec stop (r, w)
  = (stopped r,
     {| eventLog := eventLog w ++
          [mkEvent (id (automation r)) "stopped" [Lit "Automation stopped"]];
        apiCalls := apiCalls w;
        triggerCountUpdates := triggerCountUpdates w;
        timers := clearHandle (timeoutId r) (clearHandle (pollInterval r) (timers w));
        nextHandle := nextHandle w |}).
Proof.
  intros Hrun. open_runner r. subst running.
  unfold stop. unfold_run. cbn.
  destruct interval as [h |]; destruct timeout as [t |]; reflexivity.
Qed.

(** The poll that finds the error limit reached: one error event, then
    [stop]; no request is sent. *)
Lemma motion_poll_at_limit r w now fetch turnOn :
  maxErrors r <= errorCount r -> isRunning r = true ->
  Run.exec (checkMotionState now fetch turnOn) (r, w)
  = (stopped r,
     {| eventLog := eventLog w ++
          [mkEvent (id (automation r)) "error"
             [Lit "Automation stopped due to "; Num (errorCount r);
              Lit " consecutive errors"];
           mkEvent (id (automation r)) "stopped" [Lit "Automation stopped"]];
        apiCalls := apiCalls w;
        triggerCountUpdates := triggerCountUpdates w;
        timers := clearHandle (timeoutId r) (clearHandle (pollInterval r) (timers w));
        nextHandle := nextHandle w |}).
Proof.
  intros Hlim Hrun. apply Z.leb_le in Hlim.
  unfold checkMotionState. unfold Run.exec, Run.bind at 1, getRunner at 1.
  cbn [fst snd]. rewrite Hlim.
  unfold Run.bind at 1, logEvent, onWorld, Run.modify. cbn [fst snd].
  match goal with
  | |- snd (stop ?s) = _ => change (snd (stop s)) with (Run.exec stop s)
  end.
  rewrite motion_stop_running by exact Hrun. cbn. rewrite <- app_assoc. reflexivity.
Qed.

Lemma motion_poll_failed r w m l now msg turnOn :
  polling r m l ->
  Run.exec (checkMotionState now (Err msg) turnOn) (r, w)
  = (set_stateHistory (pushHistory (failedEntry now msg r) (stateHistory r))
       (set_consecutiveSuccesses 0 (set_errorCount (errorCount r + 1) r)),
     addEvents
       (if (errorCount r + 1 =? 1) || (js_rem (errorCount r + 1) 5 =? 0)
        then [failedEvent msg r] else [])
       (addRequests [GetState m] w)).
Proof.
  intros Hp. enter_poll Hp.
  destruct ((errorCount r + 1 =? 1) || (js_rem (errorCount r + 1) 5 =? 0));
    cbn; unfold addEvents; cbn; rewrite ?app_nil_r; reflexivity.
Qed.

(** What the countdown callback does, for every answer of the hub. *)
Lemma countdown_effect r w m l d now recheck turnOff :
  let s' := Run.exec (countdownCallback now m l d recheck turnOff) (r, w) in
  apiCalls (snd s') =
    apiCalls w ++ GetState m ::
      match recheck with
      | Ok e => if String.eqb (state e) "off"
                then [CallService "turn_off" "light" l] else []
      | Err _ => []
      end /\
  lastMotionState (fst s') =
    match recheck with
    | Ok e => if String.eqb (state e) "off" then lastMotionState r
              else Some (state e)
    | Err _ => lastMotionState r
    end /\
  errorCount (fst s') = errorCount r /\
  isRunning (fst s') = isRunning r /\
  pollInterval (fst s') = pollInterval r /\
  timeoutId (fst s') = None /\
  timers (snd s') = timers w /\
  triggerCountUpdates (snd s') = triggerCountUpdates w.
Proof.
  unfold countdownCallback, addStateHistory. unfold_run.
  destruct recheck as [e | msg]; cbn.
  - destruct (String.eqb (state e) "off"); cbn.
    + destruct turnOff as [[] | msg]; cbn; rewrite <- ?app_assoc;
        repeat split; reflexivity.
    + repeat split; reflexivity.
  - repeat split; reflexivity.
Qed.

(** A poll whose state request succeeds, whatever it then does. *)
Lemma motion_poll_ok_effect r w m l now e turnOn :
  polling r m l ->
  let s' := Run.exec (checkMotionState now (Ok e) turnOn) (r, w) in
  errorCount (fst s') = 0 /\
  isRunning (fst s') = isRunning r /\
  pollInterval (fst s') = pollInterval r /\
  triggerCountUpdates (snd s') =
    triggerCountUpdates w ++
    (if isOffOn (lastMotionState r) (state e) then [id (automation r)] else []).
Proof.
  intros Hp. open_runner r. enter_poll Hp. unfold isOffOn.
  destruct last as [last |]; cbn.
  2: { rewrite app_nil_r. repeat split; reflexivity. }
  destruct (String.eqb_spec last (state e)) as [Heq | Hne]; cbn.
  - subst last.
    destruct (String.eqb_spec (state e) "off") as [Hoff | _]; cbn.
    + rewrite Hoff. cbn. rewrite app_nil_r. repeat split; reflexivity.
    + rewrite app_nil_r. repeat split; reflexivity.
  - destruct (String.eqb last "off" && String.eqb (state e) "on"); cbn.
    + destruct timeout; destruct turnOn as [[] | msg];
        unfold motionDetected, addStateHistory; unfold_run; cbn;
        repeat split; reflexivity.
    + destruct (String.eqb last "on" && String.eqb (state e) "off"); cbn;
        rewrite app_nil_r; repeat split; reflexivity.
Qed.

(** A timer callback runs the poll when its handle is the interval's, and
    nothing when the handle is not in the table. *)
Lemma motion_fire_poll h t s now answer act :
  findTimer h (snd s) = Some t -> callback t = PollTick ->
  Run.exec (fire h now answer act) s = Run.exec (checkMotionState now answer act) s.
Proof.
  intros Hf Hc. unfold fire, Run.exec, Run.bind at 1, getWorld. cbn [fst snd].
  rewrite Hf, Hc. reflexivity.
Qed.

Lemma motion_fire_cleared h s now answer act :
  pending h (snd s) = false -> Run.exec (fire h now answer act) s = s.
Proof.
  intros Hp. apply findTimer_not_pending in Hp.
  unfold fire, Run.exec, Run.bind, getWorld. cbn [fst snd].
  rewrite Hp. reflexivity.
Qed.

Lemma motion_ticks_cleared h ps :
  forall s, pending h (snd s) = false -> run s (ticks h ps) = s.
Proof.
  induction ps as [| p ps IH]; intros s Hp; cbn; trivial.
  rewrite motion_fire_cleared by exact Hp. apply IH, Hp.
Qed.

Lemma motion_failures_count h t fs :
  forall r w m l,
    configured (motion_entity (settings (automation r))) = Some m ->
    configured (light_entity (settings (automation r))) = Some l ->
    errorCount r + Z.of_nat (List.length fs) <= maxErrors r ->
    findTimer h w = Some t -> callback t = PollTick ->
    let s' := run (r, w) (failures h fs) in
    errorCount (fst s') = errorCount r + Z.of_nat (List.length fs) /\
    lastMotionState (fst s') = lastMotionState r /\
    isRunning (fst s') = isRunning r /\
    pollInterval (fst s') = pollInterval r /\
    timeoutId (fst s') = timeoutId r /\
    automation (fst s') = automation r /\
    maxErrors (fst s') = maxErrors r /\
    timers (snd s') = timers w.
Proof.
  induction fs as [| [[now msg] act] fs IH]; intros r w m l Hm Hl Hle Hf Hc; cbn.
  - repeat split; trivial. lia.
  - cbn [List.length] in Hle.
    rewrite (motion_fire_poll h t) by assumption.
    rewrite (motion_poll_failed r w m l) by (repeat split; trivial; lia).
    match goal with
    | |- context [fold_left step _ (?r', ?w')] =>
        destruct (IH r' w' m l) as (He & Hl' & Hr & Hpi & Hto & Ha & Hmx & Ht)
    end.
    + exact Hm.
    + exact Hl.
    + change (errorCount r + 1 + Z.of_nat (List.length fs) <= maxErrors r). lia.
    + exact Hf.
    + exact Hc.
    + unfold run, failures in *. rewrite He, Hl', Hr, Hpi, Hto, Ha, Hmx, Ht. cbn.
      repeat split; trivial. lia.
Qed.

End MotionFacts.

(** ** The edge-triggered runner and its timers *)

Module MotionTimers.
Import MotionLight MotionSpec MotionFacts.

Lemma In_clearHandle o t ts :
  In t (clearHandle o ts) -> In t ts /\ o <> Some (handle t).
Proof.
  destruct o as [h |]; cbn.
  - intros Hin. apply filter_In in Hin as [Hin Hne]. split; trivial.
    intros [= ->]. rewrite Pos.eqb_refl in Hne. discriminate.
  - intros Hin. split; [exact Hin | discriminate].
Qed.

(** What a poll below the error limit does to the timers: nothing; or it
    adopts a new state that calls for no action; or it cancels on off->on;
    or it schedules on on->off. *)
Lemma poll_timer_outcome r w now fetch turnOn :
  errorCount r < maxErrors r ->
  let s' := Run.exec (checkMotionState now fetch turnOn) (r, w) in
  isRunning (fst s') = isRunning r /\
  pollInterval (fst s') = pollInterval r /\
  ((timers (snd s') = timers w /\ timeoutId (fst s') = timeoutId r /\
    lastMotionState (fst s') = lastMotionState r)
   \/
   (exists e, fetch = Ok e /\
      timers (snd s') = timers w /\ timeoutId (fst s') = timeoutId r /\
      lastMotionState (fst s') = Some (state e) /\
      lastMotionState r <> Some (state e) /\
      ~ (lastMotionState r = Some "off" /\ state e = "on"))
   \/
   (lastMotionState r = Some "off" /\
    timers (snd s') = clearHandle (timeoutId r) (timers w) /\
    timeoutId (fst s') = None /\ lastMotionState (fst s') = Some "on")
   \/
   (exists c d,
      lastMotionState r = Some "on" /\
      timers (snd s') = timers w ++ [mkTimer (nextHandle w) c d false] /\
      isCountdown (mkTimer (nextHandle w) c d false) = true /\
      timeoutId (fst s') = Some (nextHandle w) /\
      lastMotionState (fst s') = Some "off")).
Proof.
  intros Hg. apply Z.leb_gt in Hg. open_runner r.
  unfold checkMotionState, pollMotion, addStateHistory. unfold_run. cbn.
  rewrite Hg.
  destruct (configured (motion_entity (settings auto))) as [m |]; cbn;
    [| repeat split; left; repeat split].
  destruct (configured (light_entity (settings auto))) as [l |]; cbn;
    [| repeat split; left; repeat split].
  destruct fetch as [e | msg]; cbn.
  2: { destruct ((errors + 1 =? 1) || (js_rem (errors + 1) 5 =? 0)); cbn;
       repeat split; left; repeat split. }
  destruct last as [last |]; cbn.
  2: { repeat split. right; left. exists e. repeat split; try discriminate.
       intros [Habs _]. discriminate. }
  destruct (String.eqb_spec last (state e)) as [Hsame | Hdiff]; cbn.
  { repeat split; left; repeat split. }
  destruct (String.eqb_spec last "off") as [Hoff | Hnoff];
    destruct (String.eqb_spec (state e) "on") as [Hon | Hnon]; cbn.
  - (* off -> on *)
    subst last.
    destruct timeout; destruct turnOn as [[] | msg];
      unfold motionDetected, addStateHistory; unfold_run; cbn;
      repeat split; right; right; left; repeat split;
      rewrite Hon; reflexivity.
  - destruct (String.eqb_spec last "on") as [Hl | Hl];
      [subst last; discriminate |]. cbn.
    repeat split. right; left. exists e. repeat split.
    + intros [= Heq]. contradiction.
    + intros [_ Habs]. contradiction.
  - destruct (String.eqb_spec last "on") as [Hl | Hl]; cbn.
    + rewrite Hon in Hdiff. contradiction.
    + repeat split. right; left. exists e. repeat split.
      * intros [= Heq]. contradiction.
      * intros [[= Habs] _]. contradiction.
  - destruct (String.eqb_spec last "on") as [Hl | Hl];
      destruct (String.eqb_spec (state e) "off") as [He | He]; cbn.
    + (* on -> off *)
      subst last. repeat split. right; right; right.
      do 2 eexists. repeat split. rewrite He. reflexivity.
    + repeat split. right; left. exists e. repeat split.
      * intros [= Heq]. contradiction.
      * intros [_ Habs]. contradiction.
    + repeat split. right; left. exists e. repeat split.
      * intros [= Heq]. contradiction.
      * intros [_ Habs]. contradiction.
    + repeat split. right; left. exists e. repeat split.
      * intros [= Heq]. contradiction.
      * intros [_ Habs]. contradiction.
Qed.

Lemma findTimer_In h w t :
  findTimer h w = Some t -> In t (timers w) /\ handle t = h.
Proof.
  unfold findTimer. intros Hf. apply find_some in Hf as [Hin Heq].
  split; trivial. now apply Pos.eqb_eq.
Qed.

End MotionTimers.

(** ** Properties of the edge-triggered runner *)

Section EdgeTriggered.
Import MotionLight MotionSpec MotionFacts.

(** C1.  Edge-only firing.  In a sequence of polls of the edge-triggered
    runner that all fetch the state the runner last observed, the only
    requests sent are the state requests themselves: no service is called, no
    timer is set, nothing is logged, the trigger count is not updated and the
    history is left as it was.  And a successful poll that finds
    [lastMotionState] null stores the observed state, sends nothing but its
    state request, sets no timer and updates no trigger count; it notes the
    initialisation in the history. *)
Theorem edge_only_firing :
  (forall r w m l st (ps : list (Z * Result EntityState * Result unit)),
     polling r m l -> 0 < maxErrors r -> lastMotionState r = Some st ->
     Forall (fun p => exists e, snd (fst p) = Ok e /\ state e = st) ps ->
     let s' := polls (r, w) ps in
     apiCalls (snd s') = apiCalls w ++ repeat (GetState m) (List.length ps) /\
     timers (snd s') = timers w /\
     eventLog (snd s') = eventLog w /\
     triggerCountUpdates (snd s') = triggerCountUpdates w /\
     stateHistory (fst s') = stateHistory r /\
     lastMotionState (fst s') = Some st) /\
  (forall r w m l now e turnOn,
     polling r m l -> lastMotionState r = None ->
     let s' := Run.exec (checkMotionState now (Ok e) turnOn) (r, w) in
     lastMotionState (fst s') = Some (state e) /\
     apiCalls (snd s') = apiCalls w ++ [GetState m] /\
     timers (snd s') = timers w /\
     timeoutId (fst s') = timeoutId r /\
     eventLog (snd s') = eventLog w /\
     triggerCountUpdates (snd s') = triggerCountUpdates w /\
     stateHistory (fst s') =
       pushHistory
         (mkEntry now (state e) "initialized" 0 (consecutiveSuccesses r + 1) None)
         (stateHistory r)).
Proof.
  split.
  - intros r w m l st ps Hp Hmax Hlast Hall s'.
    destruct (polls_same_state ps r w m l st Hp Hmax Hlast Hall)
      as (Hw & Hh & Hl & _).
    subst s'. rewrite Hw. cbn. repeat split; trivial.
  - intros r w m l now e turnOn Hp Hlast s'. subst s'.
    rewrite (poll_first r w m l now e turnOn Hp Hlast). cbn.
    repeat split; reflexivity.
Qed.

Lemma edge_only_firing_witness :
  let s := Demo.hallOff in
  let s' := polls s [(750, Demo.hub "off", Ok tt); (1500, Demo.hub "off", Err "busy")] in
  apiCalls (snd s') = apiCalls (snd s) ++ [GetState "m1"; GetState "m1"] /\
  stateHistory (fst s') = stateHistory (fst s).
Proof.
  intros s s'.
  destruct (proj1 edge_only_firing (fst s) (snd s) "m1" "l1" "off"
              [(750, Demo.hub "off", Ok tt); (1500, Demo.hub "off", Err "busy")])
    as (Hcalls & _ & _ & _ & Hhist & _).
  - repeat split; reflexivity.
  - reflexivity.
  - reflexivity.
  - repeat constructor; eexists; split; reflexivity.
  - split; [exact Hcalls | exact Hhist].
Defined.

(** The deferred turn-off, callback by callback.  An on->off poll adds one
    one-shot timer to the table, due after [delay_seconds] seconds (15 when
    the setting is absent, not a number or zero), and keeps its handle in
    [timeoutId].  When the countdown fires it first asks the hub for the
    motion entity again; the turn-off call is then sent exactly when that
    answer is the state "off".  When the answer is any other state, such as
    "on", no turn-off call is sent and [lastMotionState] becomes the state
    just observed.  And an off->on poll that finds a handle in [timeoutId]
    removes that timer from the table, clears the field and writes a
    [countdown_cancelled] history entry. *)
Theorem deferred_turn_off :
  (forall r w m l now e turnOn,
     polling r m l -> lastMotionState r = Some "on" -> state e = "off" ->
     let d := delaySecondsOf (settings (automation r)) in
     let s' := Run.exec (checkMotionState now (Ok e) turnOn) (r, w) in
     timers (snd s') =
       timers w ++ [mkTimer (nextHandle w) (TurnOffCountdown m l d) (d * 1000) false] /\
     timeoutId (fst s') = Some (nextHandle w) /\
     match delay_seconds (settings (automation r)) with
     | Some n => if n =? 0 then d = 15 else d = n
     | None => d = 15
     end) /\
  (forall s m l d now recheck turnOff,
     let s' := Run.exec (countdownCallback now m l d recheck turnOff) s in
     exists sent,
       apiCalls (snd s') = apiCalls (snd s) ++ GetState m :: sent /\
       (sent = [CallService "turn_off" "light" l] \/ sent = []) /\
       (sent = [CallService "turn_off" "light" l] <->
        exists e, recheck = Ok e /\ state e = "off") /\
       (forall e, recheck = Ok e -> state e <> "off" ->
          sent = [] /\ lastMotionState (fst s') = Some (state e))) /\
  (forall r w m l now e turnOn h,
     polling r m l -> lastMotionState r = Some "off" -> state e = "on" ->
     timeoutId r = Some h ->
     let s' := Run.exec (checkMotionState now (Ok e) turnOn) (r, w) in
     pending h (snd s') = false /\
     timeoutId (fst s') = None /\
     exists older newer,
       stateHistory (fst s') =
         older ++
         mkEntry now "on" "countdown_cancelled" 0 (consecutiveSuccesses r + 1) None
         :: newer).
Proof.
  split; [| split].
  - intros r w m l now e turnOn Hp Hlast He d s'.
    destruct (poll_on_off r w m l now e turnOn Hp Hlast He) as [Hr Hw].
    fold d in Hr, Hw. fold s' in Hr, Hw. rewrite Hr, Hw. cbn.
    repeat split. subst d. unfold delaySecondsOf.
    destruct (delay_seconds (settings (automation r))) as [n |]; trivial.
    destruct (n =? 0); reflexivity.
  - intros [r w] m l d now recheck turnOff s'.
    destruct (countdown_effect r w m l d now recheck turnOff)
      as (Hcalls & Hlast & _).
    fold s' in Hcalls, Hlast. cbn [snd].
    destruct recheck as [e | msg].
    + destruct (String.eqb_spec (state e) "off") as [Hoff | Hon].
      * exists [CallService "turn_off" "light" l].
        split; [exact Hcalls | split; [left; reflexivity | split]].
        -- split; [intros _; exists e; split; trivial | reflexivity].
        -- intros e' [= <-] Hne. contradiction.
      * exists []. split; [exact Hcalls | split; [right; reflexivity | split]].
        -- split; [discriminate | intros (e' & [= <-] & Hoff); contradiction].
        -- intros e' [= <-] _. split; [reflexivity | exact Hlast].
    + exists []. split; [exact Hcalls | split; [right; reflexivity | split]].
      * split; [discriminate | intros (e' & Habs & _); discriminate].
      * intros e' Habs. discriminate.
  - intros r w m l now e turnOn h Hp Hlast He Hto s'. subst s'.
    rewrite (poll_off_on r w m l now e turnOn Hp Hlast He). cbn.
    split; [| split; [reflexivity |]].
    + rewrite Hto. apply removeTimer_gone.
    + unfold historyAfterMotionDetected. rewrite Hto. cbv zeta.
      unfold pushHistory.
      destruct (pushBounded_newest 50
                  (entryOf now "on" "motion_detected" (polledOk now r) None)
                  (stateHistory r)) as [o1 H1]; [lia |].
      rewrite H1.
      destruct (pushBounded_keeps 50
                  (entryOf now "on" "countdown_cancelled" (polledOk now r) None)
                  o1 [entryOf now "on" "motion_detected" (polledOk now r) None])
        as [o2 H2]; [cbn; lia |].
      rewrite H2.
      match goal with
      | |- context [pushBounded 50 ?x (o2 ++ ?recent)] =>
          destruct (pushBounded_keeps 50 x o2 recent) as [o3 H3]; [cbn; lia |]
      end.
      rewrite H3. cbn.
      eexists (o3 ++ [_]), [_]. rewrite <- app_assoc. reflexivity.
Qed.

Lemma deferred_turn_off_witness :
  let s := Demo.hallOn in
  let s' := Run.exec (checkMotionState 750 (Demo.hub "off") (Ok tt)) s in
  timers (snd s') =
    timers (snd s) ++ [mkTimer 2 (TurnOffCountdown "m1" "l1" 15) 15000 false] /\
  timeoutId (fst s') = Some 2%positive.
Proof.
  intros s s'.
  destruct (proj1 deferred_turn_off (fst s) (snd s) "m1" "l1" 750
              (mkEntityState "off" "{}") (Ok tt))
    as (Htimers & Hid & _).
  - repeat split; reflexivity.
  - reflexivity.
  - reflexivity.
  - split; [exact Htimers | exact Hid].
Defined.

(** C10.  In the edge-triggered runner a failing service call is caught where
    it is made.  An off->on poll whose turn-on call fails ends with the error
    counter at 0, as it does when the call succeeds, leaves [isRunning] and
    the poll interval as they were, removes no timer but a pending countdown,
    and logs the failure.  A countdown callback whose turn-off call fails
    leaves the error counter, [isRunning], the poll interval and the timer
    table as they were, and logs the failure.  More generally the countdown
    callback never changes the error counter, and a poll whose state request
    succeeds always ends with the counter at 0: only a failed state request
    of a poll raises it. *)
Theorem action_failure_is_local :
  (forall r w m l now e msg,
     polling r m l -> lastMotionState r = Some "off" -> state e = "on" ->
     let s' := Run.exec (checkMotionState now (Ok e) (Err msg)) (r, w) in
     let ok := Run.exec (checkMotionState now (Ok e) (Ok tt)) (r, w) in
     errorCount (fst s') = 0 /\
     errorCount (fst s') = errorCount (fst ok) /\
     isRunning (fst s') = isRunning r /\
     pollInterval (fst s') = pollInterval r /\
     timers (snd s') = clearHandle (timeoutId r) (timers w) /\
     eventLog (snd s') =
       eventLog w ++
       [mkEvent (id (automation r)) "error"
          [Lit "Failed to turn on light: "; Str msg]]) /\
  (forall r w m l d now e msg,
     state e = "off" ->
     let s' := Run.exec (countdownCallback now m l d (Ok e) (Err msg)) (r, w) in
     errorCount (fst s') = errorCount r /\
     isRunning (fst s') = isRunning r /\
     pollInterval (fst s') = pollInterval r /\
     timers (snd s') = timers w /\
     eventLog (snd s') =
       eventLog w ++
       [mkEvent (id (automation r)) "error"
          [Lit "Failed to turn off light: "; Str msg]]) /\
  (forall r w m l d now recheck turnOff,
     let s' := Run.exec (countdownCallback now m l d recheck turnOff) (r, w) in
     errorCount (fst s') = errorCount r /\ isRunning (fst s') = isRunning r) /\
  (forall r w m l now e turnOn,
     polling r m l ->
     let s' := Run.exec (checkMotionState now (Ok e) turnOn) (r, w) in
     errorCount (fst s') = 0 /\ isRunning (fst s') = isRunning r).
Proof.
  split; [| split; [| split]].
  - intros r w m l now e msg Hp Hlast He s' ok. subst s' ok.
    rewrite !(poll_off_on r w m l now e _ Hp Hlast He). cbn.
    repeat split; reflexivity.
  - intros r w m l d now e msg He s'. subst s'.
    unfold countdownCallback, addStateHistory. unfold_run. cbn.
    rewrite He. cbn. repeat split; reflexivity.
  - intros r w m l d now recheck turnOff s'.
    destruct (countdown_effect r w m l d now recheck turnOff)
      as (_ & _ & He & Hr & _).
    split; assumption.
  - intros r w m l now e turnOn Hp s'.
    destruct (motion_poll_ok_effect r w m l now e turnOn Hp) as (He & Hr & _).
    split; assumption.
Qed.

Lemma action_failure_is_local_witness :
  let s := Demo.hallOff in
  let s' := Run.exec (checkMotionState 750 (Demo.hub "on") (Err "HTTP 500")) s in
  errorCount (fst s') = 0 /\ isRunning (fst s') = true.
Proof.
  intros s s'.
  destruct (proj1 action_failure_is_local (fst s) (snd s) "m1" "l1" 750
              (mkEntityState "on" "{}") "HTTP 500")
    as (Hcount & _ & Hrun & _).
  - repeat split; reflexivity.
  - reflexivity.
  - reflexivity.
  - split; [exact Hcount | exact Hrun].
Defined.

End EdgeTriggered.

(** ** The scheduled-window runner, poll by poll *)

Module AlarmFacts.
Import AlarmAutoArm AlarmSpec AlarmHistory.

Ltac open_runner r :=
  destruct r as [?auto ?running ?interval ?last ?history ?errors ?limit
                 ?attempt ?cooldown];
  cbn in * |-.

(** The arm sequence always returns; it first asks the hub for the panel
    again, and of the runner it changes the history only. *)
Lemma arm_effect now a r w :
  exists r' w' sent,
    armAlarmWithValidation now a (r, w) = (Ok tt, (r', w')) /\
    historyOnly r r' /\
    triggerCountUpdates w' = triggerCountUpdates w /\
    apiCalls w' = apiCalls w ++ GetState panel :: sent.
Proof.
  open_runner r.
  unfold armAlarmWithValidation, armFallback, addStateHistory, historyOnly.
  unfold_run. cbn [fst snd].
  destruct (preArm a) as [e | msg]; cbn.
  2: { do 3 eexists. repeat split; try eexists; reflexivity. }
  destruct (String.eqb (state e) "disarmed"); cbn.
  2: { do 3 eexists. repeat split; try eexists; reflexivity. }
  destruct (armAway a) as [[] | msg]; cbn.
  { do 3 eexists. rewrite <- !app_assoc. repeat split; try eexists; reflexivity. }
  destruct (includes "500" msg) eqn:H500; cbn.
  2: { rewrite H500. do 3 eexists. rewrite <- !app_assoc.
       repeat split; try eexists; reflexivity. }
  destruct (alarmDetails a) as [d | dmsg]; destruct (armHome a) as [[] | hmsg];
    cbn; rewrite ?H500; do 3 eexists; rewrite <- !app_assoc;
    repeat split; try eexists; reflexivity.
Qed.

Lemma alarm_stop_running r w :
  isRunning r = true ->
  Run.exec stop (r, w)
  = (stopped r,
     {| eventLog := eventLog w ++
          [mkEvent (id (automation r)) "stopped"
             [Lit "Alarm auto-arm automation stopped"]];
        apiCalls := apiCalls w;
        triggerCountUpdates := triggerCountUpdates w;
        timers := clearHandle (checkInterval r) (timers w);
        nextHandle := nextHandle w |}).
Proof.
  intros Hrun. open_runner r. subst running.
  unfold stop. unfold_run. cbn.
  destruct interval as [h |]; reflexivity.
Qed.

Lemma alarm_poll_at_limit r w now fetch arm :
  maxErrors r <= errorCount r -> isRunning r = true ->
  Run.exec (checkAndArm now fetch arm) (r, w)
  = (stopped r,
     {| eventLog := eventLog w ++
          [mkEvent (id (automation r)) "error"
             [Lit "Automation stopped due to "; Num (errorCount r);
              Lit " consecutive errors"];
           mkEvent (id (automation r)) "stopped"
             [Lit "Alarm auto-arm automation stopped"]];
        apiCalls := apiCalls w;
        triggerCountUpdates := triggerCountUpdates w;
        timers := clearHandle (checkInterval r) (timers w);
        nextHandle := nextHandle w |}).
Proof.
  intros Hlim Hrun. apply Z.leb_le in Hlim.
  unfold checkAndArm. unfold Run.exec, Run.bind at 1, getRunner at 1.
  cbn [fst snd]. rewrite Hlim.
  unfold Run.bind at 1, logEvent, onWorld, Run.modify. cbn [fst snd].
  match goal with
  | |- snd (stop ?s) = _ => change (snd (stop s)) with (Run.exec stop s)
  end.
  rewrite alarm_stop_running by exact Hrun. cbn. rewrite <- app_assoc. reflexivity.
Qed.

Lemma alarm_poll_failed r w now msg arm :
  errorCount r < maxErrors r ->
  Run.exec (checkAndArm now (Err msg) arm) (r, w)
  = (set_stateHistory (pushHistory (failedEntry now msg r) (stateHistory r))
       (set_errorCount (errorCount r + 1) r),
     {| eventLog := eventLog w ++ [failedEvent msg r];
        apiCalls := apiCalls w ++ [GetState panel];
        triggerCountUpdates := triggerCountUpdates w;
        timers := timers w;
        nextHandle := nextHandle w |}).
Proof.
  intros Hg. apply Z.leb_gt in Hg. open_runner r.
  unfold checkAndArm, pollAlarm, addStateHistory. unfold_run. cbn.
  rewrite Hg. reflexivity.
Qed.

Lemma alarm_fire_poll h t s now answer arm :
  findTimer h (snd s) = Some t -> callback t = PollTick ->
  Run.exec (fire h now answer arm) s = Run.exec (checkAndArm now answer arm) s.
Proof.
  intros Hf Hc. unfold fire, Run.exec, Run.bind at 1, getWorld. cbn [fst snd].
  rewrite Hf, Hc. reflexivity.
Qed.

Lemma fire_verify h t s now answer arm :
  findTimer h (snd s) = Some t -> callback t = VerifyArm ->
  Run.exec (fire h now answer arm) s
  = Run.exec (Run.bind (clearTimer h) (fun _ => verifyArmStatus now answer)) s.
Proof.
  intros Hf Hc. unfold fire, Run.exec, Run.bind at 1, getWorld. cbn [fst snd].
  rewrite Hf, Hc. reflexivity.
Qed.

Lemma alarm_fire_cleared h s now answer arm :
  pending h (snd s) = false -> Run.exec (fire h now answer arm) s = s.
Proof.
  intros Hp. apply findTimer_not_pending in Hp.
  unfold fire, Run.exec, Run.bind, getWorld. cbn [fst snd].
  rewrite Hp. reflexivity.
Qed.

Lemma alarm_ticks_cleared h ps :
  forall s, pending h (snd s) = false -> run s (ticks h ps) = s.
Proof.
  induction ps as [| p ps IH]; intros s Hp; cbn; trivial.
  rewrite alarm_fire_cleared by exact Hp. apply IH, Hp.
Qed.

Lemma alarm_failures_count h t fs :
  forall r w,
    errorCount r + Z.of_nat (List.length fs) <= maxErrors r ->
    findTimer h w = Some t -> callback t = PollTick ->
    let s' := run (r, w) (failures h fs) in
    errorCount (fst s') = errorCount r + Z.of_nat (List.length fs) /\
    lastAlarmState (fst s') = lastAlarmState r /\
    isRunning (fst s') = isRunning r /\
    checkInterval (fst s') = checkInterval r /\
    automation (fst s') = automation r /\
    maxErrors (fst s') = maxErrors r /\
    timers (snd s') = timers w.
Proof.
  induction fs as [| [[now msg] arm] fs IH]; intros r w Hle Hf Hc; cbn.
  - repeat split; trivial. lia.
  - cbn [List.length] in Hle.
    rewrite (alarm_fire_poll h t) by assumption.
    rewrite (alarm_poll_failed r w) by lia.
    match goal with
    | |- context [fold_left step _ (?r', ?w')] =>
        destruct (IH r' w') as (He & Hl & Hr & Hpi & Ha & Hmx & Ht)
    end.
    + change (errorCount r + 1 + Z.of_nat (List.length fs) <= maxErrors r). lia.
    + exact Hf.
    + exact Hc.
    + unfold run, failures in *. rewrite He, Hl, Hr, Hpi, Ha, Hmx, Ht. cbn.
      repeat split; trivial. lia.
Qed.

(** A poll whose panel request succeeds.  It resets the error counter and
    stores the state; it enters the arm sequence exactly when the action
    condition holds and no cooldown runs, and then stamps [lastArmAttempt]
    with the instant of the poll; it updates the trigger count unless the
    cooldown cut it short. *)
Lemma alarm_poll_ok_effect r w now e arm :
  errorCount r < maxErrors r ->
  let s' := Run.exec (checkAndArm now (Ok e) arm) (r, w) in
  let arming := shouldAttemptArm now (state e) in
  errorCount (fst s') = 0 /\
  lastAlarmState (fst s') = Some (state e) /\
  isRunning (fst s') = isRunning r /\
  checkInterval (fst s') = checkInterval r /\
  armCooldown (fst s') = armCooldown r /\
  triggerCountUpdates (snd s') =
    triggerCountUpdates w ++
    (if arming && cooling r now then [] else [id (automation r)]) /\
  lastArmAttempt (fst s') =
    (if arming && negb (cooling r now) then Some now else lastArmAttempt r) /\
  (if arming && negb (cooling r now)
   then exists sent,
          apiCalls (snd s') = apiCalls w ++ GetState panel :: GetState panel :: sent
   else apiCalls (snd s') = apiCalls w ++ [GetState panel]).
Proof.
  intros Hg. apply Z.leb_gt in Hg. open_runner r.
  unfold checkAndArm, pollAlarm, checkCooldown, addStateHistory.
  unfold shouldAttemptArm, cooling.
  unfold_run. cbn -[isInArmingWindow armAlarmWithValidation]. rewrite Hg.
  destruct (isInArmingWindow now); destruct (String.eqb (state e) "disarmed");
    cbn -[armAlarmWithValidation];
    (destruct last as [last |];
     [destruct (String.eqb last (state e)) |]);
    cbn -[armAlarmWithValidation]; rewrite ?app_nil_r;
    try (repeat split; reflexivity).
  all: destruct attempt as [t |];
    [match goal with |- context [0 <? ?x] => destruct (0 <? x) end |];
    cbn -[armAlarmWithValidation]; rewrite ?app_nil_r;
    try (repeat split; reflexivity).
  all: match goal with
       | |- context [armAlarmWithValidation ?n ?a (?r1, ?w1)] =>
           destruct (arm_effect n a r1 w1)
             as (r' & w' & sent & -> & [h ->] & Htrig & Hcalls)
       end; cbn; rewrite ?Htrig, ?Hcalls; cbn;
       repeat split; try reflexivity;
       eexists; rewrite <- app_assoc; reflexivity.
Qed.


Lemma poll_arm_decision r w now fetch arm :
  armDecision now 1 r w (Run.exec (checkAndArm now fetch arm) (r, w)).
Proof.
  destruct (Z.leb_spec (maxErrors r) (errorCount r)) as [Hlim | Hg].
  - (* the error limit is reached: nothing is sent *)
    apply Z.leb_le in Hlim. open_runner r.
    unfold checkAndArm, stop. unfold_run. cbn. rewrite Hlim.
    split; [destruct running, interval; reflexivity |].
    left. exists []. rewrite app_nil_r.
    destruct running, interval; cbn; repeat split; trivial; lia.
  - destruct fetch as [e | msg].
    + destruct (alarm_poll_ok_effect r w now e arm Hg)
        as (_ & _ & _ & _ & Hcd & _ & Hlast & Hcalls).
      split; [exact Hcd |].
      destruct (shouldAttemptArm now (state e) && negb (cooling r now)) eqn:Harm.
      * right. destruct Hcalls as [sent Hcalls].
        exists (GetState panel :: GetState panel :: sent).
        repeat split; trivial; [cbn; lia |].
        apply andb_prop in Harm as [_ Hc]. now apply negb_true_iff in Hc.
      * left. exists [GetState panel]. repeat split; trivial.
    + rewrite (alarm_poll_failed r w now msg arm Hg). split; [reflexivity |].
      left. exists [GetState panel]. repeat split; trivial.
Qed.

(** The verification callback sends one request and writes history. *)
Lemma verify_effect h now post r w :
  let s' := Run.exec (Run.bind (clearTimer h) (fun _ => verifyArmStatus now post))
              (r, w) in
  apiCalls (snd s') = apiCalls w ++ [GetState panel] /\
  historyOnly r (fst s').
Proof.
  open_runner r. unfold verifyArmStatus, addStateHistory, historyOnly.
  unfold_run. cbn.
  destruct post as [e | msg]; cbn.
  - destruct (String.eqb (state e) "armed_away" || String.eqb (state e) "armed_home");
      [| destruct (String.eqb (state e) "pending")];
      cbn; split; try eexists; reflexivity.
  - split; try eexists; reflexivity.
Qed.

Lemma fire_arm_decision h now answer arm r w :
  armDecision now 1 r w (Run.exec (fire h now answer arm) (r, w)).
Proof.
  destruct (findTimer h w) as [t |] eqn:Hf.
  - destruct (callback t) eqn:Hc.
    + rewrite (alarm_fire_poll h t) by assumption. apply poll_arm_decision.
    + unfold fire, Run.exec, Run.bind, getWorld. cbn [fst snd].
      rewrite Hf, Hc. cbn. split; [reflexivity |].
      left. exists []. rewrite app_nil_r. repeat split; trivial. cbn. lia.
    + rewrite (fire_verify h t) by assumption.
      destruct (verify_effect h now answer r w) as (Hcalls & hist & Hr).
      unfold armDecision. rewrite Hr. split; [reflexivity |].
      left. exists [GetState panel]. repeat split; trivial.
  - unfold fire, Run.exec, Run.bind, getWorld. cbn [fst snd]. rewrite Hf. cbn.
    split; [reflexivity |].
    left. exists []. rewrite app_nil_r. repeat split; trivial. cbn. lia.
Qed.

Lemma start_arm_decision now init fetch arm r w :
  armDecision now 2 r w (Run.exec (start now init fetch arm) (r, w)).
Proof.
  open_runner r. unfold armDecision, cooling.
  unfold start, initializeState, addStateHistory. unfold_run.
  destruct running; cbn -[checkAndArm].
  { split; [reflexivity |]. left. exists []. rewrite app_nil_r.
    repeat split; trivial. cbn. lia. }
  destruct init as [e | msg]; cbn -[checkAndArm].
  all: match goal with
       | |- context [checkAndArm ?n ?f ?a (?r2, ?w2)] =>
           pose proof (poll_arm_decision r2 w2 n f a) as Hd;
           unfold Run.exec, armDecision, cooling in Hd;
           destruct (checkAndArm n f a (r2, w2)) as [[[] | err] [r3 w3]]
       end; cbn in Hd |- *; destruct Hd as [Hcd Hd]; (split; [exact Hcd |]);
       destruct Hd as [(sent & Hcalls & Hlen & Hlast) | (sent & Hcalls & Hlen & Hlast & Hcool)];
       [ left | right | left | right ];
       exists (GetState panel :: sent); rewrite Hcalls, <- app_assoc;
       repeat split; trivial; cbn; lia.
Qed.

Lemma armDecision_armedAt now own r w s' :
  armDecision now own r w s' ->
  armCooldown (fst s') = armCooldown r /\
  if (own <? requestsSent (r, w) s')%nat
  then lastArmAttempt (fst s') = Some now /\ cooling r now = false
  else lastArmAttempt (fst s') = lastArmAttempt r.
Proof.
  intros [Hcd Hd]. split; [exact Hcd |]. unfold requestsSent. cbn [fst snd].
  destruct Hd as [(sent & Hcalls & Hlen & Hlast) | (sent & Hcalls & Hlen & Hlast & Hcool)];
    rewrite Hcalls, length_app;
    replace (List.length (apiCalls w) + List.length sent - List.length (apiCalls w))%nat
      with (List.length sent) by lia.
  - destruct (Nat.ltb_spec own (List.length sent)); [lia | exact Hlast].
  - destruct (Nat.ltb_spec own (List.length sent)); [split; assumption | lia].
Qed.

Lemma armedAt_spec s i :
  armCooldown (fst (step s i)) = armCooldown (fst s) /\
  match armedAt s i with
  | Some now =>
      lastArmAttempt (fst (step s i)) = Some now /\ cooling (fst s) now = false
  | None => lastArmAttempt (fst (step s i)) = lastArmAttempt (fst s)
  end.
Proof.
  destruct s as [r w]. destruct i as [now init fetch arm | | h now answer arm];
    unfold armedAt; cbn [step fst snd].
  - destruct (armDecision_armedAt now 2 r w _ (start_arm_decision now init fetch arm r w))
      as [Hcd Hd].
    split; [exact Hcd |].
    destruct (2 <? requestsSent (r, w) (Run.exec (start now init fetch arm) (r, w)))%nat;
      exact Hd.
  - open_runner r. unfold stop. unfold_run. cbn.
    destruct running, interval; split; reflexivity.
  - destruct (armDecision_armedAt now 1 r w _ (fire_arm_decision h now answer arm r w))
      as [Hcd Hd].
    split; [exact Hcd |].
    destruct (1 <? requestsSent (r, w) (Run.exec (fire h now answer arm) (r, w)))%nat;
      exact Hd.
Qed.

(** Arm sequences are at least one cooldown apart, from any state on. *)
Lemma armTimes_spaced inputs :
  forall s,
    0 <= armCooldown (fst s) ->
    (forall last, lastArmAttempt (fst s) = Some last ->
       Forall (fun t => armCooldown (fst s) <= epochMs t - epochMs last)
         (armTimes s inputs)) /\
    spaced (armCooldown (fst s)) (armTimes s inputs).
Proof.
  induction inputs as [| i rest IH]; intros s Hpos; cbn [armTimes].
  - split; [intros; constructor | exact I].
  - destruct (armedAt_spec s i) as [Hcd Hstep].
    specialize (IH (step s i)). rewrite Hcd in IH.
    destruct (IH Hpos) as [Hafter Hspaced].
    destruct (armedAt s i) as [now |]; cbn [app].
    + destruct Hstep as [Hlast Hcool].
      specialize (Hafter now Hlast).
      split; [| split; assumption].
      intros last Hprev. unfold cooling in Hcool. rewrite Hprev in Hcool.
      apply Z.ltb_ge in Hcool.
      constructor; [lia |].
      eapply Forall_impl; [| exact Hafter]. cbn. intros t Ht. lia.
    + rewrite Hstep in Hafter. split; assumption.
Qed.

End AlarmFacts.

(** ** Properties of both runners *)

(** C8, as the code has it.  In the edge-triggered runner a poll whose state
    request fails always writes a [motion_state_error] history entry, and
    writes an error event only when the error counter it has just raised is 1
    or a multiple of 5.  In the scheduled-window runner a poll whose panel
    request fails writes a [fetch_error] history entry and an error event,
    every time. *)
Theorem error_logging :
  (forall r w m l now msg turnOn,
     MotionSpec.polling r m l ->
     let s' := Run.exec (MotionLight.checkMotionState now (Err msg) turnOn) (r, w) in
     let n := MotionLight.errorCount r + 1 in
     MotionLight.stateHistory (fst s') =
       MotionLight.pushHistory
         (MotionLight.mkEntry now "error" "motion_state_error" n 0
            (Some (MotionLight.ErrorCountData msg n)))
         (MotionLight.stateHistory r) /\
     eventLog (snd s') =
       eventLog w ++
       (if (n =? 1) || (Z.rem n 5 =? 0)
        then [mkEvent (MotionLight.id (MotionLight.automation r)) "error"
                [Lit "Failed to get motion state ("; Num n; Lit "/";
                 Num (MotionLight.maxErrors r); Lit "): "; Str msg]]
        else [])) /\
  (forall r w now msg arm,
     AlarmAutoArm.errorCount r < AlarmAutoArm.maxErrors r ->
     let s' := Run.exec (AlarmAutoArm.checkAndArm now (Err msg) arm) (r, w) in
     AlarmAutoArm.stateHistory (fst s') =
       AlarmAutoArm.pushHistory
         (AlarmAutoArm.mkEntry (AlarmAutoArm.epochMs now) "fetch_error"
            [Lit "Failed to get alarm state: "; Str msg]
            (AlarmAutoArm.lastAlarmState r) (AlarmAutoArm.isInArmingWindow now)
            [("errorCount", AlarmAutoArm.MNum (AlarmAutoArm.errorCount r + 1));
             ("time", AlarmAutoArm.MTime (AlarmAutoArm.epochMs now))])
         (AlarmAutoArm.stateHistory r) /\
     eventLog (snd s') =
       eventLog w ++
       [mkEvent (AlarmAutoArm.id (AlarmAutoArm.automation r)) "error"
          [Lit "Failed to get alarm state: "; Str msg]]).
Proof.
  split.
  - intros r w m l now msg turnOn Hp s' n. subst s' n.
    rewrite (MotionFacts.motion_poll_failed r w m l now msg turnOn Hp).
    split; reflexivity.
  - intros r w now msg arm Hg s'. subst s'.
    rewrite (AlarmFacts.alarm_poll_failed r w now msg arm Hg).
    split; reflexivity.
Qed.

Lemma error_logging_witness :
  let s' := Run.exec (MotionLight.checkMotionState 750 (Err "timeout") (Ok tt))
              Demo.hallOff in
  eventLog (snd s') =
    eventLog (snd Demo.hallOff) ++
    [mkEvent "a1" "error"
       [Lit "Failed to get motion state ("; Num 1; Lit "/"; Num 10; Lit "): ";
        Str "timeout"]].
Proof.
  intros s'.
  destruct (proj1 error_logging (fst Demo.hallOff) (snd Demo.hallOff) "m1" "l1"
              750 "timeout" (Ok tt)) as (_ & Hlog).
  - repeat split; reflexivity.
  - exact Hlog.
Defined.

(** C8 as stated fails on the scheduled-window runner: the second failure of a
    run of identical failures is logged like the first. *)
Lemma error_logging_counterexample :
  let failing := AlarmAutoArm.Fire 1 Demo.at_12_00 (Err "timeout") Demo.armsFine in
  let s1 := AlarmAutoArm.run Demo.alarmIdle [failing] in
  let s2 := AlarmAutoArm.run s1 [failing] in
  AlarmAutoArm.errorCount (fst s1) = 1 /\
  AlarmAutoArm.errorCount (fst s2) = 2 /\
  eventLog (snd s2) =
    eventLog (snd s1) ++
    [mkEvent "a2" "error" [Lit "Failed to get alarm state: "; Str "timeout"]].
Proof. vm_compute. repeat split; reflexivity. Qed.

(** C9, as the code has it.  In the edge-triggered runner a poll updates the
    trigger count, once, exactly when it takes the sensor from "off" to "on",
    whether the turn-on call succeeds or fails; an on->off poll, any other
    change, an unchanged state and a failed poll update nothing.  In the
    scheduled-window runner a poll whose panel request succeeds updates the
    trigger count once, whether or not the state changed, unless the cooldown
    cuts the poll short; a failed poll updates nothing. *)
Theorem trigger_count_updates :
  (forall r w m l now e turnOn,
     MotionSpec.polling r m l ->
     let s' := Run.exec (MotionLight.checkMotionState now (Ok e) turnOn) (r, w) in
     triggerCountUpdates (snd s') =
       triggerCountUpdates w ++
       match MotionLight.lastMotionState r with
       | Some last =>
           if String.eqb last "off" && String.eqb (state e) "on"
           then [MotionLight.id (MotionLight.automation r)] else []
       | None => []
       end) /\
  (forall r w m l now msg turnOn,
     MotionSpec.polling r m l ->
     let s' := Run.exec (MotionLight.checkMotionState now (Err msg) turnOn) (r, w) in
     triggerCountUpdates (snd s') = triggerCountUpdates w) /\
  (forall r w now e arm,
     AlarmAutoArm.errorCount r < AlarmAutoArm.maxErrors r ->
     let s' := Run.exec (AlarmAutoArm.checkAndArm now (Ok e) arm) (r, w) in
     triggerCountUpdates (snd s') =
       triggerCountUpdates w ++
       (if AlarmSpec.shouldAttemptArm now (state e) && AlarmSpec.cooling r now
        then [] else [AlarmAutoArm.id (AlarmAutoArm.automation r)])) /\
  (forall r w now msg arm,
     AlarmAutoArm.errorCount r < AlarmAutoArm.maxErrors r ->
     let s' := Run.exec (AlarmAutoArm.checkAndArm now (Err msg) arm) (r, w) in
     triggerCountUpdates (snd s') = triggerCountUpdates w).
Proof.
  split; [| split; [| split]].
  - intros r w m l now e turnOn Hp s'.
    destruct (MotionFacts.motion_poll_ok_effect r w m l now e turnOn Hp)
      as (_ & _ & _ & Htrig).
    fold s' in Htrig. rewrite Htrig. unfold MotionSpec.isOffOn.
    destruct (MotionLight.lastMotionState r); reflexivity.
  - intros r w m l now msg turnOn Hp s'. subst s'.
    rewrite (MotionFacts.motion_poll_failed r w m l now msg turnOn Hp). reflexivity.
  - intros r w now e arm Hg s'.
    destruct (AlarmFacts.alarm_poll_ok_effect r w now e arm Hg)
      as (_ & _ & _ & _ & _ & Htrig & _).
    exact Htrig.
  - intros r w now msg arm Hg s'. subst s'.
    rewrite (AlarmFacts.alarm_poll_failed r w now msg arm Hg). reflexivity.
Qed.

Lemma trigger_count_updates_witness :
  let s' := Run.exec (MotionLight.checkMotionState 750 (Demo.hub "on") (Ok tt))
              Demo.hallOff in
  triggerCountUpdates (snd s') = triggerCountUpdates (snd Demo.hallOff) ++ ["a1"].
Proof.
  intros s'.
  apply (proj1 trigger_count_updates (fst Demo.hallOff) (snd Demo.hallOff)
           "m1" "l1" 750 (mkEntityState "on" "{}") (Ok tt)).
  repeat split; reflexivity.
Defined.

(** C9 as stated fails both ways: an on->off transition of the edge-triggered
    runner updates no trigger count, and a poll of the scheduled-window runner
    that sees no change updates it. *)
Lemma trigger_count_updates_counterexample :
  (let s := Demo.hallOn in
   let s' := Run.exec (MotionLight.checkMotionState 750 (Demo.hub "off") (Ok tt)) s in
   MotionLight.lastMotionState (fst s) = Some "on" /\
   MotionLight.lastMotionState (fst s') = Some "off" /\
   triggerCountUpdates (snd s') = triggerCountUpdates (snd s)) /\
  (let s := Demo.alarmIdle in
   let s' := Run.exec (AlarmAutoArm.checkAndArm Demo.at_12_00
                         (Demo.hub "armed_away") Demo.armsFine) s in
   AlarmAutoArm.lastAlarmState (fst s) = Some "armed_away" /\
   AlarmAutoArm.lastAlarmState (fst s') = Some "armed_away" /\
   triggerCountUpdates (snd s') = triggerCountUpdates (snd s) ++ ["a2"]).
Proof. vm_compute. repeat split; reflexivity. Qed.

(** C6, as the code has it.  [stop] on a running runner clears [isRunning] and
    takes out of the timer table the timers whose handles the runner holds:
    the poll interval, and for the edge-triggered runner the countdown kept
    in [timeoutId].  The scheduled-window runner keeps no handle of its
    verification timer: its [stop] removes the poll interval and nothing
    else, so a pending verification survives the stop.  [stop] on a runner
    that is not running changes nothing. *)
Theorem stop_clears_held_timers :
  (forall r w,
     MotionLight.isRunning r = true ->
     let s' := Run.exec MotionLight.stop (r, w) in
     MotionLight.isRunning (fst s') = false /\
     MotionLight.pollInterval (fst s') = None /\
     MotionLight.timeoutId (fst s') = None /\
     (forall h,
        MotionLight.pollInterval r = Some h \/ MotionLight.timeoutId r = Some h ->
        pending h (snd s') = false)) /\
  (forall r w,
     AlarmAutoArm.isRunning r = true ->
     let s' := Run.exec AlarmAutoArm.stop (r, w) in
     AlarmAutoArm.isRunning (fst s') = false /\
     AlarmAutoArm.checkInterval (fst s') = None /\
     timers (snd s') = clearHandle (AlarmAutoArm.checkInterval r) (timers w) /\
     (forall h, AlarmAutoArm.checkInterval r = Some h -> pending h (snd s') = false) /\
     (forall t,
        In t (timers w) -> callback t = VerifyArm ->
        AlarmAutoArm.checkInterval r <> Some (handle t) ->
        In t (timers (snd s')))) /\
  (forall r w,
     MotionLight.isRunning r = false -> Run.exec MotionLight.stop (r, w) = (r, w)) /\
  (forall r w,
     AlarmAutoArm.isRunning r = false -> Run.exec AlarmAutoArm.stop (r, w) = (r, w)).
Proof.
  split; [| split; [| split]].
  - intros r w Hrun s'. subst s'. rewrite (MotionFacts.motion_stop_running r w Hrun).
    cbn. repeat split; trivial.
    intros h [Hh | Hh]; unfold pending; cbn; rewrite Hh.
    + apply clearHandle_keeps_gone, removeTimer_gone.
    + apply removeTimer_gone.
  - intros r w Hrun s'. subst s'. rewrite (AlarmFacts.alarm_stop_running r w Hrun).
    cbn. repeat split; trivial.
    + intros h Hh. unfold pending. cbn. rewrite Hh. apply removeTimer_gone.
    + intros t Hin _ Hne.
      destruct (AlarmAutoArm.checkInterval r) as [h |]; cbn; trivial.
      apply filter_In. split; trivial.
      destruct (Pos.eqb_spec (handle t) h) as [Heq | _]; trivial.
      contradiction Hne. rewrite Heq. reflexivity.
  - intros r w Hrun. unfold MotionLight.stop. unfold_run. cbn.
    rewrite Hrun. reflexivity.
  - intros r w Hrun. unfold AlarmAutoArm.stop. unfold_run. cbn.
    rewrite Hrun. reflexivity.
Qed.

Lemma stop_clears_held_timers_witness :
  let s' := Run.exec MotionLight.stop Demo.hallCounting in
  MotionLight.isRunning (fst s') = false /\
  pending 1 (snd s') = false /\ pending 2 (snd s') = false.
Proof.
  intros s'.
  destruct (proj1 stop_clears_held_timers (fst Demo.hallCounting)
              (snd Demo.hallCounting)) as (Hrun & _ & _ & Hgone).
  - reflexivity.
  - split; [exact Hrun |]. split; apply Hgone; [left | right]; reflexivity.
Defined.

(** C6 as stated fails on the scheduled-window runner: after an arm at 21:05
    the verification timer is in the table, [stop] leaves it there, and when
    it fires after the stop it asks the hub for the panel and writes to the
    history. *)
Lemma stop_clears_held_timers_counterexample :
  let s := AlarmAutoArm.run Demo.alarmArmed [AlarmAutoArm.CallStop] in
  let s' := AlarmAutoArm.run s
              [AlarmAutoArm.Fire 2 Demo.at_21_06 (Demo.hub "armed_away")
                 Demo.armsFine] in
  AlarmAutoArm.isRunning (fst s) = false /\
  timers (snd s) = [mkTimer 2 VerifyArm 5000 false] /\
  apiCalls (snd s') = apiCalls (snd s) ++ [GetState AlarmAutoArm.panel] /\
  map AlarmAutoArm.action (AlarmAutoArm.stateHistory (fst s')) =
    map AlarmAutoArm.action (AlarmAutoArm.stateHistory (fst s)) ++ ["verify_success"].
Proof. vm_compute. repeat split; reflexivity. Qed.

(** ** Two runs, end to end *)

(** Sensor "off", then "on", then "off", and the countdown firing with the
    sensor still "off": the light is turned on, then off, and the history
    reads in order. *)
Example scenario_off_on_off :
  let s := MotionLight.run Demo.hallOff
             [MotionLight.Fire 1 750 (Demo.hub "on") (Ok tt);
              MotionLight.Fire 1 1500 (Demo.hub "off") (Ok tt);
              MotionLight.Fire 2 16500 (Demo.hub "off") (Ok tt)] in
  filter (fun c => match c with CallService _ _ _ => true | GetState _ => false end)
    (apiCalls (snd s))
  = [CallService "turn_on" "light" "l1"; CallService "turn_off" "light" "l1"] /\
  map MotionLight.action (MotionLight.stateHistory (fst s))
  = ["initialized"; "motion_detected"; "light_turned_on"; "countdown_started";
     "light_turned_off"].
Proof. vm_compute. split; reflexivity. Qed.

(** Panel disarmed at 21:05: one arm attempt; the poll at 21:06 finds it
    armed, records the change and does nothing more. *)
Example scenario_arm_then_armed :
  let s := AlarmAutoArm.run Demo.alarmArmed
             [AlarmAutoArm.Fire 1 Demo.at_21_06 (Demo.hub "armed_away") Demo.armsFine] in
  filter (fun c => match c with CallService _ _ _ => true | GetState _ => false end)
    (apiCalls (snd s))
  = [CallService "alarm_arm_away" "alarm_control_panel" AlarmAutoArm.panel] /\
  map AlarmAutoArm.action (AlarmAutoArm.stateHistory (fst s))
  = ["initialized"; "arming"; "armed"; "state_change"; "no_action"].
Proof. vm_compute. split; reflexivity. Qed.

(** A sensor that drops to "unavailable" between two on->off changes: the
    second countdown takes the place of the first in [timeoutId] while the
    first is still in the table, and [stop] clears the second only. *)
Example overwritten_countdown_handle :
  let s := MotionLight.run Demo.hallCounting
             [MotionLight.Fire 1 1500 (Demo.hub "unavailable") (Ok tt);
              MotionLight.Fire 1 2250 (Demo.hub "on") (Ok tt);
              MotionLight.Fire 1 3000 (Demo.hub "off") (Ok tt)] in
  map handle (timers (snd s)) = [1; 2; 3]%positive /\
  MotionLight.timeoutId (fst s) = Some 3%positive /\
  map handle (timers (snd (MotionLight.run s [MotionLight.CallStop]))) = [2%positive].
Proof. vm_compute. repeat split; reflexivity. Qed.

(** * Further properties *)

(** ** The display components *)

Lemma firstn_le_length {A} n (l : list A) : (List.length (firstn n l) <= n)%nat.
Proof. rewrite length_firstn. lia. Qed.

(** The list of debug messages never grows past its cap: 50 in the alarm
    component, 10 in the motion-light component, whatever messages are added
    to whatever list.  In both components the message just added is the
    first one, and it is followed by the 49 (or 9) newest of the earlier
    messages in their order; after [n] additions to an empty list the list
    holds [min 50 n] (or [min 10 n]) messages.  The motion-light component
    adds nothing once it is unmounted. *)
Theorem debug_messages_capped :
  (forall timestamp message prev,
     let next := AlarmAutoArmDisplay.addDebugMessage timestamp message prev in
     (List.length next <= 50)%nat /\
     next = DebugMessage.mk timestamp message :: firstn 49 prev /\
     ((List.length prev < 50)%nat ->
      next = DebugMessage.mk timestamp message :: prev)) /\
  (forall timestamp message prev,
     let next := MotionLightDisplay.addDebugMessage true timestamp message prev in
     (List.length next <= 10)%nat /\
     next = DebugMessage.mk timestamp message :: firstn 9 prev /\
     ((List.length prev < 10)%nat ->
      next = DebugMessage.mk timestamp message :: prev)) /\
  (forall timestamp message prev,
     MotionLightDisplay.addDebugMessage false timestamp message prev = prev) /\
  (forall msgs : list (Z * Template),
     (List.length
        (fold_left (fun l m => AlarmAutoArmDisplay.addDebugMessage (fst m) (snd m) l)
           msgs [])
      = Nat.min 50 (List.length msgs))%nat) /\
  (forall msgs : list (Z * Template),
     (List.length
        (fold_left
           (fun l m => MotionLightDisplay.addDebugMessage true (fst m) (snd m) l)
           msgs [])
      = Nat.min 10 (List.length msgs))%nat).
Proof.
  split; [| split; [| split; [| split]]].
  - intros t m prev next. subst next. unfold AlarmAutoArmDisplay.addDebugMessage.
    cbn [List.length]. split; [| split].
    + pose proof (firstn_le_length 49 prev). lia.
    + reflexivity.
    + intros Hlen. rewrite firstn_all2 by lia. reflexivity.
  - intros t m prev next. subst next. unfold MotionLightDisplay.addDebugMessage.
    cbn [negb List.length]. split; [| split].
    + pose proof (firstn_le_length 9 prev). lia.
    + reflexivity.
    + intros Hlen. rewrite firstn_all2 by lia. reflexivity.
  - reflexivity.
  - intros msgs.
    assert (H : forall l,
              (List.length l <= 50)%nat ->
              List.length
                (fold_left
                   (fun l m => AlarmAutoArmDisplay.addDebugMessage (fst m) (snd m) l)
                   msgs l)
              = Nat.min 50 (List.length l + List.length msgs)).
    { induction msgs as [| m msgs IH]; intros l Hl; cbn [fold_left List.length].
      - lia.
      - rewrite IH; unfold AlarmAutoArmDisplay.addDebugMessage;
          cbn [List.length]; rewrite length_firstn; lia. }
    rewrite H by (cbn; lia). reflexivity.
  - intros msgs.
    assert (H : forall l,
              (List.length l <= 10)%nat ->
              List.length
                (fold_left
                   (fun l m =>
                      MotionLightDisplay.addDebugMessage true (fst m) (snd m) l)
                   msgs l)
              = Nat.min 10 (List.length l + List.length msgs)).
    { induction msgs as [| m msgs IH]; intros l Hl; cbn [fold_left List.length].
      - lia.
      - rewrite IH; unfold MotionLightDisplay.addDebugMessage;
          cbn [negb List.length]; rewrite length_firstn; lia. }
    rewrite H by (cbn; lia). reflexivity.
Qed.

Lemma debug_messages_capped_witness :
  AlarmAutoArmDisplay.addDebugMessage 7 [Lit "b"] [DebugMessage.mk 3 [Lit "a"]]
  = [DebugMessage.mk 7 [Lit "b"]; DebugMessage.mk 3 [Lit "a"]].
Proof.
  apply (proj1 debug_messages_capped 7 [Lit "b"] [DebugMessage.mk 3 [Lit "a"]]).
  cbn. lia.
Defined.

(** The window the alarm component shows and the window the runner acts in
    are the same one: the component looks at the hour only, the runner at
    hour and minute, and for every clock reading they agree. *)
Theorem display_window_agrees now :
  0 <= AlarmAutoArm.getMinutes now < 60 ->
  AlarmAutoArmDisplay.isInArmingWindow now = AlarmAutoArm.isInArmingWindow now.
Proof.
  intros Hm. unfold AlarmAutoArmDisplay.isInArmingWindow, AlarmAutoArm.isInArmingWindow.
  cbv zeta. change (7 * 60 <? 21 * 60) with true. cbv iota.
  destruct (Z.leb_spec 21 (AlarmAutoArm.getHours now));
    destruct (Z.ltb_spec (AlarmAutoArm.getHours now) 7);
    destruct (Z.leb_spec (21 * 60)
                (AlarmAutoArm.getHours now * 60 + AlarmAutoArm.getMinutes now));
    destruct (Z.ltb_spec
                (AlarmAutoArm.getHours now * 60 + AlarmAutoArm.getMinutes now) (7 * 60));
    cbn; trivial; lia.
Qed.

Lemma display_window_agrees_witness :
  AlarmAutoArmDisplay.isInArmingWindow Demo.at_21_05
  = AlarmAutoArm.isInArmingWindow Demo.at_21_05.
Proof. apply (display_window_agrees Demo.at_21_05). cbn. lia. Defined.

Ltac div_lia := Z.to_euclidean_division_equations; lia.
Ltac label_cases := first [ div_lia | repeat split; try reflexivity; div_lia ].

(** [formatLastTriggered] for a timestamp that is [d] milliseconds old: below
    one minute (also for a timestamp in the future) it reads "Just now";
    below an hour it gives the whole minutes, 1 to 59; below a day the whole
    hours, 1 to 23; from then on the whole days.  The hours and days are
    computed from the rounded minutes and are still the exact whole hours
    and days of [d]. *)
Theorem last_triggered_label now date :
  let d := now - date in
  let label := MotionLightDisplay.formatLastTriggered now (Some date) in
  (d < 60000 -> label = [Lit "Just now"]) /\
  (60000 <= d < 3600000 ->
   exists m, label = [Num m; Lit "m ago"] /\ 1 <= m <= 59 /\
             m * 60000 <= d < (m + 1) * 60000) /\
  (3600000 <= d < 86400000 ->
   exists h, label = [Num h; Lit "h ago"] /\ 1 <= h <= 23 /\
             h * 3600000 <= d < (h + 1) * 3600000) /\
  (86400000 <= d ->
   exists n, label = [Num n; Lit "d ago"] /\ 1 <= n /\
             n * 86400000 <= d < (n + 1) * 86400000).
Proof.
  intros d label. subst label. unfold MotionLightDisplay.formatLastTriggered.
  fold d. cbv zeta.
  assert (Hh : d / 60000 / 60 = d / 3600000) by (rewrite Z.div_div; [reflexivity | lia ..]).
  assert (Hd : d / 60000 / 60 / 24 = d / 86400000)
    by (rewrite !Z.div_div; [reflexivity | lia ..]).
  rewrite Hd, Hh.
  repeat split.
  - intros Hlt.
    destruct (Z.ltb_spec (d / 60000) 1) as [_ | Hge]; trivial.
    exfalso. pose proof (Z.div_lt_upper_bound d 60000 1). lia.
  - intros [Hlo Hhi]. exists (d / 60000).
    destruct (Z.ltb_spec (d / 60000) 1); [div_lia |].
    destruct (Z.ltb_spec (d / 60000) 60); label_cases.
  - intros [Hlo Hhi]. exists (d / 3600000).
    destruct (Z.ltb_spec (d / 60000) 1); [div_lia |].
    destruct (Z.ltb_spec (d / 60000) 60); [div_lia |].
    destruct (Z.ltb_spec (d / 3600000) 24); label_cases.
  - intros Hlo. exists (d / 86400000).
    destruct (Z.ltb_spec (d / 60000) 1); [div_lia |].
    destruct (Z.ltb_spec (d / 60000) 60); [div_lia |].
    destruct (Z.ltb_spec (d / 3600000) 24); label_cases.
Qed.

Lemma last_triggered_label_witness :
  MotionLightDisplay.formatLastTriggered 7200000 (Some 1000) = [Num 1; Lit "h ago"].
Proof.
  destruct (proj1 (proj2 (proj2 (last_triggered_label 7200000 1000))))
    as (h & Hlabel & Hh & Hd); [div_lia |].
  rewrite Hlabel. replace h with 1 by lia. reflexivity.
Defined.

(** [getTimeUntilNext]: while the next arming time lies ahead the label
    gives the whole minutes that remain, split into hours and minutes below
    60, the hours left out when there are none.  The component refreshes
    [nextArmTime] once a minute only; in the minute after it has passed the
    label reads "-1m". *)
Theorem time_until_next_label now next :
  let d := next - now in
  let label := AlarmAutoArmDisplay.getTimeUntilNext now (Some next) in
  (3600000 <= d ->
   exists h m, label = [Num h; Lit "h "; Num m; Lit "m"] /\ 1 <= h /\ 0 <= m <= 59 /\
               (h * 60 + m) * 60000 <= d < (h * 60 + m + 1) * 60000) /\
  (0 <= d < 3600000 ->
   exists m, label = [Num m; Lit "m"] /\ 0 <= m <= 59 /\
             m * 60000 <= d < (m + 1) * 60000) /\
  (-60000 <= d < 0 -> label = [Num (-1); Lit "m"]).
Proof.
  intros d label. subst label. unfold AlarmAutoArmDisplay.getTimeUntilNext, js_rem.
  fold d. cbv zeta. change (1000 * 60 * 60) with 3600000. change (1000 * 60) with 60000.
  repeat split.
  - intros Hlo. exists (d / 3600000), (Z.rem d 3600000 / 60000).
    rewrite Z.rem_mod_nonneg by lia.
    destruct (Z.ltb_spec 0 (d / 3600000)); label_cases.
  - intros [Hlo Hhi]. exists (Z.rem d 3600000 / 60000).
    rewrite Z.rem_mod_nonneg by lia.
    destruct (Z.ltb_spec 0 (d / 3600000)); label_cases.
  - intros [Hlo Hhi].
    replace (Z.rem d 3600000) with d by (Z.quot_rem_to_equations; lia).
    destruct (Z.ltb_spec 0 (d / 3600000)); [div_lia |].
    replace (d / 60000) with (-1) by div_lia. reflexivity.
Qed.

Lemma time_until_next_label_witness :
  AlarmAutoArmDisplay.getTimeUntilNext 75630000 (Some 75600000) = [Num (-1); Lit "m"].
Proof. apply (proj2 (proj2 (time_until_next_label 75630000 75600000))). lia. Defined.

Lemma dropTrailingSlash_append url : dropTrailingSlash (String.append url "/") = url.
Proof.
  induction url as [| c rest IH]; [reflexivity |].
  cbn [String.append dropTrailingSlash]. rewrite IH.
  destruct rest; reflexivity.
Qed.

Lemma dropTrailingSlash_other url c :
  String.eqb (String c EmptyString) "/" = false ->
  dropTrailingSlash (String.append url (String c EmptyString))
  = String.append url (String c EmptyString).
Proof.
  intros Hc. induction url as [| d rest IH].
  - cbn [String.append]. unfold dropTrailingSlash. rewrite Hc. reflexivity.
  - cbn [String.append].
    destruct rest as [| e rest'].
    + cbn [String.append] in *.
      change (dropTrailingSlash (String d (String c "")))
        with (String d (dropTrailingSlash (String c ""))).
      rewrite IH. reflexivity.
    + cbn [String.append] in *.
      change (dropTrailingSlash
                (String d (String e (String.append rest' (String c EmptyString)))))
        with (String d
                (dropTrailingSlash
                   (String e (String.append rest' (String c EmptyString))))).
      rewrite IH. reflexivity.
Qed.

(** The address the components send their requests to, for every stored
    address.  It always carries a scheme.  One slash at the very end is
    dropped and nothing else is: an address that ends in another character
    keeps it, and the empty address stays empty.  What is left is used as it
    is when it begins with "http://" or "https://", and gets "http://" in
    front when it does not. *)
Theorem hub_url_has_scheme :
  (forall haUrl,
     String.prefix "http://" (finalUrl haUrl)
     || String.prefix "https://" (finalUrl haUrl) = true) /\
  (forall url,
     String.prefix "http://" url || String.prefix "https://" url = true ->
     finalUrl (String.append url "/") = url) /\
  (forall host,
     String.prefix "http://" host || String.prefix "https://" host = false ->
     finalUrl (String.append host "/") = String.append "http://" host) /\
  (forall url c,
     String.eqb (String c EmptyString) "/" = false ->
     let address := String.append url (String c EmptyString) in
     String.prefix "http://" address || String.prefix "https://" address = true ->
     finalUrl address = address) /\
  (forall host c,
     String.eqb (String c EmptyString) "/" = false ->
     let address := String.append host (String c EmptyString) in
     String.prefix "http://" address || String.prefix "https://" address = false ->
     finalUrl address = String.append "http://" address) /\
  finalUrl "" = "http://".
Proof.
  split; [| split; [| split; [| split; [| split]]]].
  - intros haUrl. unfold finalUrl. cbv zeta.
    destruct (String.prefix "http://" (dropTrailingSlash haUrl)) eqn:H1;
      destruct (String.prefix "https://" (dropTrailingSlash haUrl)) eqn:H2;
      cbn [negb andb]; rewrite ?H1, ?H2; trivial.
    cbn. destruct (dropTrailingSlash haUrl); reflexivity.
  - intros url H. unfold finalUrl. cbv zeta. rewrite dropTrailingSlash_append.
    apply orb_true_iff in H as [-> | ->]; cbn [negb andb]; trivial.
    rewrite andb_false_r. reflexivity.
  - intros host H. unfold finalUrl. cbv zeta. rewrite dropTrailingSlash_append.
    apply orb_false_iff in H as [-> ->]. reflexivity.
  - intros url c Hc address H. subst address. unfold finalUrl. cbv zeta.
    rewrite (dropTrailingSlash_other url c Hc).
    apply orb_true_iff in H as [-> | ->]; cbn [negb andb]; trivial.
    rewrite andb_false_r. reflexivity.
  - intros host c Hc address H. subst address. unfold finalUrl. cbv zeta.
    rewrite (dropTrailingSlash_other host c Hc).
    apply orb_false_iff in H as [-> ->]. reflexivity.
  - reflexivity.
Qed.

Lemma hub_url_has_scheme_witness :
  finalUrl "homeassistant.local:8123" = "http://homeassistant.local:8123".
Proof.
  apply (proj1 (proj2 (proj2 (proj2 (proj2 hub_url_has_scheme))))
           "homeassistant.local:812" (Ascii.ascii_of_nat 51));
    reflexivity.
Defined.

(** ** The scheduled-window runner: what it sends, and when *)

Module AlarmSends.
Import AlarmAutoArm AlarmSpec AlarmLaws AlarmFacts.

Ltac arm_close :=
  cbn; rewrite <- ?app_assoc, ?app_nil_r;
  repeat match goal with
         | |- _ /\ _ => split
         | |- exists _, _ = _ ++ _ /\ _ =>
             first [ exists []; rewrite app_nil_r; split; reflexivity
                   | eexists [_]; split; reflexivity ]
         | |- Forall _ _ => repeat constructor
         | |- _ = _ => reflexivity
         end.

Lemma arm_sequence_effect now a r w :
  exists w' entries,
    armAlarmWithValidation now a (r, w)
    = (Ok tt, (set_stateHistory (pushAll entries (stateHistory r)) r, w')) /\
    apiCalls w' = apiCalls w ++ armRequests a /\
    timers w' =
      timers w ++
      (if preArmPassed a && commandAccepted a
       then [mkTimer (nextHandle w) VerifyArm 5000 false] else []) /\
    (exists logged,
       eventLog w' = eventLog w ++ logged /\
       map event_type logged = armEventTypes a) /\
    triggerCountUpdates w' = triggerCountUpdates w /\
    map action entries = armActions a /\
    Forall (fun e => timestamp e = epochMs now /\ alarmState e = lastAlarmState r)
      entries.
Proof.
  open_runner r. destruct a as [pre away det home].
  unfold armAlarmWithValidation, armFallback, addStateHistory.
  unfold armRequests, armActions, armEventTypes, preArmPassed, fallbackTried,
    commandAccepted, pushAll.
  unfold_run. cbn [fst snd preArm armAway alarmDetails armHome].
  destruct pre as [e | msg]; cbn.
  2: { eexists _, [_]. cbn. split; [reflexivity |]. arm_close. }
  destruct (String.eqb (state e) "disarmed"); cbn.
  2: { eexists _, [_]. cbn. split; [reflexivity |]. arm_close. }
  destruct away as [[] | msg]; cbn.
  { eexists _, [_; _]. cbn. split; [reflexivity |]. arm_close. }
  destruct (includes "500" msg) eqn:H500; cbn.
  2: { rewrite H500. cbn. eexists _, [_; _]. cbn. split; [reflexivity |]. arm_close. }
  destruct det as [d | dmsg]; destruct home as [[] | hmsg];
    cbn; rewrite ?H500; cbn.
  - eexists _, [_; _; _; _]. cbn. split; [reflexivity |]. arm_close.
  - eexists _, [_; _; _]. cbn. split; [reflexivity |]. arm_close.
  - eexists _, [_; _; _]. cbn. split; [reflexivity |]. arm_close.
  - eexists _, [_; _]. cbn. split; [reflexivity |]. arm_close.
Qed.

(** What a poll sends, and the timer it leaves. *)
Lemma alarm_poll_sends r w now fetch arm :
  let s' := Run.exec (checkAndArm now fetch arm) (r, w) in
  apiCalls (snd s') = apiCalls w ++ pollRequests r now fetch arm /\
  (errorCount r < maxErrors r ->
   timers (snd s') =
     timers w ++
     (match fetch with
      | Ok e =>
          if shouldAttemptArm now (state e) && negb (cooling r now)
             && preArmPassed arm && commandAccepted arm
          then [mkTimer (nextHandle w) VerifyArm 5000 false] else []
      | Err _ => []
      end)).
Proof.
  unfold pollRequests.
  destruct (Z.leb_spec (maxErrors r) (errorCount r)) as [Hlim | Hg].
  - apply Z.leb_le in Hlim. open_runner r.
    unfold checkAndArm, stop. unfold_run. cbn. rewrite Hlim.
    split; [| intros Habs; apply Z.leb_le in Hlim; lia].
    destruct running, interval; cbn; rewrite app_nil_r; reflexivity.
  - destruct fetch as [e | msg].
    2: { rewrite (alarm_poll_failed r w now msg arm Hg). cbn.
         rewrite app_nil_r. split; trivial. }
    apply Z.leb_gt in Hg. open_runner r.
    unfold checkAndArm, pollAlarm, checkCooldown, addStateHistory.
    unfold shouldAttemptArm, cooling.
    unfold_run. cbn -[isInArmingWindow armAlarmWithValidation]. rewrite Hg.
    destruct (isInArmingWindow now); destruct (String.eqb (state e) "disarmed");
      cbn -[armAlarmWithValidation];
      (destruct last as [last |];
       [destruct (String.eqb last (state e)) |]);
      cbn -[armAlarmWithValidation]; rewrite ?app_nil_r;
      try (split; reflexivity).
    all: destruct attempt as [t |];
      [match goal with |- context [0 <? ?x] => destruct (0 <? x) end |];
      cbn -[armAlarmWithValidation]; rewrite ?app_nil_r;
      try (split; reflexivity).
    all: match goal with
         | |- context [armAlarmWithValidation ?n ?a (?r1, ?w1)] =>
             destruct (arm_sequence_effect n a r1 w1)
               as (w' & entries & -> & Hcalls & Htimers & _)
         end; cbn in Hcalls, Htimers |- *; rewrite Hcalls, Htimers;
         rewrite <- ?app_assoc; split; reflexivity.
Qed.

(** What a poll with an answer logs. *)
Lemma alarm_poll_events r w now e arm :
  errorCount r < maxErrors r ->
  let s' := Run.exec (checkAndArm now (Ok e) arm) (r, w) in
  map event_type (eventLog (snd s')) =
    map event_type (eventLog w)
    ++ (if stateChanged r e then ["triggered"] else [])
    ++ (if shouldAttemptArm now (state e) && negb (cooling r now)
        then armEventTypes arm else []) /\
  (forall last,
     lastAlarmState r = Some last -> last <> state e ->
     In (mkEvent (id (automation r)) "triggered"
           [Lit "Alarm state changed: "; Str last; Lit " → "; Str (state e);
            Lit " (Window: ";
            Lit (if isInArmingWindow now then "Active" else "Inactive"); Lit ")"])
        (eventLog (snd s'))).
Proof.
  intros Hg. apply Z.leb_gt in Hg. open_runner r.
  unfold checkAndArm, pollAlarm, checkCooldown, addStateHistory.
  unfold shouldAttemptArm, cooling, stateChanged.
  unfold_run. cbn -[isInArmingWindow armAlarmWithValidation]. rewrite Hg.
  destruct last as [last |]; cbn -[isInArmingWindow armAlarmWithValidation];
    [destruct (String.eqb_spec last (state e)) as [Heq | Hne];
     cbn -[isInArmingWindow armAlarmWithValidation] |].
  all: destruct (isInArmingWindow now) eqn:Hwin;
    destruct (String.eqb (state e) "disarmed");
    cbn -[armAlarmWithValidation]; rewrite ?Hwin;
    try (destruct attempt as [t |];
         [match goal with |- context [0 <? ?x] => destruct (0 <? x) end |];
         cbn -[armAlarmWithValidation]);
    try match goal with
        | |- context [armAlarmWithValidation ?n ?a (?r1, ?w1)] =>
            destruct (arm_sequence_effect n a r1 w1)
              as (w' & entries & -> & _ & _ & (logged & Hev & Htypes) & _);
            cbn in Hev |- *; rewrite Hev, <- Htypes
        end;
    rewrite ?map_app, ?app_nil_r, <- ?app_assoc; cbn;
    (split; [reflexivity |]);
    intros last' Hlast Hdiff; try discriminate;
    injection Hlast as <-; try contradiction.
  all: apply in_or_app; right; left; reflexivity.
Qed.

Lemma pollRequests_service r now fetch arm c :
  In c (pollRequests r now fetch arm) -> isService c = true ->
  (c = armAwayCall \/ c = armHomeCall) /\
  errorCount r < maxErrors r /\
  isInArmingWindow now = true /\
  (exists e, fetch = Ok e /\ state e = "disarmed") /\
  cooling r now = false /\
  preArmPassed arm = true.
Proof.
  unfold pollRequests, armRequests, shouldAttemptArm.
  destruct (Z.leb_spec (maxErrors r) (errorCount r)) as [Hlim | Hg]; [intros [] |].
  intros [<- | Hin]; [discriminate |].
  destruct fetch as [e | msg]; [| destruct Hin].
  destruct (isInArmingWindow now); [| destruct Hin].
  destruct (String.eqb_spec (state e) "disarmed") as [He | _]; [| destruct Hin].
  destruct (cooling r now); [destruct Hin |].
  cbn [andb negb] in Hin.
  destruct Hin as [<- | Hin]; [discriminate |].
  destruct (preArmPassed arm); [| destruct Hin].
  intros Hc.
  assert (Hwhich : c = armAwayCall \/ c = armHomeCall).
  { destruct Hin as [<- | Hin]; [left; reflexivity |].
    destruct (fallbackTried arm); [| destruct Hin].
    destruct Hin as [<- | [<- | []]]; [discriminate | right; reflexivity]. }
  repeat split; trivial. exists e. split; trivial.
Qed.

(** What [start] sends on a runner that is not running: the request of
    [initializeState], then the requests of the first poll. *)
Lemma alarm_start_sends now init fetch arm r w :
  isRunning r = false ->
  exists r1,
    apiCalls (snd (Run.exec (start now init fetch arm) (r, w)))
    = apiCalls w ++ GetState panel :: pollRequests r1 now fetch arm /\
    lastArmAttempt r1 = lastArmAttempt r /\ armCooldown r1 = armCooldown r /\
    errorCount r1 = 0 /\ maxErrors r1 = maxErrors r.
Proof.
  intros Hrun. open_runner r. subst running.
  unfold start, initializeState, addStateHistory. unfold_run.
  cbn -[checkAndArm].
  destruct init as [e | msg]; cbn -[checkAndArm].
  all: match goal with
       | |- context [checkAndArm ?n ?f ?a (?r2, ?w2)] =>
           exists r2;
           pose proof (proj1 (alarm_poll_sends r2 w2 n f a)) as Hs;
           unfold Run.exec in Hs;
           destruct (checkAndArm n f a (r2, w2)) as [[[] | err] [r3 w3]]
       end; cbn in Hs |- *; rewrite Hs, <- app_assoc; repeat split.
Qed.

Lemma alarm_stop_sends s : apiCalls (snd (Run.exec stop s)) = apiCalls (snd s).
Proof.
  destruct s as [r w]. open_runner r. unfold stop. unfold_run. cbn.
  destruct running, interval; reflexivity.
Qed.


Lemma pollRequests_allowed r now fetch arm :
  Forall allowed (pollRequests r now fetch arm).
Proof.
  unfold pollRequests, armRequests, allowed.
  destruct (maxErrors r <=? errorCount r); [constructor |].
  constructor; [auto |].
  destruct fetch as [e | msg]; [| constructor].
  destruct (shouldAttemptArm now (state e) && negb (cooling r now)); [| constructor].
  constructor; [auto |].
  destruct (preArmPassed arm); [| constructor].
  constructor; [auto |].
  destruct (fallbackTried arm); [| constructor].
  constructor; [auto |]. constructor; [auto | constructor].
Qed.

(** Every step appends to the requests sent, and what it appends is
    allowed. *)
Lemma alarm_step_sends s i :
  exists sent,
    apiCalls (snd (step s i)) = apiCalls (snd s) ++ sent /\ Forall allowed sent.
Proof.
  destruct s as [r w]. cbn [fst snd].
  destruct i as [now init fetch arm | | h now answer arm]; cbn [step].
  - destruct (isRunning r) eqn:Hrun.
    + exists []. unfold start. unfold_run. rewrite Hrun, app_nil_r.
      split; [reflexivity | constructor].
    + destruct (alarm_start_sends now init fetch arm r w Hrun) as (r1 & -> & _).
      eexists. split; [reflexivity |].
      constructor; [left; reflexivity | apply pollRequests_allowed].
  - exists []. rewrite alarm_stop_sends, app_nil_r. split; [reflexivity | constructor].
  - destruct (findTimer h w) as [t |] eqn:Hf.
    2: { exists []. unfold fire. unfold_run. rewrite Hf, app_nil_r.
         split; [reflexivity | constructor]. }
    destruct (callback t) eqn:Hcb.
    + rewrite (alarm_fire_poll h t) by assumption.
      rewrite (proj1 (alarm_poll_sends r w now answer arm)).
      eexists. split; [reflexivity | apply pollRequests_allowed].
    + exists []. unfold fire. unfold_run. rewrite Hf, Hcb, app_nil_r.
      split; [reflexivity | constructor].
    + rewrite (fire_verify h t) by assumption.
      rewrite (proj1 (verify_effect h now answer r w)).
      eexists. split; [reflexivity |]. constructor; [left; reflexivity | constructor].
Qed.

Lemma alarm_run_sends inputs :
  forall s, Forall allowed (apiCalls (snd s)) ->
            Forall allowed (apiCalls (snd (run s inputs))).
Proof.
  induction inputs as [| i rest IH]; intros s H; cbn; trivial.
  apply IH. destruct (alarm_step_sends s i) as (sent & -> & Hsent).
  apply Forall_app. split; assumption.
Qed.

End AlarmSends.

(** The arm sequence, for every combination of answers from the hub.  It
    asks for the panel state first and sends [alarm_arm_away] only when that
    state is "disarmed"; it falls back to [alarm_arm_home], after a second
    look at the panel, only when [alarm_arm_away] failed with a message that
    mentions 500.  The 5-second verification timer is scheduled, and the
    [action_executed] event logged, exactly when the hub accepted one of the
    two commands; an abort logs nothing, every other failure logs one error
    event.  The trigger count is never touched, and of the runner only the
    history changes, by the entries listed. *)
Theorem arm_sequence_outcome now a r w :
  let s' := Run.exec (AlarmAutoArm.armAlarmWithValidation now a) (r, w) in
  apiCalls (snd s') = apiCalls w ++ AlarmLaws.armRequests a /\
  timers (snd s') =
    timers w ++
    (if AlarmLaws.preArmPassed a && AlarmLaws.commandAccepted a
     then [mkTimer (nextHandle w) VerifyArm 5000 false] else []) /\
  map event_type (eventLog (snd s')) =
    map event_type (eventLog w) ++ AlarmLaws.armEventTypes a /\
  triggerCountUpdates (snd s') = triggerCountUpdates w /\
  (exists entries,
     fst s' = AlarmAutoArm.set_stateHistory
                (AlarmLaws.pushAll entries (AlarmAutoArm.stateHistory r)) r /\
     map AlarmAutoArm.action entries = AlarmLaws.armActions a) /\
  (In AlarmLaws.armAwayCall (AlarmLaws.armRequests a) <->
   exists e, AlarmAutoArm.preArm a = Ok e /\ state e = "disarmed") /\
  (In AlarmLaws.armHomeCall (AlarmLaws.armRequests a) <->
   AlarmLaws.preArmPassed a = true /\
   exists msg, AlarmAutoArm.armAway a = Err msg /\
               AlarmAutoArm.includes "500" msg = true).
Proof.
  intros s'. subst s'.
  destruct (AlarmSends.arm_sequence_effect now a r w)
    as (w' & entries & Heq & Hcalls & Htimers & (logged & Hev & Htypes) & Htrig & Hact & _).
  unfold Run.exec. rewrite Heq. cbn [fst snd].
  do 2 (split; [assumption |]).
  split; [rewrite Hev, map_app, Htypes; reflexivity |].
  split; [assumption |].
  split; [exists entries; split; trivial |].
  unfold AlarmLaws.armRequests, AlarmLaws.preArmPassed, AlarmLaws.fallbackTried.
  split; split.
  - intros [Habs | Hin]; [discriminate |].
    destruct (AlarmAutoArm.preArm a) as [e | msg]; [| destruct Hin].
    destruct (String.eqb_spec (state e) "disarmed"); [| destruct Hin].
    exists e. split; trivial.
  - intros (e & -> & ->). cbn. auto.
  - intros [Habs | Hin]; [discriminate |].
    destruct (AlarmAutoArm.preArm a) as [e | msg]; [| destruct Hin].
    destruct (String.eqb (state e) "disarmed"); [| destruct Hin].
    split; trivial.
    destruct Hin as [Habs | Hin]; [discriminate |].
    destruct (AlarmAutoArm.armAway a) as [[] | msg]; [destruct Hin |].
    destruct (AlarmAutoArm.includes "500" msg) eqn:H500; [| destruct Hin].
    exists msg. split; trivial.
  - intros (Hpre & msg & -> & ->). rewrite Hpre. cbn. auto.
Qed.

(** The requests of one poll of the scheduled-window runner, exactly: none at
    the error limit; otherwise the panel request, followed by the arm
    sequence exactly when the panel answered "disarmed", the instant is in
    the window and no cooldown runs.  So a poll commands the hub only in the
    window, only on a disarmed panel that the pre-arm check confirms, only
    outside the cooldown, and then only with [alarm_arm_away] or
    [alarm_arm_home]; and it schedules a verification only after an accepted
    command. *)
Theorem poll_arms_only_when_due r w now fetch arm :
  let s' := Run.exec (AlarmAutoArm.checkAndArm now fetch arm) (r, w) in
  apiCalls (snd s') = apiCalls w ++ AlarmLaws.pollRequests r now fetch arm /\
  (forall c,
     In c (AlarmLaws.pollRequests r now fetch arm) -> isService c = true ->
     (c = AlarmLaws.armAwayCall \/ c = AlarmLaws.armHomeCall) /\
     AlarmAutoArm.errorCount r < AlarmAutoArm.maxErrors r /\
     AlarmAutoArm.isInArmingWindow now = true /\
     (exists e, fetch = Ok e /\ state e = "disarmed") /\
     AlarmSpec.cooling r now = false /\
     AlarmLaws.preArmPassed arm = true) /\
  (AlarmAutoArm.errorCount r < AlarmAutoArm.maxErrors r ->
   timers (snd s') =
     timers w ++
     match fetch with
     | Ok e =>
         if AlarmSpec.shouldAttemptArm now (state e) && negb (AlarmSpec.cooling r now)
            && AlarmLaws.preArmPassed arm && AlarmLaws.commandAccepted arm
         then [mkTimer (nextHandle w) VerifyArm 5000 false] else []
     | Err _ => []
     end).
Proof.
  intros s'. subst s'.
  destruct (AlarmSends.alarm_poll_sends r w now fetch arm) as [Hcalls Htimers].
  split; [exact Hcalls |]. split; [| exact Htimers].
  intros c. apply AlarmSends.pollRequests_service.
Qed.

Lemma poll_arms_only_when_due_witness :
  timers (snd (Run.exec (AlarmAutoArm.checkAndArm Demo.at_21_05 (Demo.hub "disarmed")
                           Demo.armsFine) Demo.alarmIdle))
  = timers (snd Demo.alarmIdle) ++ [mkTimer 2 VerifyArm 5000 false].
Proof.
  apply (proj2 (proj2 (poll_arms_only_when_due (fst Demo.alarmIdle) (snd Demo.alarmIdle)
                         Demo.at_21_05 (Demo.hub "disarmed") Demo.armsFine))).
  cbn. lia.
Defined.



(** From its construction on, whatever is done with it, the
    scheduled-window runner sends the hub nothing but state requests for the
    alarm panel and the commands [alarm_arm_away] and [alarm_arm_home] on
    that panel: it reads no other entity and it never disarms. *)
Theorem alarm_requests_allowed a inputs :
  Forall AlarmLaws.allowed
    (apiCalls (snd (AlarmAutoArm.run (AlarmAutoArm.initial a) inputs))) /\
  ~ In (CallService "alarm_disarm" "alarm_control_panel" AlarmAutoArm.panel)
      (apiCalls (snd (AlarmAutoArm.run (AlarmAutoArm.initial a) inputs))).
Proof.
  assert (H : Forall AlarmLaws.allowed
                (apiCalls (snd (AlarmAutoArm.run (AlarmAutoArm.initial a) inputs))))
    by (apply AlarmSends.alarm_run_sends; constructor).
  split; [exact H |].
  intros Hin. rewrite Forall_forall in H.
  destruct (H _ Hin) as [Habs | [Habs | Habs]]; discriminate.
Qed.

(** The verification callback that runs 5 seconds after an accepted arm
    command only looks and records: it leaves the timer table, asks once for
    the panel state and appends one history entry that tells the outcome
    ([verify_success], [verify_pending], [verify_failed] or [verify_error]).
    It sends no command, sets no timer, logs no event and touches no other
    field, also when the panel is still disarmed. *)
Theorem verification_only_records h t now post arm r w :
  findTimer h w = Some t -> callback t = VerifyArm ->
  let s' := Run.exec (AlarmAutoArm.fire h now post arm) (r, w) in
  snd s' =
    {| eventLog := eventLog w;
       apiCalls := apiCalls w ++ [GetState AlarmAutoArm.panel];
       triggerCountUpdates := triggerCountUpdates w;
       timers := removeTimer h (timers w);
       nextHandle := nextHandle w |} /\
  pending h (snd s') = false /\
  exists details,
    fst s' =
      AlarmAutoArm.set_stateHistory
        (AlarmAutoArm.pushHistory
           (AlarmAutoArm.mkEntry (AlarmAutoArm.epochMs now) (AlarmLaws.verifyAction post)
              details (AlarmAutoArm.lastAlarmState r)
              (AlarmAutoArm.isInArmingWindow now) [])
           (AlarmAutoArm.stateHistory r)) r.
Proof.
  intros Hf Hcb s'. subst s'.
  rewrite (AlarmFacts.fire_verify h t) by assumption.
  AlarmFacts.open_runner r.
  unfold AlarmAutoArm.verifyArmStatus, AlarmAutoArm.addStateHistory,
    AlarmLaws.verifyAction.
  unfold_run. cbn -[AlarmAutoArm.isInArmingWindow].
  destruct post as [e | msg]; cbn -[AlarmAutoArm.isInArmingWindow].
  - destruct (String.eqb (state e) "armed_away" || String.eqb (state e) "armed_home");
      [| destruct (String.eqb (state e) "pending")];
      cbn -[AlarmAutoArm.isInArmingWindow];
      (split; [reflexivity |]); (split; [apply removeTimer_gone |]); eexists; reflexivity.
  - (split; [reflexivity |]); (split; [apply removeTimer_gone |]); eexists; reflexivity.
Qed.

Lemma verification_only_records_witness :
  let s' := Run.exec (AlarmAutoArm.fire 2 Demo.at_21_06 (Demo.hub "disarmed")
                        Demo.armsFine) Demo.alarmArmed in
  pending 2 (snd s') = false.
Proof.
  intros s'.
  destruct (verification_only_records 2 (mkTimer 2 VerifyArm 5000 false)
              Demo.at_21_06 (Demo.hub "disarmed") Demo.armsFine
              (fst Demo.alarmArmed) (snd Demo.alarmArmed))
    as (_ & Hgone & _); [reflexivity | reflexivity |].
  exact Hgone.
Defined.

(** A poll that does not arm says why.  The list of reasons is empty exactly
    when the action condition holds, so the [no_action] entry a poll writes
    always carries at least one reason: the instant is outside the window,
    the panel is not disarmed, or both, joined by " and ". *)
Theorem not_arming_reasons :
  (forall now st,
     AlarmAutoArm.notArmingReasons now (AlarmAutoArm.isInArmingWindow now) st = []
     <-> AlarmSpec.shouldAttemptArm now st = true) /\
  (forall r w now e arm,
     AlarmAutoArm.errorCount r < AlarmAutoArm.maxErrors r ->
     AlarmSpec.shouldAttemptArm now (state e) = false ->
     let s' := Run.exec (AlarmAutoArm.checkAndArm now (Ok e) arm) (r, w) in
     exists older reasons meta,
       AlarmAutoArm.stateHistory (fst s') =
         AlarmAutoArm.pushHistory
           (AlarmAutoArm.mkEntry (AlarmAutoArm.epochMs now) "no_action"
              (Lit "Not arming: " :: reasons) (Some (state e))
              (AlarmAutoArm.isInArmingWindow now) meta)
           older /\
       reasons <> [] /\
       reasons = AlarmAutoArm.notArmingReasons now (AlarmAutoArm.isInArmingWindow now)
                   (state e)) /\
  (forall now st,
     AlarmAutoArm.isInArmingWindow now = false -> st <> "disarmed" ->
     AlarmAutoArm.notArmingReasons now false st =
       [Lit "outside time window (current: "; Num (AlarmAutoArm.getHours now); Lit ":";
        Pad2 (AlarmAutoArm.getMinutes now); Lit ", need: 21:00-07:00)";
        Lit " and ";
        Lit "alarm is "; Str st; Lit " (need: disarmed)"]).
Proof.
  assert (Hiff : forall now st,
            AlarmAutoArm.notArmingReasons now (AlarmAutoArm.isInArmingWindow now) st = []
            <-> AlarmSpec.shouldAttemptArm now st = true).
  { intros now st. unfold AlarmAutoArm.notArmingReasons, AlarmSpec.shouldAttemptArm.
    destruct (AlarmAutoArm.isInArmingWindow now);
      destruct (String.eqb st "disarmed"); cbn; split; intros H;
      trivial; discriminate. }
  split; [exact Hiff |]. split.
  - intros r w now e arm Hg Hno s'. subst s'.
    assert (Hne : AlarmAutoArm.notArmingReasons now (AlarmAutoArm.isInArmingWindow now)
                    (state e) <> []).
    { intros Habs. apply Hiff in Habs. rewrite Habs in Hno. discriminate. }
    apply Z.leb_gt in Hg. revert Hno Hne. AlarmFacts.open_runner r. intros Hno Hne.
    unfold AlarmSpec.shouldAttemptArm in Hno.
    unfold AlarmAutoArm.checkAndArm, AlarmAutoArm.pollAlarm, AlarmAutoArm.checkCooldown,
      AlarmAutoArm.addStateHistory.
    unfold_run.
    cbn -[AlarmAutoArm.isInArmingWindow AlarmAutoArm.armAlarmWithValidation
          AlarmAutoArm.notArmingReasons].
    rewrite Hg.
    cbn -[AlarmAutoArm.isInArmingWindow AlarmAutoArm.armAlarmWithValidation
          AlarmAutoArm.notArmingReasons].
    rewrite Hno.
    destruct last as [last |];
      cbn -[AlarmAutoArm.isInArmingWindow AlarmAutoArm.notArmingReasons];
      [destruct (String.eqb last (state e)) |];
      cbn -[AlarmAutoArm.isInArmingWindow AlarmAutoArm.notArmingReasons];
      do 3 eexists; (split; [reflexivity |]); split; trivial.
  - intros now st Hwin Hst. unfold AlarmAutoArm.notArmingReasons.
    apply String.eqb_neq in Hst. rewrite Hst. reflexivity.
Qed.

Lemma not_arming_reasons_witness :
  AlarmAutoArm.notArmingReasons Demo.at_12_00 false "armed_away" =
    [Lit "outside time window (current: "; Num 12; Lit ":"; Pad2 0;
     Lit ", need: 21:00-07:00)"; Lit " and ";
     Lit "alarm is "; Str "armed_away"; Lit " (need: disarmed)"].
Proof.
  apply (proj2 (proj2 not_arming_reasons) Demo.at_12_00 "armed_away").
  - reflexivity.
  - discriminate.
Defined.




(** [getDebugInfo] of the scheduled-window runner.  [cooldownRemaining] is
    never negative, is 0 before the first attempt, and is positive exactly
    when a poll at that instant would find the cooldown running; the history
    shown is the newest 15 entries in their order. *)
Theorem alarm_debug_info now r :
  let info := AlarmAutoArmDebug.getDebugInfo now r in
  0 <= AlarmAutoArmDebug.cooldownRemaining info /\
  (0 <? AlarmAutoArmDebug.cooldownRemaining info) = AlarmSpec.cooling r now /\
  (AlarmAutoArm.lastArmAttempt r = None -> AlarmAutoArmDebug.cooldownRemaining info = 0) /\
  (List.length (AlarmAutoArmDebug.stateHistory info)
   = Nat.min 15 (List.length (AlarmAutoArm.stateHistory r)))%nat /\
  (exists older,
     AlarmAutoArm.stateHistory r = older ++ AlarmAutoArmDebug.stateHistory info) /\
  (forall w e arm,
     AlarmAutoArm.errorCount r < AlarmAutoArm.maxErrors r ->
     AlarmAutoArm.isInArmingWindow now = true -> state e = "disarmed" ->
     let s' := Run.exec (AlarmAutoArm.checkAndArm now (Ok e) arm) (r, w) in
     (0 < AlarmAutoArmDebug.cooldownRemaining info ->
      apiCalls (snd s') = apiCalls w ++ [GetState AlarmAutoArm.panel]) /\
     (AlarmAutoArmDebug.cooldownRemaining info = 0 ->
      apiCalls (snd s') =
        apiCalls w ++ GetState AlarmAutoArm.panel :: AlarmLaws.armRequests arm)).
Proof.
  intros info. subst info. unfold AlarmAutoArmDebug.getDebugInfo, AlarmSpec.cooling.
  cbn [AlarmAutoArmDebug.cooldownRemaining AlarmAutoArmDebug.stateHistory].
  split; [destruct (AlarmAutoArm.lastArmAttempt r); lia |].
  split.
  { destruct (AlarmAutoArm.lastArmAttempt r) as [last |]; [| reflexivity].
    destruct (Z.ltb_spec 0 (AlarmAutoArm.armCooldown r
                - (AlarmAutoArm.epochMs now - AlarmAutoArm.epochMs last)));
      destruct (Z.ltb_spec 0 (Z.max 0 (AlarmAutoArm.armCooldown r
                  - (AlarmAutoArm.epochMs now - AlarmAutoArm.epochMs last))));
      trivial; lia. }
  split; [intros ->; reflexivity |].
  split; [apply slice_last_length |].
  split.
  { exists (firstn (List.length (AlarmAutoArm.stateHistory r) - 15)
              (AlarmAutoArm.stateHistory r)).
    unfold slice_last. symmetry. apply firstn_skipn. }
  intros w e arm Hg Hwin He.
  rewrite (proj1 (AlarmSends.alarm_poll_sends r w now (Ok e) arm)).
  unfold AlarmLaws.pollRequests, AlarmSpec.shouldAttemptArm, AlarmSpec.cooling.
  apply Z.leb_gt in Hg. rewrite Hg, Hwin, He. cbn [String.eqb andb].
  change (("disarmed" =? "disarmed")%string) with true. cbn [andb].
  destruct (AlarmAutoArm.lastArmAttempt r) as [last |]; cbn [negb].
  - destruct (Z.ltb_spec 0 (AlarmAutoArm.armCooldown r
                - (AlarmAutoArm.epochMs now - AlarmAutoArm.epochMs last)));
      cbn [negb]; split; intros; trivial; lia.
  - split; intros; trivial; lia.
Qed.

Lemma alarm_debug_info_witness :
  apiCalls (snd (Run.exec (AlarmAutoArm.checkAndArm Demo.at_21_06 (Demo.hub "disarmed")
                           Demo.armsFine) Demo.alarmArmed))
  = apiCalls (snd Demo.alarmArmed) ++ [GetState AlarmAutoArm.panel].
Proof.
  pose proof (alarm_debug_info Demo.at_21_06 (fst Demo.alarmArmed))
    as (_ & _ & _ & _ & _ & Hpoll).
  destruct (Hpoll (snd Demo.alarmArmed) (mkEntityState "disarmed" "{}") Demo.armsFine)
    as [Hwait _]; [cbn; lia | reflexivity | reflexivity |].
  apply Hwait. cbn. lia.
Defined.

(** What a poll of the scheduled-window runner logs when the panel answers.
    It stores the state it fetched, whatever else it does.  It logs one
    [triggered] event, naming the old and the new state, exactly when it had
    a state stored and the fetched one differs; a first poll after a failed
    initialisation has none stored and logs no change.  The events of the
    arm sequence follow when the poll arms, and nothing else is logged. *)
Theorem state_change_logged r w now e arm :
  AlarmAutoArm.errorCount r < AlarmAutoArm.maxErrors r ->
  let s' := Run.exec (AlarmAutoArm.checkAndArm now (Ok e) arm) (r, w) in
  AlarmAutoArm.lastAlarmState (fst s') = Some (state e) /\
  map event_type (eventLog (snd s')) =
    map event_type (eventLog w)
    ++ (if AlarmLaws.stateChanged r e then ["triggered"] else [])
    ++ (if AlarmSpec.shouldAttemptArm now (state e) && negb (AlarmSpec.cooling r now)
        then AlarmLaws.armEventTypes arm else []) /\
  (forall last,
     AlarmAutoArm.lastAlarmState r = Some last -> last <> state e ->
     In (mkEvent (AlarmAutoArm.id (AlarmAutoArm.automation r)) "triggered"
           [Lit "Alarm state changed: "; Str last; Lit " → "; Str (state e);
            Lit " (Window: ";
            Lit (if AlarmAutoArm.isInArmingWindow now then "Active" else "Inactive");
            Lit ")"])
        (eventLog (snd s'))) /\
  (AlarmAutoArm.lastAlarmState r = None -> AlarmLaws.stateChanged r e = false).
Proof.
  intros Hg s'. subst s'.
  destruct (AlarmFacts.alarm_poll_ok_effect r w now e arm Hg) as (_ & Hlast & _).
  destruct (AlarmSends.alarm_poll_events r w now e arm Hg) as [Hev Hin].
  split; [exact Hlast |]. split; [exact Hev |]. split; [exact Hin |].
  intros Hnone. unfold AlarmLaws.stateChanged. rewrite Hnone. reflexivity.
Qed.

Lemma state_change_logged_witness :
  map event_type
    (eventLog (snd (Run.exec (AlarmAutoArm.checkAndArm Demo.at_12_00 (Demo.hub "disarmed")
                                Demo.armsFine) Demo.alarmIdle)))
  = map event_type (eventLog (snd Demo.alarmIdle)) ++ ["triggered"].
Proof.
  apply (proj1 (proj2 (state_change_logged (fst Demo.alarmIdle) (snd Demo.alarmIdle)
                         Demo.at_12_00 (mkEntityState "disarmed" "{}") Demo.armsFine
                         ltac:(cbn; lia)))).
Defined.

(** ** Fields and tables that a method leaves alone *)

(** One step through a method, by the shape of the code; [leaf] treats what
    is not monadic structure. *)
Ltac frame_step leaf :=
  lazymatch goal with
  | |- preserves _ (Run.bind _ _) => apply preserves_bind; [| intros]
  | |- preserves _ (Run.try_catch _ _) => apply preserves_try_catch; [| intros]
  | |- preserves _ (Run.ret _) => apply preserves_ret
  | |- preserves _ (Run.throw _) => apply preserves_throw
  | |- preserves _ (Run.await _) => apply preserves_await
  | |- preserves _ (if ?b then _ else _) => destruct b
  | |- preserves _ (match ?x with _ => _ end) => destruct x
  | |- preserves _ (let _ := _ in _) => cbv zeta
  | |- _ => leaf
  end.

(** A property of the runner object that no assignment of the method
    touches; [methods] unfolds the methods called. *)
Ltac runner_frame methods :=
  frame_step
    ltac:(idtac; lazymatch goal with
          | |- preserves _ getRunner => apply preserves_getRunner
          | |- preserves _ getWorld => apply preserves_getWorld
          | |- preserves _ (logEvent _ _ _) => apply preserves_logEvent
          | |- preserves _ (updateAutomationTriggerCount _) =>
              apply preserves_updateAutomationTriggerCount
          | |- preserves _ (clearTimer _) => apply preserves_clearTimer
          | |- preserves _ (getHAEntityState _ _) => apply preserves_getHAEntityState
          | |- preserves _ (callHAService _ _ _ _) => apply preserves_callHAService
          | |- preserves _ (setTimer _ _ _) => apply preserves_setTimer
          | |- preserves _ (setInterval _ _) => apply preserves_setTimer
          | |- preserves _ (setTimeout _ _) => apply preserves_setTimer
          | |- preserves _ (onRunner _) =>
              apply preserves_onRunner;
              let r := fresh in let H := fresh in intros r H; exact H
          | |- _ => methods
          end).

(** ** The edge-triggered runner: what it sends, and when *)

Module MotionSends.
Import MotionLight MotionSpec MotionLaws MotionFacts.

Lemma motion_poll_summary r w now fetch turnOn :
  let s' := Run.exec (checkMotionState now fetch turnOn) (r, w) in
  apiCalls (snd s') = apiCalls w ++ pollRequests r fetch /\
  ((errorCount (fst s') = errorCount r /\
    consecutiveSuccesses (fst s') = consecutiveSuccesses r) \/
   (errorCount (fst s') = 0 /\
    consecutiveSuccesses (fst s') = consecutiveSuccesses r + 1) \/
   (errorCount (fst s') = errorCount r + 1 /\ consecutiveSuccesses (fst s') = 0 /\
    errorCount r < maxErrors r)) /\
  (forall t, In t (timers (snd s')) ->
     In t (timers w) \/
     exists m l d,
       configured (motion_entity (settings (automation r))) = Some m /\
       configured (light_entity (settings (automation r))) = Some l /\
       callback t = TurnOffCountdown m l d).
Proof.
  unfold pollRequests, isOffOn.
  destruct (Z.leb_spec (maxErrors r) (errorCount r)) as [Hlim | Hg].
  { apply Z.leb_le in Hlim. open_runner r.
    unfold checkMotionState, stop. unfold_run. cbn. rewrite Hlim.
    destruct running, interval, timeout; cbn; rewrite app_nil_r;
      repeat split; auto; intros t Hin; left;
      repeat (apply filter_In in Hin as [Hin _]); exact Hin. }
  pose proof Hg as Hlt. apply Z.leb_gt in Hg. open_runner r.
  unfold checkMotionState, pollMotion, addStateHistory. unfold_run. cbn.
  rewrite Hg.
  destruct (configured (motion_entity (settings auto))) as [m |]; cbn;
    [| rewrite app_nil_r; repeat split; auto].
  destruct (configured (light_entity (settings auto))) as [l |]; cbn;
    [| rewrite app_nil_r; repeat split; auto].
  destruct fetch as [e | msg]; cbn.
  2: { destruct ((errors + 1 =? 1) || (js_rem (errors + 1) 5 =? 0)); cbn;
       repeat split; auto. }
  destruct last as [last |]; cbn.
  2: { repeat split; auto. }
  destruct (String.eqb_spec last (state e)) as [-> | Hne]; cbn.
  { destruct (String.eqb_spec (state e) "off") as [-> | _]; cbn;
      repeat split; auto. }
  destruct (String.eqb last "off" && String.eqb (state e) "on"); cbn.
  - destruct timeout; destruct turnOn as [[] | msg];
      unfold motionDetected, addStateHistory; unfold_run; cbn;
      rewrite <- ?app_assoc; repeat split; auto; intros t Hin; left;
      repeat (apply filter_In in Hin as [Hin _]); exact Hin.
  - destruct (String.eqb last "on" && String.eqb (state e) "off"); cbn.
    + repeat split; auto. intros t Hin.
      apply in_app_or in Hin as [Hin | [<- | []]]; [left; exact Hin |].
      right. do 3 eexists. repeat split.
    + repeat split; auto.
Qed.

(** A change of state that is neither off->on nor on->off is adopted and
    nothing else happens. *)
Lemma poll_other_change r w m l now e turnOn last :
  polling r m l -> lastMotionState r = Some last -> last <> state e ->
  ~ (last = "off" /\ state e = "on") -> ~ (last = "on" /\ state e = "off") ->
  Run.exec (checkMotionState now (Ok e) turnOn) (r, w)
  = (set_lastMotionState (Some (state e)) (polledOk now r),
     addRequests [GetState m] w).
Proof.
  intros Hp Hlast Hne Hnot1 Hnot2. open_runner r. subst last0. enter_poll Hp.
  apply String.eqb_neq in Hne. rewrite Hne. cbn.
  destruct (String.eqb_spec last "off") as [Hoff | _];
    destruct (String.eqb_spec (state e) "on") as [Hon | _]; cbn;
    try (exfalso; apply Hnot1; split; assumption).
  all: destruct (String.eqb_spec last "on") as [Hon' | _];
    destruct (String.eqb_spec (state e) "off") as [Hoff' | _]; cbn;
    try (exfalso; apply Hnot2; split; assumption); reflexivity.
Qed.

(** A poll of a runner that lacks one of its two entities. *)
Lemma motion_poll_misconfigured r w now fetch turnOn :
  errorCount r < maxErrors r ->
  configured (motion_entity (settings (automation r))) = None \/
  configured (light_entity (settings (automation r))) = None ->
  Run.exec (checkMotionState now fetch turnOn) (r, w)
  = (set_stateHistory (pushHistory (misconfiguredEntry now r) (stateHistory r))
       (set_consecutiveSuccesses 0 (set_errorCount (errorCount r + 1) r)),
     addEvents [misconfiguredEvent r] w).
Proof.
  intros Hg Hmis. apply Z.leb_gt in Hg. open_runner r.
  unfold checkMotionState, addStateHistory. unfold_run. cbn. rewrite Hg.
  destruct (configured (motion_entity (settings auto))) as [m |];
    destruct (configured (light_entity (settings auto))) as [l |];
    try (destruct Hmis; discriminate); reflexivity.
Qed.

(** No method assigns [automation] or [maxErrors]. *)
Lemma motion_step_config a k s i :
  ofRunner (configIs a k) s -> ofRunner (configIs a k) (step s i).
Proof.
  intros H. destruct i; cbn [step]; apply preserves_exec; trivial;
    repeat (runner_frame
              ltac:(idtac; progress unfold start, stop, fire, initializeState,
                      checkMotionState, pollMotion, motionDetected, motionStopped,
                      countdownCallback, addStateHistory)).
Qed.

Lemma motion_run_config a k inputs :
  forall s, ofRunner (configIs a k) s -> ofRunner (configIs a k) (run s inputs).
Proof.
  induction inputs as [| i rest IH]; intros s H; cbn; trivial.
  apply IH, motion_step_config, H.
Qed.

(** [start] on a runner that is running returns at once. *)
Lemma motion_start_running now init r w :
  isRunning r = true -> Run.exec (start now init) (r, w) = (r, w).
Proof. intros Hrun. unfold start. unfold_run. rewrite Hrun. reflexivity. Qed.

(** [start] on a runner that is not running. *)
Lemma motion_start_effect now init r w :
  isRunning r = false ->
  let s' := Run.exec (start now init) (r, w) in
  let asked := configured (motion_entity (settings (automation r))) in
  isRunning (fst s') = true /\
  errorCount (fst s') = 0 /\
  pollInterval (fst s') = Some (nextHandle w) /\
  timeoutId (fst s') = timeoutId r /\
  lastMotionState (fst s') =
    match asked, init with
    | Some _, Ok e => Some (state e)
    | _, _ => lastMotionState r
    end /\
  timers (snd s') = timers w ++ [mkTimer (nextHandle w) PollTick 750 true] /\
  nextHandle (snd s') = Pos.succ (nextHandle w) /\
  apiCalls (snd s') =
    apiCalls w ++ match asked with Some m => [GetState m] | None => [] end /\
  map event_type (eventLog (snd s')) =
    map event_type (eventLog w) ++
    match asked, init with
    | Some _, Ok _ => ["started"]
    | _, _ => ["error"; "started"]
    end /\
  triggerCountUpdates (snd s') = triggerCountUpdates w /\
  consecutiveSuccesses (fst s') = consecutiveSuccesses r.
Proof.
  intros Hrun. open_runner r. subst running.
  unfold start, initializeState, addStateHistory. unfold_run. cbn.
  destruct (configured (motion_entity (settings auto))) as [m |]; cbn;
    [destruct init as [e | msg]; cbn |];
    rewrite ?map_app, <- ?app_assoc, ?app_nil_r; repeat split; reflexivity.
Qed.

Lemma motion_stop_effect s :
  apiCalls (snd (Run.exec stop s)) = apiCalls (snd s) /\
  forall t, In t (timers (snd (Run.exec stop s))) -> In t (timers (snd s)).
Proof.
  destruct s as [r w]. open_runner r. unfold stop. unfold_run. cbn.
  destruct running, interval, timeout; cbn; split; trivial;
    intros t Hin; repeat (apply filter_In in Hin as [Hin _]); exact Hin.
Qed.

(** The world with a timer taken out of the table. *)
Lemma motion_fire_countdown h t r w now answer act m l d :
  findTimer h w = Some t -> callback t = TurnOffCountdown m l d ->
  Run.exec (fire h now answer act) (r, w)
  = Run.exec (countdownCallback now m l d answer act)
      (r, {| eventLog := eventLog w; apiCalls := apiCalls w;
             triggerCountUpdates := triggerCountUpdates w;
             timers := removeTimer h (timers w); nextHandle := nextHandle w |}).
Proof.
  intros Hf Hc. unfold fire, Run.exec, Run.bind at 1, getWorld. cbn [fst snd].
  rewrite Hf, Hc. reflexivity.
Qed.

Lemma motion_step_sends a s i :
  automation (fst s) = a -> countdownsFor a (timers (snd s)) ->
  countdownsFor a (timers (snd (step s i))) /\
  exists sent,
    apiCalls (snd (step s i)) = apiCalls (snd s) ++ sent /\
    Forall (allowedFor a) sent.
Proof.
  destruct s as [r w]. cbn [fst snd]. intros Ha Hcd.
  assert (Hnone : countdownsFor a (timers w) /\
                  exists sent, apiCalls w = apiCalls w ++ sent /\
                               Forall (allowedFor a) sent).
  { split; trivial. exists []. rewrite app_nil_r. split; [reflexivity | constructor]. }
  destruct i as [now init | | h now answer act]; cbn [step].
  - destruct (isRunning r) eqn:Hrun.
    + rewrite motion_start_running by exact Hrun. exact Hnone.
    + destruct (motion_start_effect now init r w Hrun)
        as (_ & _ & _ & _ & _ & Ht & _ & Hc & _).
      rewrite Ht, Hc. split.
      * intros t m l d Hin Hcb.
        apply in_app_or in Hin as [Hin | [<- | []]]; [eauto | discriminate].
      * eexists. split; [reflexivity |]. rewrite Ha. unfold allowedFor.
        destruct (configured (motion_entity (settings a))); [| constructor].
        constructor; [left; reflexivity | constructor].
  - destruct (motion_stop_effect (r, w)) as [Hc Ht]. rewrite Hc. split.
    + intros t m l d Hin Hcb. eapply Hcd; eauto.
    + exists []. rewrite app_nil_r. split; [reflexivity | constructor].
  - destruct (findTimer h w) as [t |] eqn:Hf.
    2: { unfold fire. unfold_run. rewrite Hf. exact Hnone. }
    destruct (callback t) as [| m' l' d' |] eqn:Hcb.
    + rewrite (motion_fire_poll h t) by assumption.
      destruct (motion_poll_summary r w now answer act) as (Hc & _ & Ht).
      rewrite Hc. split.
      * intros x m l d Hin Hx. destruct (Ht x Hin) as [Hold | (m0 & l0 & d0 & Hm & Hl & Hx')].
        -- eapply Hcd; eauto.
        -- rewrite Hx' in Hx. injection Hx as <- <- <-. rewrite <- Ha. auto.
      * eexists. split; [reflexivity |]. unfold pollRequests, allowedFor. rewrite Ha.
        destruct (maxErrors r <=? errorCount r); [constructor |].
        destruct (configured (motion_entity (settings a))); [| constructor].
        destruct (configured (light_entity (settings a))); [| constructor].
        constructor; [auto |].
        destruct answer as [e | msg]; [| constructor].
        destruct (isOffOn (lastMotionState r) (state e)); [| constructor].
        constructor; [| constructor]. right. left. reflexivity.
    + destruct (MotionTimers.findTimer_In h w t Hf) as [Hin _].
      destruct (Hcd t m' l' d' Hin Hcb) as [Hm Hl].
      rewrite (motion_fire_countdown h t r w now answer act m' l' d') by assumption.
      match goal with
      | |- context [Run.exec (countdownCallback ?n ?m ?l ?d ?x ?y) (r, ?w1)] =>
          destruct (countdown_effect r w1 m l d n x y)
            as (Hc & _ & _ & _ & _ & _ & Ht & _)
      end.
      rewrite Hc, Ht. cbn [apiCalls timers]. split.
      * intros x m l d Hx Hxcb. apply filter_In in Hx as [Hx _]. eapply Hcd; eauto.
      * eexists. split; [reflexivity |]. unfold allowedFor. rewrite Hm, Hl.
        constructor; [auto |].
        destruct answer as [e | msg]; [| constructor].
        destruct (String.eqb (state e) "off"); [| constructor].
        constructor; [| constructor]. right. right. reflexivity.
    + unfold fire. unfold_run. rewrite Hf, Hcb. exact Hnone.
Qed.

Lemma motion_run_sends a inputs :
  forall s,
    automation (fst s) = a -> countdownsFor a (timers (snd s)) ->
    Forall (allowedFor a) (apiCalls (snd s)) ->
    Forall (allowedFor a) (apiCalls (snd (run s inputs))).
Proof.
  induction inputs as [| i rest IH]; intros s Ha Hcd Hall; cbn; trivial.
  destruct (motion_step_sends a s i Ha Hcd) as (Hcd' & sent & Hc & Hsent).
  apply IH; trivial.
  - apply (motion_step_config a (maxErrors (fst s)) s i). split; trivial.
  - rewrite Hc. apply Forall_app. split; assumption.
Qed.

End MotionSends.

(** From its construction on, whatever is done with it, the edge-triggered
    runner sends the hub nothing but state requests for its motion entity
    and [turn_on] and [turn_off] for its light, the countdowns in the timer
    table included.  A runner without a motion entity sends nothing at all;
    one without a light never commands the hub. *)
Theorem motion_requests_allowed a inputs :
  let sent := apiCalls (snd (MotionLight.run (MotionLight.initial a) inputs)) in
  Forall (MotionLaws.allowedFor a) sent /\
  (MotionLight.configured (MotionLight.motion_entity (MotionLight.settings a)) = None ->
   sent = []) /\
  (MotionLight.configured (MotionLight.light_entity (MotionLight.settings a)) = None ->
   forall c, In c sent -> isService c = false).
Proof.
  intros sent.
  assert (H : Forall (MotionLaws.allowedFor a) sent).
  { apply MotionSends.motion_run_sends.
    - reflexivity.
    - intros t m l d [].
    - constructor. }
  split; [exact H |]. split.
  - intros Hnone. destruct sent as [| c rest]; trivial.
    inversion H as [| ? ? Hc _]; subst. unfold MotionLaws.allowedFor in Hc.
    rewrite Hnone in Hc. destruct Hc.
  - intros Hnone c Hin. rewrite Forall_forall in H. specialize (H c Hin).
    unfold MotionLaws.allowedFor in H. rewrite Hnone in H.
    destruct (MotionLight.configured _); [| destruct H].
    destruct H as [-> | []]. reflexivity.
Qed.

Lemma motion_requests_allowed_witness :
  apiCalls
    (snd (MotionLight.run
            (MotionLight.initial
               (MotionLight.mkAutomation "a3" "porch"
                  (MotionLight.mkSettings None (Some "l1") (Some 15))))
            [MotionLight.CallStart 0 (Demo.hub "on");
             MotionLight.Fire 1 750 (Demo.hub "off") (Ok tt)]))
  = [].
Proof.
  apply (proj1 (proj2 (motion_requests_allowed
                  (MotionLight.mkAutomation "a3" "porch"
                     (MotionLight.mkSettings None (Some "l1") (Some 15)))
                  [MotionLight.CallStart 0 (Demo.hub "on");
                   MotionLight.Fire 1 750 (Demo.hub "off") (Ok tt)]))).
  reflexivity.
Defined.

(** The requests of one poll of the edge-triggered runner, exactly: none at
    the error limit or with an entity missing; otherwise the state request,
    followed by [turn_on] exactly when the stored state is "off" and the
    answer is "on".  A poll never sends [turn_off].  A change of state that
    is neither off->on nor on->off (the sensor coming back from
    "unavailable" to "on", say) is adopted and nothing else happens: no
    command, no timer, no event, no history entry. *)
Theorem poll_turns_on_only_on_off_on r w now fetch turnOn :
  let s' := Run.exec (MotionLight.checkMotionState now fetch turnOn) (r, w) in
  apiCalls (snd s') = apiCalls w ++ MotionLaws.pollRequests r fetch /\
  (forall c,
     In c (MotionLaws.pollRequests r fetch) -> isService c = true ->
     exists l e,
       c = MotionLaws.turnOnCall l /\
       MotionLight.configured
         (MotionLight.light_entity (MotionLight.settings (MotionLight.automation r)))
       = Some l /\
       fetch = Ok e /\ state e = "on" /\
       MotionLight.lastMotionState r = Some "off" /\
       MotionLight.errorCount r < MotionLight.maxErrors r) /\
  (forall m l e last,
     MotionSpec.polling r m l -> fetch = Ok e ->
     MotionLight.lastMotionState r = Some last -> last <> state e ->
     ~ (last = "off" /\ state e = "on") -> ~ (last = "on" /\ state e = "off") ->
     s' = (MotionLight.set_lastMotionState (Some (state e)) (MotionSpec.polledOk now r),
           MotionSpec.addRequests [GetState m] w)).
Proof.
  intros s'. subst s'.
  split; [apply MotionSends.motion_poll_summary |]. split.
  - unfold MotionLaws.pollRequests, MotionSpec.isOffOn. intros c Hin Hc.
    destruct (Z.leb_spec (MotionLight.maxErrors r) (MotionLight.errorCount r));
      [destruct Hin |].
    destruct (MotionLight.configured (MotionLight.motion_entity _)) as [m |];
      [| destruct Hin].
    destruct (MotionLight.configured (MotionLight.light_entity _)) as [l |];
      [| destruct Hin].
    destruct Hin as [<- | Hin]; [discriminate |].
    destruct fetch as [e | msg]; [| destruct Hin].
    destruct (MotionLight.lastMotionState r) as [last |]; [| destruct Hin].
    destruct (String.eqb_spec last "off") as [Hoff | _]; [| destruct Hin].
    destruct (String.eqb_spec (state e) "on") as [Hon | _]; [| destruct Hin].
    destruct Hin as [<- | []].
    exists l, e. rewrite Hoff. repeat split; trivial.
  - intros m l e last Hp -> Hlast Hne Hnot1 Hnot2.
    apply (MotionSends.poll_other_change r w m l now e turnOn last); assumption.
Qed.

Lemma poll_turns_on_only_on_off_on_witness :
  let back := MotionLight.run Demo.hallOff
                [MotionLight.Fire 1 750 (Demo.hub "unavailable") (Ok tt)] in
  apiCalls (snd (Run.exec (MotionLight.checkMotionState 1500 (Demo.hub "on") (Ok tt)) back))
  = apiCalls (snd back) ++ [GetState "m1"].
Proof.
  intros back.
  pose proof (proj2 (proj2 (poll_turns_on_only_on_off_on (fst back) (snd back) 1500
                              (Demo.hub "on") (Ok tt)))
                "m1" "l1" (mkEntityState "on" "{}") "unavailable") as H.
  cbv zeta in H. change (fst back, snd back) with back in H.
  rewrite H.
  - reflexivity.
  - repeat split; cbn; lia.
  - reflexivity.
  - reflexivity.
  - discriminate.
  - intros [Habs _]. discriminate.
  - intros [Habs _]. discriminate.
Defined.

(** ** The timer table *)

Section Fresh.
Context {R : Type}.

Lemma fresh_same (w w' : World) :
  timers w' = timers w -> nextHandle w' = nextHandle w ->
  handlesFresh w -> handlesFresh w'.
Proof. unfold handlesFresh. intros -> ->. trivial. Qed.

Lemma fresh_getRunner : preserves (ofWorld (R := R) handlesFresh) getRunner.
Proof. intros s H. exact H. Qed.

Lemma fresh_getWorld : preserves (ofWorld (R := R) handlesFresh) getWorld.
Proof. intros s H. exact H. Qed.

Lemma fresh_onRunner f : preserves (ofWorld (R := R) handlesFresh) (onRunner f).
Proof. intros s H. exact H. Qed.

Lemma fresh_logEvent i t m : preserves (ofWorld (R := R) handlesFresh) (logEvent i t m).
Proof. intros s H. exact H. Qed.

Lemma fresh_updateAutomationTriggerCount i :
  preserves (ofWorld (R := R) handlesFresh) (updateAutomationTriggerCount i).
Proof. intros s H. exact H. Qed.

Lemma fresh_getHAEntityState e r :
  preserves (ofWorld (R := R) handlesFresh) (getHAEntityState e r).
Proof.
  apply preserves_bind; [intros s H; exact H | intros; apply preserves_await].
Qed.

Lemma fresh_callHAService sv d e r :
  preserves (ofWorld (R := R) handlesFresh) (callHAService sv d e r).
Proof.
  apply preserves_bind; [intros s H; exact H | intros; apply preserves_await].
Qed.

Lemma fresh_removeTimer h w w' :
  timers w' = removeTimer h (timers w) -> nextHandle w' = nextHandle w ->
  handlesFresh w -> handlesFresh w'.
Proof.
  unfold handlesFresh, removeTimer. intros -> -> [Hnd Hlt]. split.
  - clear Hlt. induction (timers w) as [| t ts IH]; cbn in *; trivial.
    inversion Hnd as [| ? ? Hnotin Hrest]; subst.
    destruct (negb (Pos.eqb (handle t) h)); cbn; auto.
    constructor; auto.
    intros Hin. apply Hnotin. apply in_map_iff in Hin as (x & Hx & Hin).
    apply filter_In in Hin as [Hin _]. apply in_map_iff. eauto.
  - apply Forall_forall. intros t Hin. apply filter_In in Hin as [Hin _].
    rewrite Forall_forall in Hlt. auto.
Qed.

Lemma fresh_clearTimer h : preserves (ofWorld (R := R) handlesFresh) (clearTimer h).
Proof.
  intros [r w] H. unfold ofWorld in *. cbn in *.
  eapply fresh_removeTimer; [reflexivity | reflexivity | exact H].
Qed.

Lemma fresh_added c d b w w' :
  timers w' = timers w ++ [mkTimer (nextHandle w) c d b] ->
  nextHandle w' = Pos.succ (nextHandle w) ->
  handlesFresh w -> handlesFresh w'.
Proof.
  unfold handlesFresh. intros -> -> [Hnd Hlt]. split.
  - rewrite map_app. cbn.
    rewrite Forall_forall in Hlt.
    assert (Hnew : ~ In (nextHandle w) (map handle (timers w))).
    { intros Hin. apply in_map_iff in Hin as (t & Ht & Hin).
      specialize (Hlt t Hin). lia. }
    clear Hlt. induction (timers w) as [| t ts IH]; cbn in *.
    + constructor; [intros [] | constructor].
    + inversion Hnd as [| ? ? Hnotin Hrest]; subst. constructor.
      * rewrite in_app_iff. intros [Hin | [Heq | []]]; auto.
      * apply IH; auto.
  - apply Forall_app. split.
    + eapply Forall_impl; [| exact Hlt]. cbn. intros t Ht. lia.
    + constructor; [cbn; lia | constructor].
Qed.

Lemma fresh_setTimer c d b : preserves (ofWorld (R := R) handlesFresh) (setTimer c d b).
Proof.
  intros [r w] H. unfold ofWorld in *. cbn in *.
  eapply fresh_added; [reflexivity | reflexivity | exact H].
Qed.

(** Two timers of a table with distinct handles are the same timer when
    their handles are. *)
Lemma fresh_same_handle w t1 t2 :
  handlesFresh w -> In t1 (timers w) -> In t2 (timers w) ->
  handle t1 = handle t2 -> t1 = t2.
Proof.
  intros [Hnd _]. induction (timers w) as [| t ts IH]; cbn; [intros [] |].
  inversion Hnd as [| ? ? Hnotin Hrest]; subst.
  intros [<- | H1] [<- | H2] Heq; auto.
  - exfalso. apply Hnotin. rewrite Heq. apply in_map. exact H2.
  - exfalso. apply Hnotin. rewrite <- Heq. apply in_map. exact H1.
Qed.

(** In such a table a timer is found by its handle. *)
Lemma fresh_find w t :
  handlesFresh w -> In t (timers w) -> findTimer (handle t) w = Some t.
Proof.
  intros Hf Hin. unfold findTimer.
  destruct (find (fun x => Pos.eqb (handle x) (handle t)) (timers w)) as [x |] eqn:Hx.
  - apply find_some in Hx as [Hxin Heq]. apply Pos.eqb_eq in Heq.
    f_equal. apply (fresh_same_handle w); assumption.
  - eapply find_none in Hx; [| exact Hin]. cbn in Hx.
    rewrite Pos.eqb_refl in Hx. discriminate.
Qed.
End Fresh.

(** A property of the timer table that holds whatever the method does. *)
Ltac world_frame methods :=
  frame_step
    ltac:(idtac; lazymatch goal with
          | |- preserves _ getRunner => apply fresh_getRunner
          | |- preserves _ getWorld => apply fresh_getWorld
          | |- preserves _ (logEvent _ _ _) => apply fresh_logEvent
          | |- preserves _ (updateAutomationTriggerCount _) =>
              apply fresh_updateAutomationTriggerCount
          | |- preserves _ (clearTimer _) => apply fresh_clearTimer
          | |- preserves _ (getHAEntityState _ _) => apply fresh_getHAEntityState
          | |- preserves _ (callHAService _ _ _ _) => apply fresh_callHAService
          | |- preserves _ (setTimer _ _ _) => apply fresh_setTimer
          | |- preserves _ (setInterval _ _) => apply fresh_setTimer
          | |- preserves _ (setTimeout _ _) => apply fresh_setTimer
          | |- preserves _ (onRunner _) => apply fresh_onRunner
          | |- _ => methods
          end).

Lemma motion_step_fresh s i :
  ofWorld handlesFresh s -> ofWorld handlesFresh (MotionLight.step s i).
Proof.
  intros H. destruct i; cbn [MotionLight.step]; apply preserves_exec; trivial;
    repeat (world_frame
              ltac:(idtac; progress unfold MotionLight.start, MotionLight.stop,
                      MotionLight.fire, MotionLight.initializeState,
                      MotionLight.checkMotionState, MotionLight.pollMotion,
                      MotionLight.motionDetected, MotionLight.motionStopped,
                      MotionLight.countdownCallback, MotionLight.addStateHistory)).
Qed.

Lemma alarm_step_fresh s i :
  ofWorld handlesFresh s -> ofWorld handlesFresh (AlarmAutoArm.step s i).
Proof.
  intros H. destruct i; cbn [AlarmAutoArm.step]; apply preserves_exec; trivial;
    repeat (world_frame
              ltac:(idtac; progress unfold AlarmAutoArm.start, AlarmAutoArm.stop,
                      AlarmAutoArm.fire, AlarmAutoArm.initializeState,
                      AlarmAutoArm.checkAndArm, AlarmAutoArm.pollAlarm,
                      AlarmAutoArm.checkCooldown, AlarmAutoArm.armAlarmWithValidation,
                      AlarmAutoArm.armFallback, AlarmAutoArm.verifyArmStatus,
                      AlarmAutoArm.addStateHistory)).
Qed.

Lemma alarm_step_config a k c s i :
  ofRunner (AlarmInv.configIs a k c) s ->
  ofRunner (AlarmInv.configIs a k c) (AlarmAutoArm.step s i).
Proof.
  intros H. destruct i; cbn [AlarmAutoArm.step]; apply preserves_exec; trivial;
    repeat (runner_frame
              ltac:(idtac; progress unfold AlarmAutoArm.start, AlarmAutoArm.stop,
                      AlarmAutoArm.fire, AlarmAutoArm.initializeState,
                      AlarmAutoArm.checkAndArm, AlarmAutoArm.pollAlarm,
                      AlarmAutoArm.checkCooldown, AlarmAutoArm.armAlarmWithValidation,
                      AlarmAutoArm.armFallback, AlarmAutoArm.verifyArmStatus,
                      AlarmAutoArm.addStateHistory)).
Qed.

(** ** The scheduled-window runner and its timers *)

Module AlarmTimers.
Import AlarmAutoArm AlarmSpec AlarmLaws AlarmFacts AlarmInv.

(** A poll below the error limit. *)
Lemma alarm_poll_fields r w now fetch arm :
  errorCount r < maxErrors r ->
  let s' := Run.exec (checkAndArm now fetch arm) (r, w) in
  isRunning (fst s') = isRunning r /\
  checkInterval (fst s') = checkInterval r /\
  (errorCount (fst s') = 0 \/ errorCount (fst s') = errorCount r + 1) /\
  exists more,
    timers (snd s') = timers w ++ more /\
    Forall (fun t => callback t = VerifyArm) more.
Proof.
  intros Hg s'. subst s'.
  pose proof (proj2 (AlarmSends.alarm_poll_sends r w now fetch arm) Hg) as Ht.
  assert (Hmore : exists more,
            timers (snd (Run.exec (checkAndArm now fetch arm) (r, w)))
            = timers w ++ more /\ Forall (fun t => callback t = VerifyArm) more).
  { rewrite Ht. eexists. split; [reflexivity |].
    destruct fetch as [e | msg]; [| constructor].
    match goal with |- context [if ?b then _ else _] => destruct b end;
      repeat constructor. }
  destruct fetch as [e | msg].
  - destruct (alarm_poll_ok_effect r w now e arm Hg) as (He & _ & Hr & Hc & _).
    repeat split; auto.
  - rewrite (alarm_poll_failed r w now msg arm Hg) in *. cbn in *.
    repeat split; auto.
Qed.

(** A poll at the error limit leaves the counter alone. *)
Lemma alarm_poll_limit_count r w now fetch arm :
  maxErrors r <= errorCount r ->
  errorCount (fst (Run.exec (checkAndArm now fetch arm) (r, w))) = errorCount r.
Proof.
  intros Hlim. apply Z.leb_le in Hlim. open_runner r.
  unfold checkAndArm, stop. unfold_run. cbn. rewrite Hlim.
  destruct running, interval; reflexivity.
Qed.

Lemma alarm_start_running now init fetch arm r w :
  isRunning r = true -> Run.exec (start now init fetch arm) (r, w) = (r, w).
Proof. intros Hrun. unfold start. unfold_run. rewrite Hrun. reflexivity. Qed.

(** [start] on a runner that is not running. *)
Lemma alarm_start_effect now init fetch arm r w :
  isRunning r = false -> 0 < maxErrors r ->
  let s' := Run.exec (start now init fetch arm) (r, w) in
  isRunning (fst s') = true /\
  checkInterval (fst s') = Some (nextHandle w) /\
  0 <= errorCount (fst s') <= 1 /\
  exists more,
    timers (snd s') = timers w ++ pollTimer (nextHandle w) :: more /\
    Forall (fun t => callback t = VerifyArm) more.
Proof.
  intros Hrun Hmax. open_runner r. subst running.
  unfold start, initializeState, addStateHistory. unfold_run.
  cbn -[checkAndArm].
  destruct init as [e | msg]; cbn -[checkAndArm].
  all: match goal with
       | |- context [checkAndArm ?n ?f ?a (?r2, ?w2)] =>
           destruct (alarm_poll_fields r2 w2 n f a) as (Hr & Hc & He & more & Ht & Hk);
           [cbn; lia |];
           unfold Run.exec in Hr, Hc, He, Ht;
           destruct (checkAndArm n f a (r2, w2)) as [[[] | err] [r3 w3]]
       end; cbn in Hr, Hc, He, Ht |- *; rewrite Hr, Hc, Ht;
       (repeat split; trivial; [lia | lia |]);
       exists more; rewrite <- app_assoc; split; trivial.
Qed.

Lemma In_removeTimer h t ts :
  In t (removeTimer h ts) <-> In t ts /\ handle t <> h.
Proof.
  unfold removeTimer. rewrite filter_In. split; intros [Hin Hne]; split; trivial.
  - intros Heq. rewrite Heq, Pos.eqb_refl in Hne. discriminate.
  - apply negb_true_iff, Pos.eqb_neq, Hne.
Qed.

(** The four ways a step can change what the invariant speaks of. *)
Lemma alarm_agree_unchanged r w s' more :
  timersAgree (r, w) ->
  handlesFresh (snd s') -> maxErrors (fst s') = maxErrors r ->
  isRunning (fst s') = isRunning r -> checkInterval (fst s') = checkInterval r ->
  timers (snd s') = timers w ++ more ->
  Forall (fun t => callback t = VerifyArm) more ->
  timersAgree s'.
Proof.
  intros [_ Hrun Hstop Hpoll Hkinds Hlim] Hfresh Hmax Hr Hc Ht Hmore.
  cbn [fst snd] in *. rewrite Forall_forall in Hmore.
  constructor; rewrite ?Hr, ?Hc, ?Ht, ?Hmax; trivial.
  - intros Hon. destruct (Hrun Hon) as (h & Hh & Hin).
    exists h. split; trivial. apply in_or_app. left. exact Hin.
  - intros t Hin Hcb. apply in_app_or in Hin as [Hin | Hin]; auto.
    rewrite (Hmore t Hin) in Hcb. discriminate.
  - intros t Hin. apply in_app_or in Hin as [Hin | Hin]; auto.
Qed.

Lemma alarm_agree_stopped r w s' :
  timersAgree (r, w) ->
  handlesFresh (snd s') -> maxErrors (fst s') = maxErrors r ->
  isRunning (fst s') = false -> checkInterval (fst s') = None ->
  timers (snd s') = clearHandle (checkInterval r) (timers w) ->
  timersAgree s'.
Proof.
  intros [_ Hrun Hstop Hpoll Hkinds Hlim] Hfresh Hmax Hr Hc Ht.
  cbn [fst snd] in *.
  constructor; rewrite ?Hr, ?Hc, ?Ht, ?Hmax; trivial.
  - discriminate.
  - intros t Hin Hcb. apply MotionTimers.In_clearHandle in Hin as [Hin Hne].
    destruct Hne. auto.
  - intros t Hin. apply MotionTimers.In_clearHandle in Hin as [Hin _]. auto.
Qed.

Lemma alarm_agree_verified r w s' t :
  timersAgree (r, w) ->
  In t (timers w) -> callback t = VerifyArm ->
  handlesFresh (snd s') -> maxErrors (fst s') = maxErrors r ->
  isRunning (fst s') = isRunning r -> checkInterval (fst s') = checkInterval r ->
  timers (snd s') = removeTimer (handle t) (timers w) ->
  timersAgree s'.
Proof.
  intros [Hold Hrun Hstop Hpoll Hkinds Hlim] Hin Hcb Hfresh Hmax Hr Hc Ht.
  cbn [fst snd] in *.
  constructor; rewrite ?Hr, ?Hc, ?Ht, ?Hmax; trivial.
  - intros Hon. destruct (Hrun Hon) as (h & Hh & Hp).
    exists h. split; trivial. apply In_removeTimer. split; trivial.
    intros Heq. pose proof (fresh_same_handle w _ _ Hold Hp Hin Heq) as Habs.
    rewrite <- Habs in Hcb. discriminate.
  - intros x Hx. apply In_removeTimer in Hx as [Hx _]. auto.
  - intros x Hx. apply In_removeTimer in Hx as [Hx _]. auto.
Qed.

Lemma alarm_agree_started r w s' more :
  timersAgree (r, w) -> isRunning r = false ->
  handlesFresh (snd s') -> maxErrors (fst s') = maxErrors r ->
  isRunning (fst s') = true -> checkInterval (fst s') = Some (nextHandle w) ->
  timers (snd s') = timers w ++ pollTimer (nextHandle w) :: more ->
  Forall (fun t => callback t = VerifyArm) more ->
  timersAgree s'.
Proof.
  intros [_ Hrun Hstop Hpoll Hkinds Hlim] Hoff Hfresh Hmax Hr Hc Ht Hmore.
  cbn [fst snd] in *. rewrite Forall_forall in Hmore.
  constructor; rewrite ?Hr, ?Hc, ?Ht, ?Hmax; trivial.
  - intros _. exists (nextHandle w). split; trivial.
    apply in_or_app. right. left. reflexivity.
  - discriminate.
  - intros t Hin Hcb. apply in_app_or in Hin as [Hin | [<- | Hin]].
    + rewrite (Hstop Hoff) in Hpoll. specialize (Hpoll t Hin Hcb). discriminate.
    + reflexivity.
    + rewrite (Hmore t Hin) in Hcb. discriminate.
  - intros t Hin. apply in_app_or in Hin as [Hin | [<- | Hin]]; auto.
Qed.

Lemma alarm_step_agree s i : timersAgree s -> timersAgree (step s i).
Proof.
  intros H.
  assert (Hfresh : handlesFresh (snd (step s i)))
    by (apply (alarm_step_fresh s i), (agree_fresh s H)).
  assert (Hmax : maxErrors (fst (step s i)) = maxErrors (fst s)).
  { apply (alarm_step_config (automation (fst s)) (maxErrors (fst s))
             (armCooldown (fst s)) s i).
    repeat split. }
  destruct s as [r w]. cbn [fst snd] in *.
  destruct i as [now init fetch arm | | h now answer arm]; cbn [step] in *.
  - destruct (isRunning r) eqn:Hrun.
    + rewrite alarm_start_running by exact Hrun. exact H.
    + destruct (alarm_start_effect now init fetch arm r w Hrun (agree_limit _ H))
        as (Hr & Hc & _ & more & Ht & Hmore).
      eapply (alarm_agree_started r w); eassumption.
  - destruct (isRunning r) eqn:Hrun.
    + revert Hfresh Hmax. rewrite (alarm_stop_running r w Hrun). intros Hfresh Hmax.
      eapply (alarm_agree_stopped r w); try eassumption; reflexivity.
    + unfold stop. unfold_run. cbn. rewrite Hrun. exact H.
  - destruct (findTimer h w) as [t |] eqn:Hf.
    2: { unfold fire. unfold_run. rewrite Hf. exact H. }
    destruct (MotionTimers.findTimer_In h w t Hf) as [Hin Hh].
    destruct (callback t) eqn:Hcb.
    + assert (Hrun : isRunning r = true).
      { destruct (isRunning r) eqn:Hrun; trivial.
        pose proof (agree_poll _ H t Hin Hcb) as Hp.
        rewrite (agree_stopped _ H Hrun) in Hp. discriminate. }
      revert Hfresh Hmax. rewrite (alarm_fire_poll h t) by assumption.
      intros Hfresh Hmax.
      destruct (Z.leb_spec (maxErrors r) (errorCount r)) as [Hlim | Hg].
      * revert Hfresh Hmax. rewrite (alarm_poll_at_limit r w now answer arm Hlim Hrun).
        intros Hfresh Hmax.
        eapply (alarm_agree_stopped r w); try eassumption; reflexivity.
      * destruct (alarm_poll_fields r w now answer arm Hg)
          as (Hr & Hc & _ & more & Ht & Hmore).
        eapply (alarm_agree_unchanged r w); eassumption.
    + destruct (agree_kinds _ H t Hin) as [Habs | Habs];
        rewrite Hcb in Habs; discriminate.
    + revert Hfresh Hmax. rewrite (fire_verify h t) by assumption.
      intros Hfresh Hmax.
      destruct (verify_effect h now answer r w) as (_ & hist & Hr).
      eapply (alarm_agree_verified r w _ t); try eassumption.
      * rewrite Hr. reflexivity.
      * rewrite Hr. reflexivity.
      * rewrite Hh. unfold verifyArmStatus, addStateHistory. unfold_run.
        destruct answer as [e | msg]; cbn; [| reflexivity].
        destruct (String.eqb (state e) "armed_away" || String.eqb (state e) "armed_home");
          [| destruct (String.eqb (state e) "pending")]; reflexivity.
Qed.

Lemma alarm_initial_agree a : timersAgree (initial a).
Proof.
  constructor; cbn; try discriminate; try (intros t []); trivial; try lia.
  split; constructor.
Qed.

Lemma alarm_run_agree inputs :
  forall s, timersAgree s -> timersAgree (run s inputs).
Proof.
  induction inputs as [| i rest IH]; intros s H; cbn; trivial.
  apply IH, alarm_step_agree, H.
Qed.

End AlarmTimers.

(** In every state the scheduled-window runner reaches from its constructor,
    the runner and the timer table agree.  [getDebugInfo] reports
    [checkIntervalActive] exactly when [isRunning]; a running runner holds
    the handle of a 30-second interval that is in the table and runs the
    poll; while the runner is not running the table holds no poll interval,
    only verifications that were pending when it stopped. *)
Theorem alarm_interval_while_running a inputs :
  let s := AlarmAutoArm.run (AlarmAutoArm.initial a) inputs in
  (forall now,
     AlarmAutoArmDebug.checkIntervalActive (AlarmAutoArmDebug.getDebugInfo now (fst s))
     = AlarmAutoArm.isRunning (fst s)) /\
  (AlarmAutoArm.isRunning (fst s) = true ->
   exists h,
     AlarmAutoArm.checkInterval (fst s) = Some h /\
     findTimer h (snd s) = Some (mkTimer h PollTick 30000 true)) /\
  (AlarmAutoArm.isRunning (fst s) = false ->
   forall t, In t (timers (snd s)) -> callback t = VerifyArm).
Proof.
  intros s.
  assert (H : AlarmInv.timersAgree s)
    by (apply AlarmTimers.alarm_run_agree, AlarmTimers.alarm_initial_agree).
  destruct H as [Hfresh Hrun Hstop Hpoll Hkinds _].
  split; [| split].
  - intros now. cbn. destruct (AlarmAutoArm.isRunning (fst s)) eqn:Hr.
    + destruct (Hrun eq_refl) as (h & -> & _). reflexivity.
    + rewrite (Hstop eq_refl). reflexivity.
  - intros Hr. destruct (Hrun Hr) as (h & Hh & Hin). exists h. split; trivial.
    apply (fresh_find (snd s) (AlarmInv.pollTimer h) Hfresh Hin).
  - intros Hr t Hin. destruct (Hkinds t Hin) as [Hcb | Hcb]; trivial.
    specialize (Hpoll t Hin Hcb). rewrite (Hstop Hr) in Hpoll. discriminate.
Qed.

Lemma alarm_interval_while_running_witness :
  exists h,
    AlarmAutoArm.checkInterval (fst Demo.alarmArmed) = Some h /\
    findTimer h (snd Demo.alarmArmed) = Some (mkTimer h PollTick 30000 true).
Proof.
  apply (proj1 (proj2 (alarm_interval_while_running Demo.alarm
                         [AlarmAutoArm.CallStart Demo.at_21_05 (Demo.hub "disarmed")
                            (Demo.hub "disarmed") Demo.armsFine]))).
  reflexivity.
Defined.

(** ** The edge-triggered runner and its timers, for any sensor *)

Module MotionAgree.
Import MotionLight MotionSpec MotionLaws MotionFacts MotionInv.

(** A step that adds no timer and keeps the poll interval. *)
Lemma motion_agree_shrunk r w s' :
  timersAgree (r, w) ->
  handlesFresh (snd s') -> maxErrors (fst s') = maxErrors r ->
  isRunning (fst s') = isRunning r -> pollInterval (fst s') = pollInterval r ->
  timeoutId (fst s') = timeoutId r \/ timeoutId (fst s') = None ->
  (forall t, In t (timers (snd s')) -> In t (timers w)) ->
  (forall h, pollInterval r = Some h -> In (pollTimer h) (timers w) ->
             In (pollTimer h) (timers (snd s'))) ->
  timersAgree s'.
Proof.
  intros [_ Hrun Hstop Hpoll Hkinds Hto Hlim] Hfresh Hmax Hr Hp Hid Hsub Hkeep.
  cbn [fst snd] in *.
  constructor; rewrite ?Hr, ?Hp, ?Hmax; trivial.
  - intros Hon. destruct (Hrun Hon) as (h & Hh & Hin). exists h. split; auto.
  - intros Hoff. destruct (Hstop Hoff) as [Hnone Hnoto]. split; trivial.
    destruct Hid as [-> | ->]; trivial.
  - intros t Hin. auto.
  - intros t Hin. auto.
  - intros h Hh. destruct Hid as [Hid | Hid]; rewrite Hid in Hh; [auto | discriminate].
Qed.

Lemma motion_agree_stopped r w s' :
  timersAgree (r, w) ->
  handlesFresh (snd s') -> maxErrors (fst s') = maxErrors r ->
  isRunning (fst s') = false -> pollInterval (fst s') = None ->
  timeoutId (fst s') = None ->
  timers (snd s') = clearHandle (timeoutId r) (clearHandle (pollInterval r) (timers w)) ->
  timersAgree s'.
Proof.
  intros [_ Hrun Hstop Hpoll Hkinds Hto Hlim] Hfresh Hmax Hr Hp Hid Ht.
  cbn [fst snd] in *.
  constructor; rewrite ?Hr, ?Hp, ?Hid, ?Ht, ?Hmax; trivial; try discriminate.
  - split; reflexivity.
  - intros t Hin Hcb. apply MotionTimers.In_clearHandle in Hin as [Hin _].
    apply MotionTimers.In_clearHandle in Hin as [Hin Hne]. destruct Hne. auto.
  - intros t Hin. apply MotionTimers.In_clearHandle in Hin as [Hin _].
    apply MotionTimers.In_clearHandle in Hin as [Hin _]. auto.
Qed.

Lemma motion_agree_countdown r w s' c d :
  timersAgree (r, w) -> isRunning r = true ->
  handlesFresh (snd s') -> maxErrors (fst s') = maxErrors r ->
  isRunning (fst s') = isRunning r -> pollInterval (fst s') = pollInterval r ->
  timeoutId (fst s') = Some (nextHandle w) ->
  timers (snd s') = timers w ++ [mkTimer (nextHandle w) c d false] ->
  isCountdown (mkTimer (nextHandle w) c d false) = true ->
  timersAgree s'.
Proof.
  intros [[_ Hlt] Hrun Hstop Hpoll Hkinds Hto Hlim] Hon Hfresh Hmax Hr Hp Hid Ht Hcd.
  cbn [fst snd] in *. unfold isCountdown in Hcd. cbn in Hcd.
  constructor; rewrite ?Hr, ?Hp, ?Hid, ?Ht, ?Hmax; trivial.
  - intros _. destruct (Hrun Hon) as (h & Hh & Hin). exists h. split; trivial.
    apply in_or_app. left. exact Hin.
  - rewrite Hon. discriminate.
  - intros t Hin Hcb. apply in_app_or in Hin as [Hin | [<- | []]]; auto.
    cbn in Hcb. rewrite Hcb in Hcd. discriminate.
  - intros t Hin. apply in_app_or in Hin as [Hin | [<- | []]]; auto.
    cbn. intros Hcb. rewrite Hcb in Hcd. discriminate.
  - intros h [= <-]. destruct (Hrun Hon) as (hp & Hh & Hin). rewrite Hh.
    intros [= ->]. rewrite Forall_forall in Hlt. specialize (Hlt _ Hin).
    cbn in Hlt. lia.
Qed.

Lemma motion_agree_started r w s' :
  timersAgree (r, w) -> isRunning r = false ->
  handlesFresh (snd s') -> maxErrors (fst s') = maxErrors r ->
  isRunning (fst s') = true -> pollInterval (fst s') = Some (nextHandle w) ->
  timeoutId (fst s') = timeoutId r ->
  timers (snd s') = timers w ++ [pollTimer (nextHandle w)] ->
  timersAgree s'.
Proof.
  intros [_ Hrun Hstop Hpoll Hkinds Hto Hlim] Hoff Hfresh Hmax Hr Hp Hid Ht.
  cbn [fst snd] in *. destruct (Hstop Hoff) as [Hnone Hnoto].
  constructor; rewrite ?Hr, ?Hp, ?Hid, ?Ht, ?Hmax; trivial; try discriminate.
  - intros _. exists (nextHandle w). split; trivial.
    apply in_or_app. right. left. reflexivity.
  - intros t Hin Hcb. apply in_app_or in Hin as [Hin | [<- | []]]; [| reflexivity].
    rewrite Hnone in Hpoll. specialize (Hpoll t Hin Hcb). discriminate.
  - intros t Hin. apply in_app_or in Hin as [Hin | [<- | []]]; auto. discriminate.
  - rewrite Hnoto. discriminate.
Qed.

Lemma motion_step_agree s i : timersAgree s -> timersAgree (step s i).
Proof.
  intros H.
  assert (Hfresh : handlesFresh (snd (step s i)))
    by (apply (motion_step_fresh s i), (agree_fresh s H)).
  assert (Hmax : maxErrors (fst (step s i)) = maxErrors (fst s)).
  { apply (MotionSends.motion_step_config (automation (fst s)) (maxErrors (fst s)) s i).
    split; reflexivity. }
  destruct s as [r w]. cbn [fst snd] in *.
  destruct i as [now init | | h now answer act]; cbn [step] in *.
  - destruct (isRunning r) eqn:Hrun.
    + rewrite MotionSends.motion_start_running by exact Hrun. exact H.
    + destruct (MotionSends.motion_start_effect now init r w Hrun)
        as (Hr & _ & Hp & Hid & _ & Ht & _).
      eapply (motion_agree_started r w); eassumption.
  - destruct (isRunning r) eqn:Hrun.
    + revert Hfresh Hmax. rewrite (motion_stop_running r w Hrun). intros Hfresh Hmax.
      eapply (motion_agree_stopped r w); try eassumption; reflexivity.
    + unfold stop. unfold_run. cbn. rewrite Hrun. exact H.
  - destruct (findTimer h w) as [t |] eqn:Hf.
    2: { unfold fire. unfold_run. rewrite Hf. exact H. }
    destruct (MotionTimers.findTimer_In h w t Hf) as [Hin Hh].
    destruct (callback t) as [| m l d |] eqn:Hcb.
    + assert (Hrun : isRunning r = true).
      { destruct (isRunning r) eqn:Hrun; trivial.
        pose proof (agree_poll _ H t Hin Hcb) as Hp.
        destruct (agree_stopped _ H Hrun) as [Hs _]. cbn [fst snd] in Hp, Hs.
        congruence. }
      revert Hfresh Hmax. rewrite (motion_fire_poll h t) by assumption.
      intros Hfresh Hmax.
      destruct (Z.leb_spec (maxErrors r) (errorCount r)) as [Hlim | Hg].
      * revert Hfresh Hmax.
        rewrite (motion_poll_at_limit r w now answer act Hlim Hrun).
        intros Hfresh Hmax.
        eapply (motion_agree_stopped r w); try eassumption; reflexivity.
      * destruct (MotionTimers.poll_timer_outcome r w now answer act Hg)
          as (Hr & Hp & Hout).
        destruct Hout as [(Ht & Hto & _) | [(e & _ & Ht & Hto & _)
                         | [(_ & Ht & Hto & _) | (c & d & _ & Ht & Hcd & Hto & _)]]].
        -- eapply (motion_agree_shrunk r w); try eassumption; auto;
             rewrite Ht; auto.
        -- eapply (motion_agree_shrunk r w); try eassumption; auto;
             rewrite Ht; auto.
        -- eapply (motion_agree_shrunk r w); try eassumption; auto; rewrite Ht.
           ++ intros x Hx. apply MotionTimers.In_clearHandle in Hx as [Hx _]. exact Hx.
           ++ intros hp Hhp Hp'. destruct (timeoutId r) as [ht |] eqn:Hid; cbn; trivial.
              apply AlarmTimers.In_removeTimer. split; trivial. cbn.
              intros <-. apply (agree_timeout _ H hp); assumption.
        -- eapply (motion_agree_countdown r w); eassumption.
    + revert Hfresh Hmax.
      rewrite (MotionSends.motion_fire_countdown h t r w now answer act m l d)
        by assumption.
      intros Hfresh Hmax.
      match goal with
      | |- context [Run.exec (countdownCallback ?n ?m ?l ?d ?x ?y) (r, ?w1)] =>
          destruct (countdown_effect r w1 m l d n x y)
            as (_ & _ & _ & Hr & Hp & Hto & Ht & _)
      end.
      cbn [timers] in Ht.
      eapply (motion_agree_shrunk r w); try eassumption; auto; rewrite Ht.
      * intros x Hx. apply AlarmTimers.In_removeTimer in Hx as [Hx _]. exact Hx.
      * intros hp Hhp Hp'. apply AlarmTimers.In_removeTimer. split; trivial. cbn.
        intros <-. rewrite <- Hh in Hp'.
        pose proof (fresh_same_handle w _ _ (agree_fresh _ H) Hp' Hin) as Habs.
        cbn in Habs. rewrite <- Habs in Hcb; [discriminate | reflexivity].
    + destruct (agree_kinds _ H t Hin Hcb).
Qed.

Lemma motion_initial_agree a : timersAgree (initial a).
Proof.
  constructor; cbn; try discriminate; try (intros t []); trivial; try lia.
  - split; constructor.
  - split; reflexivity.
Qed.

Lemma motion_run_agree inputs :
  forall s, timersAgree s -> timersAgree (run s inputs).
Proof.
  induction inputs as [| i rest IH]; intros s H; cbn; trivial.
  apply IH, motion_step_agree, H.
Qed.

End MotionAgree.

(** In every state the edge-triggered runner reaches from its constructor,
    for any sensor states, the runner and the timer table agree.
    [getDebugInfo] reports [pollIntervalActive] exactly when [isRunning]; a
    running runner holds the handle of a 750 ms interval that is in the table
    and runs the poll; while the runner is not running the table holds no
    poll interval, only countdowns.  The history shown by [getDebugInfo] is
    the newest 10 entries in their order, all of them when there are fewer. *)
Theorem motion_interval_while_running a inputs :
  let s := MotionLight.run (MotionLight.initial a) inputs in
  let info := MotionLightDebug.getDebugInfo (fst s) in
  MotionLightDebug.pollIntervalActive info = MotionLightDebug.isRunning info /\
  (MotionLight.isRunning (fst s) = true ->
   exists h,
     MotionLight.pollInterval (fst s) = Some h /\
     findTimer h (snd s) = Some (mkTimer h PollTick 750 true)) /\
  (MotionLight.isRunning (fst s) = false ->
   forall t, In t (timers (snd s)) -> MotionSpec.isCountdown t = true) /\
  (List.length (MotionLightDebug.stateHistory info)
   = Nat.min 10 (List.length (MotionLight.stateHistory (fst s))))%nat /\
  (exists older,
     MotionLight.stateHistory (fst s) = older ++ MotionLightDebug.stateHistory info).
Proof.
  intros s info. subst info.
  assert (H : MotionInv.timersAgree s)
    by (apply MotionAgree.motion_run_agree, MotionAgree.motion_initial_agree).
  destruct H as [Hfresh Hrun Hstop Hpoll Hkinds _ _].
  cbn [MotionLightDebug.getDebugInfo MotionLightDebug.pollIntervalActive
       MotionLightDebug.isRunning MotionLightDebug.hasTimeout
       MotionLightDebug.stateHistory].
  split; [| split; [| split; [| split]]].
  - destruct (MotionLight.isRunning (fst s)) eqn:Hr.
    + destruct (Hrun eq_refl) as (h & -> & _). reflexivity.
    + destruct (Hstop eq_refl) as [-> _]. reflexivity.
  - intros Hr. destruct (Hrun Hr) as (h & Hh & Hin). exists h. split; trivial.
    apply (fresh_find (snd s) (MotionInv.pollTimer h) Hfresh Hin).
  - intros Hr t Hin. unfold MotionSpec.isCountdown.
    destruct (callback t) eqn:Hcb; trivial.
    + specialize (Hpoll t Hin Hcb). destruct (Hstop Hr) as [Hnone _].
      rewrite Hnone in Hpoll. discriminate.
    + destruct (Hkinds t Hin Hcb).
  - apply slice_last_length.
  - exists (firstn (List.length (MotionLight.stateHistory (fst s)) - 10)
              (MotionLight.stateHistory (fst s))).
    unfold slice_last. symmetry. apply firstn_skipn.
Qed.

Lemma motion_interval_while_running_witness :
  exists h,
    MotionLight.pollInterval (fst Demo.hallCounting) = Some h /\
    findTimer h (snd Demo.hallCounting) = Some (mkTimer h PollTick 750 true).
Proof.
  apply (proj1 (proj2 (motion_interval_while_running Demo.hall
                         [MotionLight.CallStart 0 (Demo.hub "on");
                          MotionLight.Fire 1 750 (Demo.hub "off") (Ok tt)]))).
  reflexivity.
Defined.

(** ** Starting *)

Module Starting.
Import StartLaws.

Lemma pollRequests_fields r r' now fetch arm :
  AlarmAutoArm.maxErrors r' = AlarmAutoArm.maxErrors r ->
  AlarmAutoArm.errorCount r' = AlarmAutoArm.errorCount r ->
  AlarmAutoArm.lastArmAttempt r' = AlarmAutoArm.lastArmAttempt r ->
  AlarmAutoArm.armCooldown r' = AlarmAutoArm.armCooldown r ->
  AlarmLaws.pollRequests r' now fetch arm = AlarmLaws.pollRequests r now fetch arm.
Proof.
  intros Hm He Hl Hc. unfold AlarmLaws.pollRequests, AlarmSpec.cooling.
  rewrite Hm, He, Hl, Hc. reflexivity.
Qed.

(** Polls of a runner that lacks an entity, below the limit. *)
Lemma motion_misconfigured_polls h t ps :
  forall r w,
    MotionLight.configured
      (MotionLight.motion_entity (MotionLight.settings (MotionLight.automation r))) = None \/
    MotionLight.configured
      (MotionLight.light_entity (MotionLight.settings (MotionLight.automation r))) = None ->
    MotionLight.errorCount r + Z.of_nat (List.length ps) <= MotionLight.maxErrors r ->
    findTimer h w = Some t -> callback t = PollTick ->
    let s' := MotionLight.run (r, w) (MotionSpec.ticks h ps) in
    MotionLight.errorCount (fst s')
    = MotionLight.errorCount r + Z.of_nat (List.length ps) /\
    MotionLight.isRunning (fst s') = MotionLight.isRunning r /\
    MotionLight.pollInterval (fst s') = MotionLight.pollInterval r /\
    MotionLight.timeoutId (fst s') = MotionLight.timeoutId r /\
    MotionLight.maxErrors (fst s') = MotionLight.maxErrors r /\
    MotionLight.automation (fst s') = MotionLight.automation r /\
    snd s' = MotionSpec.addEvents (misconfiguredEvents r (List.length ps)) w.
Proof.
  induction ps as [| [[now fetch] act] ps IH]; intros r w Hmis Hle Hf Hc; cbn.
  - repeat split; try lia. destruct w; unfold MotionSpec.addEvents; cbn.
    rewrite app_nil_r. reflexivity.
  - cbn [List.length] in Hle.
    rewrite (MotionFacts.motion_fire_poll h t) by assumption.
    rewrite (MotionSends.motion_poll_misconfigured r w now fetch act) by (trivial; lia).
    match goal with
    | |- context [fold_left MotionLight.step _ (?r', ?w')] =>
        destruct (IH r' w') as (He & Hr & Hpi & Hto & Hmx & Ha & Hw)
    end.
    + exact Hmis.
    + change (MotionLight.errorCount r + 1 + Z.of_nat (List.length ps)
              <= MotionLight.maxErrors r). lia.
    + exact Hf.
    + exact Hc.
    + unfold MotionLight.run, MotionSpec.ticks in *.
      rewrite He, Hr, Hpi, Hto, Hmx, Ha, Hw. cbn.
      repeat split; try lia.
      unfold MotionSpec.addEvents, misconfiguredEvents, MotionLaws.misconfiguredEvent.
      cbn. rewrite <- app_assoc. reflexivity.
Qed.

End Starting.

(** [start] is idempotent.  On a runner that is running it returns at once
    and changes nothing, in both runners, so that calling it twice in a row
    is calling it once: no second interval is set. *)
Theorem start_is_idempotent :
  (forall now init r w,
     MotionLight.isRunning r = true ->
     Run.exec (MotionLight.start now init) (r, w) = (r, w)) /\
  (forall now init fetch arm r w,
     AlarmAutoArm.isRunning r = true ->
     Run.exec (AlarmAutoArm.start now init fetch arm) (r, w) = (r, w)) /\
  (forall s now1 init1 now2 init2,
     MotionLight.run s [MotionLight.CallStart now1 init1; MotionLight.CallStart now2 init2]
     = MotionLight.run s [MotionLight.CallStart now1 init1]) /\
  (forall s now1 init1 fetch1 arm1 now2 init2 fetch2 arm2,
     0 < AlarmAutoArm.maxErrors (fst s) ->
     AlarmAutoArm.run s [AlarmAutoArm.CallStart now1 init1 fetch1 arm1;
                         AlarmAutoArm.CallStart now2 init2 fetch2 arm2]
     = AlarmAutoArm.run s [AlarmAutoArm.CallStart now1 init1 fetch1 arm1]).
Proof.
  split; [| split; [| split]].
  - intros. apply MotionSends.motion_start_running. assumption.
  - intros. apply AlarmTimers.alarm_start_running. assumption.
  - intros [r w] now1 init1 now2 init2. cbn.
    assert (Hrun : MotionLight.isRunning
                     (fst (Run.exec (MotionLight.start now1 init1) (r, w))) = true).
    { destruct (MotionLight.isRunning r) eqn:Hr.
      - rewrite MotionSends.motion_start_running; trivial.
      - apply (MotionSends.motion_start_effect now1 init1 r w Hr). }
    destruct (Run.exec (MotionLight.start now1 init1) (r, w)) as [r1 w1].
    apply MotionSends.motion_start_running. exact Hrun.
  - intros [r w] now1 init1 fetch1 arm1 now2 init2 fetch2 arm2 Hmax. cbn in *.
    assert (Hrun : AlarmAutoArm.isRunning
                     (fst (Run.exec (AlarmAutoArm.start now1 init1 fetch1 arm1) (r, w)))
                   = true).
    { destruct (AlarmAutoArm.isRunning r) eqn:Hr.
      - rewrite AlarmTimers.alarm_start_running; trivial.
      - apply (AlarmTimers.alarm_start_effect now1 init1 fetch1 arm1 r w Hr Hmax). }
    destruct (Run.exec (AlarmAutoArm.start now1 init1 fetch1 arm1) (r, w)) as [r1 w1].
    apply AlarmTimers.alarm_start_running. exact Hrun.
Qed.

Lemma start_is_idempotent_witness :
  Run.exec (MotionLight.start 5 (Demo.hub "on")) Demo.hallOff = Demo.hallOff.
Proof.
  apply (proj1 start_is_idempotent 5 (Demo.hub "on") (fst Demo.hallOff)
           (snd Demo.hallOff)).
  reflexivity.
Defined.

(** [start] of the edge-triggered runner on a runner that is not running.  It
    sets [isRunning], puts the error counter at 0, enters one repeating
    750 ms timer in the table and keeps its handle, and asks once for the
    motion entity.  A failed or impossible initialisation does not undo the
    start: the failure is logged, the runner runs with the last state it
    had, and the [started] event follows. *)
Theorem motion_start_outcome now init r w :
  MotionLight.isRunning r = false ->
  let s' := Run.exec (MotionLight.start now init) (r, w) in
  let asked :=
    MotionLight.configured
      (MotionLight.motion_entity (MotionLight.settings (MotionLight.automation r))) in
  MotionLight.isRunning (fst s') = true /\
  MotionLight.errorCount (fst s') = 0 /\
  MotionLight.pollInterval (fst s') = Some (nextHandle w) /\
  MotionLight.timeoutId (fst s') = MotionLight.timeoutId r /\
  MotionLight.lastMotionState (fst s') =
    match asked, init with
    | Some _, Ok e => Some (state e)
    | _, _ => MotionLight.lastMotionState r
    end /\
  timers (snd s') = timers w ++ [mkTimer (nextHandle w) PollTick 750 true] /\
  nextHandle (snd s') = Pos.succ (nextHandle w) /\
  apiCalls (snd s') =
    apiCalls w ++ match asked with Some m => [GetState m] | None => [] end /\
  map event_type (eventLog (snd s')) =
    map event_type (eventLog w) ++
    match asked, init with
    | Some _, Ok _ => ["started"]
    | _, _ => ["error"; "started"]
    end /\
  triggerCountUpdates (snd s') = triggerCountUpdates w /\
  MotionLight.consecutiveSuccesses (fst s') = MotionLight.consecutiveSuccesses r.
Proof. intros Hrun. apply MotionSends.motion_start_effect. exact Hrun. Qed.

Lemma motion_start_outcome_witness :
  MotionLight.lastMotionState
    (fst (Run.exec (MotionLight.start 0 (Err "timeout")) (MotionLight.initial Demo.hall)))
  = None.
Proof.
  apply (motion_start_outcome 0 (Err "timeout") (MotionLight.constructor Demo.hall)
           emptyWorld).
  reflexivity.
Defined.

(** [start] of the scheduled-window runner on a runner that is not running.
    It sets [isRunning], enters one repeating 30-second timer in the table
    and keeps its handle, asks for the panel state, and runs a first poll at
    once: the requests of that poll follow, so a disarmed panel inside the
    window is armed before [start] returns.  The error counter ends at 0 or
    1, and any timer added besides the interval is a verification. *)
Theorem alarm_start_outcome now init fetch arm r w :
  AlarmAutoArm.isRunning r = false -> 0 < AlarmAutoArm.maxErrors r ->
  let s' := Run.exec (AlarmAutoArm.start now init fetch arm) (r, w) in
  AlarmAutoArm.isRunning (fst s') = true /\
  AlarmAutoArm.checkInterval (fst s') = Some (nextHandle w) /\
  0 <= AlarmAutoArm.errorCount (fst s') <= 1 /\
  (exists more,
     timers (snd s') = timers w ++ mkTimer (nextHandle w) PollTick 30000 true :: more /\
     Forall (fun t => callback t = VerifyArm) more) /\
  apiCalls (snd s') =
    apiCalls w ++
    GetState AlarmAutoArm.panel ::
    AlarmLaws.pollRequests (AlarmAutoArm.set_errorCount 0 r) now fetch arm.
Proof.
  intros Hrun Hmax s'. subst s'.
  destruct (AlarmTimers.alarm_start_effect now init fetch arm r w Hrun Hmax)
    as (Hr & Hc & He & Hmore).
  do 4 (split; [assumption |]).
  destruct (AlarmSends.alarm_start_sends now init fetch arm r w Hrun)
    as (r1 & -> & Hl & Hcd & He1 & Hm1).
  f_equal. f_equal. apply Starting.pollRequests_fields; trivial.
Qed.

Lemma alarm_start_outcome_witness :
  apiCalls
    (snd (Run.exec (AlarmAutoArm.start Demo.at_21_05 (Demo.hub "disarmed")
                      (Demo.hub "disarmed") Demo.armsFine)
            (AlarmAutoArm.initial Demo.alarm)))
  = [GetState AlarmAutoArm.panel; GetState AlarmAutoArm.panel;
     GetState AlarmAutoArm.panel; AlarmLaws.armAwayCall].
Proof.
  apply (proj2 (proj2 (proj2 (proj2
           (alarm_start_outcome Demo.at_21_05 (Demo.hub "disarmed") (Demo.hub "disarmed")
              Demo.armsFine (AlarmAutoArm.constructor Demo.alarm) emptyWorld
              eq_refl eq_refl))))).
Defined.

(** A runner whose settings lack the motion entity or the light counts every
    poll as an error and logs every one of them, without asking the hub.
    Ten polls after [start] the counter is at 10 with the runner still
    running; the eleventh poll stops it and empties the timer table. *)
Theorem misconfigured_runner_gives_up a now init ps now' answer act :
  MotionLight.configured (MotionLight.motion_entity (MotionLight.settings a)) = None \/
  MotionLight.configured (MotionLight.light_entity (MotionLight.settings a)) = None ->
  List.length ps = 10%nat ->
  let s0 := MotionLight.run (MotionLight.initial a) [MotionLight.CallStart now init] in
  let s10 := MotionLight.run s0 (MotionSpec.ticks 1 ps) in
  let s11 := MotionLight.run s10 [MotionLight.Fire 1 now' answer act] in
  MotionLight.errorCount (fst s10) = 10 /\
  MotionLight.isRunning (fst s10) = true /\
  eventLog (snd s10) =
    eventLog (snd s0) ++ repeat (MotionLaws.misconfiguredEvent (fst s0)) 10 /\
  apiCalls (snd s10) = apiCalls (snd s0) /\
  timers (snd s10) = [mkTimer 1 PollTick 750 true] /\
  MotionLight.isRunning (fst s11) = false /\
  timers (snd s11) = [] /\
  apiCalls (snd s11) = apiCalls (snd s0).
Proof.
  intros Hmis Hlen s0 s10 s11. subst s11 s10.
  assert (Hs0 : s0 = Run.exec (MotionLight.start now init)
                       (MotionLight.constructor a, emptyWorld)) by reflexivity.
  pose proof (MotionSends.motion_start_effect now init (MotionLight.constructor a)
                emptyWorld eq_refl) as Hst.
  cbv zeta in Hst. rewrite <- Hs0 in Hst.
  destruct Hst as (Hr0 & He0 & Hp0 & Hto0 & _ & Ht0 & _).
  destruct (MotionSends.motion_run_config a 10 [MotionLight.CallStart now init]
              (MotionLight.initial a)) as [Ha0 Hm0]; [split; reflexivity |].
  change (MotionLight.run (MotionLight.initial a) [MotionLight.CallStart now init])
    with s0 in Ha0, Hm0.
  clearbody s0. clear Hs0. destruct s0 as [r0 w0].
  cbn [fst snd] in *. cbn in Hp0, Hto0, Ht0.
  assert (Hf : findTimer 1 w0 = Some (mkTimer 1 PollTick 750 true))
    by (unfold findTimer; rewrite Ht0; reflexivity).
  destruct (Starting.motion_misconfigured_polls 1 (mkTimer 1 PollTick 750 true) ps r0 w0)
    as (He & Hr & Hpi & Hto & Hmx & Ha & Hw); trivial.
  { rewrite Ha0. exact Hmis. }
  { rewrite He0, Hm0, Hlen. cbn. lia. }
  set (s10 := MotionLight.run (r0, w0) (MotionSpec.ticks 1 ps)) in *.
  rewrite Hlen in He, Hw. rewrite He0 in He.
  change (MotionLight.run s10 [MotionLight.Fire 1 now' answer act])
    with (Run.exec (MotionLight.fire 1 now' answer act) s10).
  rewrite (MotionFacts.motion_fire_poll 1 (mkTimer 1 PollTick 750 true))
    by (rewrite ?Hw; trivial).
  clearbody s10. destruct s10 as [r10 w10]. cbn [fst snd] in *. subst w10.
  rewrite (MotionFacts.motion_poll_at_limit r10 _ now' answer act)
    by (rewrite ?Hmx, ?Hm0, ?He, ?Hr; trivial; lia).
  unfold StartLaws.misconfiguredEvents.
  cbn. rewrite Hpi, Hto, Hp0, Hto0, Ht0. cbn.
  repeat split; trivial. congruence.
Qed.

Lemma misconfigured_runner_gives_up_witness :
  let a := MotionLight.mkAutomation "a3" "porch"
             (MotionLight.mkSettings (Some "m1") None (Some 15)) in
  let s10 := MotionLight.run
               (MotionLight.run (MotionLight.initial a)
                  [MotionLight.CallStart 0 (Demo.hub "on")])
               (MotionSpec.ticks 1 (repeat (750, Demo.hub "on", Ok tt) 10)) in
  MotionLight.errorCount (fst s10) = 10 /\ MotionLight.isRunning (fst s10) = true.
Proof.
  intros a s10.
  destruct (misconfigured_runner_gives_up a 0 (Demo.hub "on")
              (repeat (750, Demo.hub "on", Ok tt) 10) 8250 (Demo.hub "on") (Ok tt))
    as (He & Hr & _).
  - right. reflexivity.
  - reflexivity.
  - split; [exact He | exact Hr].
Defined.

(** ** The two counters *)

Module Counters.
Import MotionLight.

Lemma countdown_keeps_successes k now m l d recheck turnOff :
  preserves (ofRunner (fun r => consecutiveSuccesses r = k))
    (countdownCallback now m l d recheck turnOff).
Proof.
  unfold countdownCallback.
  repeat (runner_frame ltac:(idtac; progress unfold addStateHistory)).
Qed.

Lemma motion_step_counters s i :
  0 <= consecutiveSuccesses (fst s) /\
  (errorCount (fst s) = 0 \/ consecutiveSuccesses (fst s) = 0) ->
  0 <= consecutiveSuccesses (fst (step s i)) /\
  (errorCount (fst (step s i)) = 0 \/ consecutiveSuccesses (fst (step s i)) = 0).
Proof.
  intros Hin. destruct s as [r w]. cbn [fst snd] in *.
  destruct i as [now init | | h now answer act]; cbn [step].
  - destruct (isRunning r) eqn:Hrun.
    + rewrite MotionSends.motion_start_running by exact Hrun. exact Hin.
    + destruct (MotionSends.motion_start_effect now init r w Hrun)
        as (_ & -> & _ & _ & _ & _ & _ & _ & _ & _ & ->).
      split; [apply Hin | left; reflexivity].
  - destruct (isRunning r) eqn:Hrun.
    + rewrite (MotionFacts.motion_stop_running r w Hrun). exact Hin.
    + unfold stop. unfold_run. cbn. rewrite Hrun. exact Hin.
  - destruct (findTimer h w) as [t |] eqn:Hf.
    2: { unfold fire. unfold_run. rewrite Hf. exact Hin. }
    destruct (callback t) as [| m l d |] eqn:Hcb.
    + rewrite (MotionFacts.motion_fire_poll h t) by assumption.
      destruct (MotionSends.motion_poll_summary r w now answer act)
        as (_ & [[-> ->] | [[-> ->] | (-> & -> & _)]] & _); [exact Hin | |];
        split; auto; lia.
    + rewrite (MotionSends.motion_fire_countdown h t r w now answer act m l d)
        by assumption.
      match goal with
      | |- context [Run.exec (countdownCallback ?n ?m ?l ?d ?x ?y) (r, ?w1)] =>
          destruct (MotionFacts.countdown_effect r w1 m l d n x y)
            as (_ & _ & -> & _);
          rewrite (countdown_keeps_successes (consecutiveSuccesses r) n m l d x y
                     (r, w1) eq_refl)
      end.
      exact Hin.
    + unfold fire. unfold_run. rewrite Hf, Hcb. exact Hin.
Qed.

End Counters.

(** The edge-triggered runner keeps two counters, of consecutive failed polls
    and of consecutive successful ones.  In every state reached from the
    constructor the success counter is not negative and at most one of the
    two is positive: a failure puts the success counter back to 0, a success
    the error counter. *)
Theorem counters_exclusive a inputs :
  let r := fst (MotionLight.run (MotionLight.initial a) inputs) in
  0 <= MotionLight.consecutiveSuccesses r /\
  (MotionLight.errorCount r = 0 \/ MotionLight.consecutiveSuccesses r = 0).
Proof.
  intros r. subst r.
  assert (H : forall s,
            0 <= MotionLight.consecutiveSuccesses (fst s) /\
            (MotionLight.errorCount (fst s) = 0 \/
             MotionLight.consecutiveSuccesses (fst s) = 0) ->
            0 <= MotionLight.consecutiveSuccesses (fst (MotionLight.run s inputs)) /\
            (MotionLight.errorCount (fst (MotionLight.run s inputs)) = 0 \/
             MotionLight.consecutiveSuccesses (fst (MotionLight.run s inputs)) = 0)).
  { induction inputs as [| i rest IH]; intros s Hs; cbn; trivial.
    apply IH, Counters.motion_step_counters, Hs. }
  apply H. cbn. split; [lia | left; reflexivity].
Qed.

(** ** What is written to the event log *)

Section OwnLog.
Context {R : Type}.
Variable idOf : R -> string.
Variable aid : string.

Lemma own_getRunner_bind {A} (k : R -> Run.M (S := Machine R) A) :
  (forall r, idOf r = aid -> preserves (keepsOwnLog idOf aid) (k r)) ->
  preserves (keepsOwnLog idOf aid) (Run.bind getRunner k).
Proof.
  intros Hk s H. unfold Run.bind, getRunner.
  apply (Hk (fst s)); [apply H | exact H].
Qed.

Lemma own_getWorld : preserves (keepsOwnLog idOf aid) getWorld.
Proof. intros s H. exact H. Qed.

Lemma own_onRunner f :
  (forall r, idOf (f r) = idOf r) -> preserves (keepsOwnLog idOf aid) (onRunner f).
Proof. intros Hf [r w] [Hid Hlog]. split; [cbn; rewrite Hf; exact Hid | exact Hlog]. Qed.

Lemma own_logEvent i t m :
  i = aid -> In t knownEventTypes ->
  preserves (keepsOwnLog idOf aid) (logEvent i t m).
Proof.
  intros -> Ht [r w] [Hid [Hev Htr]]. split; [exact Hid |]. split; [| exact Htr].
  cbn. apply Forall_app. split; [exact Hev |].
  constructor; [split; [reflexivity | exact Ht] | constructor].
Qed.

Lemma own_updateAutomationTriggerCount i :
  i = aid -> preserves (keepsOwnLog idOf aid) (updateAutomationTriggerCount i).
Proof.
  intros -> [r w] [Hid [Hev Htr]]. split; [exact Hid |]. split; [exact Hev |].
  cbn. apply Forall_app. split; [exact Htr | constructor; [reflexivity | constructor]].
Qed.

Lemma own_clearTimer h : preserves (keepsOwnLog idOf aid) (clearTimer h).
Proof. intros s H. exact H. Qed.

Lemma own_setTimer c d b : preserves (keepsOwnLog idOf aid) (setTimer c d b).
Proof. intros s H. exact H. Qed.

Lemma own_getHAEntityState e r :
  preserves (keepsOwnLog idOf aid) (getHAEntityState e r).
Proof.
  apply preserves_bind; [intros s H; exact H | intros; apply preserves_await].
Qed.

Lemma own_callHAService sv d e r :
  preserves (keepsOwnLog idOf aid) (callHAService sv d e r).
Proof.
  apply preserves_bind; [intros s H; exact H | intros; apply preserves_await].
Qed.
End OwnLog.

(** Through a method, with the runner read at its start known to be made
    for the automation. *)
Ltac own_frame methods :=
  lazymatch goal with
  | |- preserves _ (Run.bind getRunner _) =>
      apply own_getRunner_bind; let r := fresh "r" in let H := fresh "Hid" in intros r H
  | |- _ =>
      frame_step
        ltac:(idtac; lazymatch goal with
              | |- preserves _ getWorld => apply own_getWorld
              | |- preserves _ (logEvent _ _ _) =>
                  apply own_logEvent; [eassumption | cbn; tauto]
              | |- preserves _ (updateAutomationTriggerCount _) =>
                  apply own_updateAutomationTriggerCount; eassumption
              | |- preserves _ (clearTimer _) => apply own_clearTimer
              | |- preserves _ (getHAEntityState _ _) => apply own_getHAEntityState
              | |- preserves _ (callHAService _ _ _ _) => apply own_callHAService
              | |- preserves _ (setTimer _ _ _) => apply own_setTimer
              | |- preserves _ (setInterval _ _) => apply own_setTimer
              | |- preserves _ (setTimeout _ _) => apply own_setTimer
              | |- preserves _ (onRunner _) =>
                  apply own_onRunner; intros; reflexivity
              | |- _ => methods
              end)
  end.

Lemma motion_step_own aid s i :
  keepsOwnLog (fun r => MotionLight.id (MotionLight.automation r)) aid s ->
  keepsOwnLog (fun r => MotionLight.id (MotionLight.automation r)) aid
    (MotionLight.step s i).
Proof.
  intros H. destruct i; cbn [MotionLight.step]; apply preserves_exec; trivial;
    repeat (own_frame
              ltac:(idtac; progress unfold MotionLight.start, MotionLight.stop,
                      MotionLight.fire, MotionLight.initializeState,
                      MotionLight.checkMotionState, MotionLight.pollMotion,
                      MotionLight.motionDetected, MotionLight.motionStopped,
                      MotionLight.countdownCallback, MotionLight.addStateHistory)).
Qed.

Lemma alarm_step_own aid s i :
  keepsOwnLog (fun r => AlarmAutoArm.id (AlarmAutoArm.automation r)) aid s ->
  keepsOwnLog (fun r => AlarmAutoArm.id (AlarmAutoArm.automation r)) aid
    (AlarmAutoArm.step s i).
Proof.
  intros H. destruct i; cbn [AlarmAutoArm.step]; apply preserves_exec; trivial;
    repeat (own_frame
              ltac:(idtac; progress unfold AlarmAutoArm.start, AlarmAutoArm.stop,
                      AlarmAutoArm.fire, AlarmAutoArm.initializeState,
                      AlarmAutoArm.checkAndArm, AlarmAutoArm.pollAlarm,
                      AlarmAutoArm.checkCooldown, AlarmAutoArm.armAlarmWithValidation,
                      AlarmAutoArm.armFallback, AlarmAutoArm.verifyArmStatus,
                      AlarmAutoArm.addStateHistory)).
Qed.

(** Over any run from the constructor, every event either runner logs is
    logged under the id of the automation the runner was made for, with one
    of the five event types "started", "stopped", "error", "triggered" and
    "action_executed"; and every trigger-count update is for that
    automation. *)
Theorem events_are_attributed :
  (forall a inputs,
     ownLog (MotionLight.id a)
       (snd (MotionLight.run (MotionLight.initial a) inputs))) /\
  (forall a inputs,
     ownLog (AlarmAutoArm.id a)
       (snd (AlarmAutoArm.run (AlarmAutoArm.initial a) inputs))).
Proof.
  split; intros a inputs.
  - assert (H : forall s,
              keepsOwnLog (fun r => MotionLight.id (MotionLight.automation r))
                (MotionLight.id a) s ->
              keepsOwnLog (fun r => MotionLight.id (MotionLight.automation r))
                (MotionLight.id a) (MotionLight.run s inputs)).
    { induction inputs as [| i rest IH]; intros s Hs; cbn; trivial.
      apply IH, motion_step_own, Hs. }
    apply (H (MotionLight.initial a)).
    split; [reflexivity | split; constructor].
  - assert (H : forall s,
              keepsOwnLog (fun r => AlarmAutoArm.id (AlarmAutoArm.automation r))
                (AlarmAutoArm.id a) s ->
              keepsOwnLog (fun r => AlarmAutoArm.id (AlarmAutoArm.automation r))
                (AlarmAutoArm.id a) (AlarmAutoArm.run s inputs)).
    { induction inputs as [| i rest IH]; intros s Hs; cbn; trivial.
      apply IH, alarm_step_own, Hs. }
    apply (H (AlarmAutoArm.initial a)).
    split; [reflexivity | split; constructor].
Qed.

(** ** The history is in the order of time *)

Module ChronologyFacts.
Import Chronology.

Lemma ordered_skipn n ts : ordered ts -> ordered (skipn n ts).
Proof.
  revert ts. induction n as [| n IH]; intros ts H; [exact H |].
  destruct ts as [| t rest]; [exact H |]. cbn. apply IH, H.
Qed.

Lemma Forall_skipn {A} (P : A -> Prop) n l : Forall P l -> Forall P (skipn n l).
Proof.
  revert l. induction n as [| n IH]; intros l H; [exact H |].
  destruct l as [| x rest]; [exact H |]. cbn. apply IH.
  inversion H; assumption.
Qed.

Lemma ordered_snoc ts t :
  ordered ts -> Forall (fun x => x <= t) ts -> ordered (ts ++ [t]).
Proof.
  induction ts as [| x rest IH]; cbn; intros Hord Hle.
  - split; [constructor | exact I].
  - destruct Hord as [Hx Hrest]. inversion Hle as [| ? ? Hxt Hle']; subst. split.
    + apply Forall_app. split; [exact Hx | constructor; [exact Hxt | constructor]].
    + apply IH; assumption.
Qed.

(** Appending an entry stamped [now] to a history ordered until an earlier
    instant gives a history ordered until [now], whatever the capacity. *)
Lemma orderedUntil_push {E} (stamp : E -> Z) cap (e : E) h now :
  stamp e = now -> orderedUntil now (map stamp h) ->
  orderedUntil now (map stamp (pushBounded cap e h)).
Proof.
  intros He [Hord Hle]. rewrite pushBounded_slice. unfold slice_last.
  rewrite <- skipn_map, map_app. cbn [map]. rewrite He. split.
  - apply ordered_skipn, ordered_snoc; assumption.
  - apply Forall_skipn, Forall_app. split; [exact Hle |].
    constructor; [lia | constructor].
Qed.

Lemma orderedUntil_later b b' ts : b <= b' -> orderedUntil b ts -> orderedUntil b' ts.
Proof.
  intros Hb [Hord Hle]. split; [exact Hord |].
  eapply Forall_impl; [| exact Hle]. cbn. intros t Ht. lia.
Qed.

Lemma motion_addStateHistory_ordered now ms a d :
  preserves (ofRunner (fun r => orderedUntil now (motionStamps r)))
    (MotionLight.addStateHistory now ms a d).
Proof.
  apply preserves_onRunner. intros r H. unfold motionStamps in *. cbn.
  apply (orderedUntil_push MotionLight.timestamp); [reflexivity | exact H].
Qed.

Lemma alarm_addStateHistory_ordered now a d m :
  preserves (ofRunner (fun r => orderedUntil (AlarmAutoArm.epochMs now) (alarmStamps r)))
    (AlarmAutoArm.addStateHistory now a d m).
Proof.
  apply preserves_onRunner. intros r H. unfold alarmStamps in *. cbn.
  apply (orderedUntil_push AlarmAutoArm.timestamp); [reflexivity | exact H].
Qed.

Ltac motion_ordered :=
  repeat (runner_frame
            ltac:(idtac;
                  first [ apply motion_addStateHistory_ordered
                        | progress unfold MotionLight.start, MotionLight.stop,
                            MotionLight.fire, MotionLight.initializeState,
                            MotionLight.checkMotionState, MotionLight.pollMotion,
                            MotionLight.motionDetected, MotionLight.motionStopped,
                            MotionLight.countdownCallback ])).

Ltac alarm_ordered :=
  repeat (runner_frame
            ltac:(idtac;
                  first [ apply alarm_addStateHistory_ordered
                        | progress unfold AlarmAutoArm.start, AlarmAutoArm.stop,
                            AlarmAutoArm.fire, AlarmAutoArm.initializeState,
                            AlarmAutoArm.checkAndArm, AlarmAutoArm.pollAlarm,
                            AlarmAutoArm.checkCooldown,
                            AlarmAutoArm.armAlarmWithValidation,
                            AlarmAutoArm.armFallback, AlarmAutoArm.verifyArmStatus ])).

Lemma motion_run_ordered inputs :
  forall s b,
    orderedUntil b (motionStamps (fst s)) -> ordered (b :: motionInstants inputs) ->
    ordered (motionStamps (fst (MotionLight.run s inputs))).
Proof.
  induction inputs as [| i rest IH]; intros s b Hs Hord; cbn [MotionLight.run fold_left].
  { apply Hs. }
  change (fold_left MotionLight.step rest (MotionLight.step s i))
    with (MotionLight.run (MotionLight.step s i) rest).
  destruct i as [now init | | h now answer act];
    cbn [motionInstants flat_map app] in Hord.
  - destruct Hord as [Hb Hrest]. inversion Hb as [| ? ? Hle _]; subst.
    apply (IH _ now); [| exact Hrest].
    apply (orderedUntil_later b now) in Hs; [| exact Hle].
    cbn [MotionLight.step].
    apply (preserves_exec (ofRunner (fun r => orderedUntil _ (motionStamps r))));
      [| exact Hs]. motion_ordered.
  - apply (IH _ b); [| exact Hord].
    cbn [MotionLight.step].
    apply (preserves_exec (ofRunner (fun r => orderedUntil _ (motionStamps r))));
      [| exact Hs]. motion_ordered.
  - destruct Hord as [Hb Hrest]. inversion Hb as [| ? ? Hle _]; subst.
    apply (IH _ now); [| exact Hrest].
    apply (orderedUntil_later b now) in Hs; [| exact Hle].
    cbn [MotionLight.step].
    apply (preserves_exec (ofRunner (fun r => orderedUntil _ (motionStamps r))));
      [| exact Hs]. motion_ordered.
Qed.

Lemma alarm_run_ordered inputs :
  forall s b,
    orderedUntil b (alarmStamps (fst s)) -> ordered (b :: alarmInstants inputs) ->
    ordered (alarmStamps (fst (AlarmAutoArm.run s inputs))).
Proof.
  induction inputs as [| i rest IH]; intros s b Hs Hord; cbn [AlarmAutoArm.run fold_left].
  { apply Hs. }
  change (fold_left AlarmAutoArm.step rest (AlarmAutoArm.step s i))
    with (AlarmAutoArm.run (AlarmAutoArm.step s i) rest).
  destruct i as [now init fetch arm | | h now answer arm];
    cbn [alarmInstants flat_map app] in Hord.
  - destruct Hord as [Hb Hrest]. inversion Hb as [| ? ? Hle _]; subst.
    apply (IH _ (AlarmAutoArm.epochMs now)); [| exact Hrest].
    apply (orderedUntil_later b (AlarmAutoArm.epochMs now)) in Hs; [| exact Hle].
    cbn [AlarmAutoArm.step].
    apply (preserves_exec (ofRunner (fun r => orderedUntil _ (alarmStamps r))));
      [| exact Hs]. alarm_ordered.
  - apply (IH _ b); [| exact Hord].
    cbn [AlarmAutoArm.step].
    apply (preserves_exec (ofRunner (fun r => orderedUntil _ (alarmStamps r))));
      [| exact Hs]. alarm_ordered.
  - destruct Hord as [Hb Hrest]. inversion Hb as [| ? ? Hle _]; subst.
    apply (IH _ (AlarmAutoArm.epochMs now)); [| exact Hrest].
    apply (orderedUntil_later b (AlarmAutoArm.epochMs now)) in Hs; [| exact Hle].
    cbn [AlarmAutoArm.step].
    apply (preserves_exec (ofRunner (fun r => orderedUntil _ (alarmStamps r))));
      [| exact Hs]. alarm_ordered.
Qed.

End ChronologyFacts.

(** When the calls and callbacks of a run happen at instants that never go
    back, the history of either runner is in the order of time: no entry is
    stamped later than an entry that follows it, also after the ring has
    dropped its oldest entries. *)
Theorem history_in_time_order :
  (forall a inputs,
     ordered (Chronology.motionInstants inputs) ->
     ordered (Chronology.motionStamps
                (fst (MotionLight.run (MotionLight.initial a) inputs)))) /\
  (forall a inputs,
     ordered (Chronology.alarmInstants inputs) ->
     ordered (Chronology.alarmStamps
                (fst (AlarmAutoArm.run (AlarmAutoArm.initial a) inputs)))).
Proof.
  split; intros a inputs Hord.
  - destruct (Chronology.motionInstants inputs) as [| t0 rest] eqn:Hi.
    + apply (ChronologyFacts.motion_run_ordered inputs _ 0).
      * split; constructor.
      * rewrite Hi. split; [constructor | exact I].
    + apply (ChronologyFacts.motion_run_ordered inputs _ t0).
      * split; constructor.
      * rewrite Hi. split; [| exact Hord].
        constructor; [lia | apply Hord].
  - destruct (Chronology.alarmInstants inputs) as [| t0 rest] eqn:Hi.
    + apply (ChronologyFacts.alarm_run_ordered inputs _ 0).
      * split; constructor.
      * rewrite Hi. split; [constructor | exact I].
    + apply (ChronologyFacts.alarm_run_ordered inputs _ t0).
      * split; constructor.
      * rewrite Hi. split; [| exact Hord].
        constructor; [lia | apply Hord].
Qed.

Lemma history_in_time_order_witness :
  ordered
    (Chronology.motionStamps
       (fst (MotionLight.run (MotionLight.initial Demo.hall)
               [MotionLight.CallStart 0 (Demo.hub "off");
                MotionLight.Fire 1 750 (Demo.hub "on") (Ok tt);
                MotionLight.Fire 1 1500 (Demo.hub "off") (Ok tt)]))).
Proof.
  apply (proj1 history_in_time_order Demo.hall).
  cbn. repeat split; repeat constructor; lia.
Defined.

(** A runner that stopped itself at the error limit can be started again:
    the poll that finds the limit reached stops it, and a [start] that
    follows leaves it running with a new poll interval in the table, in both
    runners.  The error counter is back at 0 in the edge-triggered runner;
    in the scheduled-window runner, whose [start] runs a first poll, it is
    at 0 or 1. *)
Theorem restart_after_giving_up :
  (forall r w now fetch turnOn now' init,
     MotionLight.maxErrors r <= MotionLight.errorCount r ->
     MotionLight.isRunning r = true ->
     let s1 := Run.exec (MotionLight.checkMotionState now fetch turnOn) (r, w) in
     let s2 := Run.exec (MotionLight.start now' init) s1 in
     MotionLight.isRunning (fst s1) = false /\
     MotionLight.isRunning (fst s2) = true /\
     MotionLight.errorCount (fst s2) = 0 /\
     MotionLight.pollInterval (fst s2) = Some (nextHandle w) /\
     In (mkTimer (nextHandle w) PollTick 750 true) (timers (snd s2))) /\
  (forall r w now fetch arm now' init fetch' arm',
     AlarmAutoArm.maxErrors r <= AlarmAutoArm.errorCount r ->
     0 < AlarmAutoArm.maxErrors r ->
     AlarmAutoArm.isRunning r = true ->
     let s1 := Run.exec (AlarmAutoArm.checkAndArm now fetch arm) (r, w) in
     let s2 := Run.exec (AlarmAutoArm.start now' init fetch' arm') s1 in
     AlarmAutoArm.isRunning (fst s1) = false /\
     AlarmAutoArm.isRunning (fst s2) = true /\
     0 <= AlarmAutoArm.errorCount (fst s2) <= 1 /\
     AlarmAutoArm.checkInterval (fst s2) = Some (nextHandle w) /\
     In (mkTimer (nextHandle w) PollTick 30000 true) (timers (snd s2))).
Proof.
  split.
  - intros r w now fetch turnOn now' init Hlim Hrun s1 s2. subst s2 s1.
    rewrite (MotionFacts.motion_poll_at_limit r w now fetch turnOn Hlim Hrun).
    match goal with
    | |- context [Run.exec (MotionLight.start _ _) (?r1, ?w1)] =>
        destruct (MotionSends.motion_start_effect now' init r1 w1 eq_refl)
          as (Hr & He & Hp & _ & _ & Ht & _)
    end.
    cbn [fst snd nextHandle] in *. rewrite Hr, He, Hp, Ht.
    repeat split. apply in_or_app. right. left. reflexivity.
  - intros r w now fetch arm now' init fetch' arm' Hlim Hmax Hrun s1 s2. subst s2 s1.
    rewrite (AlarmFacts.alarm_poll_at_limit r w now fetch arm Hlim Hrun).
    match goal with
    | |- context [Run.exec (AlarmAutoArm.start _ _ _ _) (?r1, ?w1)] =>
        destruct (AlarmTimers.alarm_start_effect now' init fetch' arm' r1 w1 eq_refl)
          as (Hr & Hc & He & more & Ht & _); [exact Hmax |]
    end.
    cbn [fst snd nextHandle] in *. rewrite Hr, Hc, Ht.
    repeat split; try lia. apply in_or_app. right. left. reflexivity.
Qed.

Lemma restart_after_giving_up_witness :
  MotionLight.isRunning
    (fst (Run.exec (MotionLight.start 5000 (Demo.hub "off"))
            (Run.exec (MotionLight.checkMotionState 4000 (Demo.hub "on") (Ok tt))
               (MotionLight.set_errorCount 10 (fst Demo.hallOn), snd Demo.hallOn))))
  = true.
Proof.
  destruct (proj1 restart_after_giving_up
              (MotionLight.set_errorCount 10 (fst Demo.hallOn)) (snd Demo.hallOn)
              4000 (Demo.hub "on") (Ok tt) 5000 (Demo.hub "off"))
    as (_ & H & _); [cbn; lia | reflexivity | exact H].
Defined.

(** ** Polls that overlap *)

Module MotionParts.
Import MotionLight MotionSpec MotionOverlap MotionFacts.

(** Run without anything in between, the parts of a poll are the poll. *)
Lemma motion_poll_in_parts now fetch turnOn s :
  Run.exec (checkMotionState now fetch turnOn) s = Run.exec (inOneGo now fetch turnOn) s.
Proof.
  destruct s as [r w]. open_runner r.
  unfold checkMotionState, inOneGo, checkMotionStateBegin, afterState, afterTurnOn,
    generalError, pollMotion, motionDetected, motionStopped, stop, addStateHistory.
  unfold_run. cbn.
  destruct (limit <=? errors); cbn.
  { destruct running; cbn; [| reflexivity].
    destruct interval, timeout; reflexivity. }
  destruct (configured (motion_entity (settings auto))) as [m |]; cbn; [| reflexivity].
  destruct (configured (light_entity (settings auto))) as [l |]; cbn; [| reflexivity].
  destruct fetch as [e | msg]; cbn.
  2: { destruct ((errors + 1 =? 1) || (js_rem (errors + 1) 5 =? 0)); reflexivity. }
  destruct last as [last |]; cbn; [| reflexivity].
  destruct (String.eqb last (state e)); cbn; [reflexivity |].
  destruct (String.eqb last "off" && String.eqb (state e) "on"); cbn.
  - destruct timeout; destruct turnOn as [[] | msg]; reflexivity.
  - destruct (String.eqb last "on" && String.eqb (state e) "off"); reflexivity.
Qed.

(** The poll that starts at the error limit: one error event, then [stop];
    no request is sent and the callback returns. *)
Lemma begin_at_limit r w now :
  maxErrors r <= errorCount r -> isRunning r = true ->
  checkMotionStateBegin now (r, w)
  = (Ok None,
     (stopped r,
      {| eventLog := eventLog w ++
           [mkEvent (id (automation r)) "error"
              [Lit "Automation stopped due to "; Num (errorCount r);
               Lit " consecutive errors"];
            mkEvent (id (automation r)) "stopped" [Lit "Automation stopped"]];
         apiCalls := apiCalls w;
         triggerCountUpdates := triggerCountUpdates w;
         timers := clearHandle (timeoutId r) (clearHandle (pollInterval r) (timers w));
         nextHandle := nextHandle w |})).
Proof.
  intros Hlim Hrun. apply Z.leb_le in Hlim. open_runner r. subst running.
  unfold checkMotionStateBegin, stop. unfold_run. cbn. rewrite Hlim.
  destruct interval, timeout; cbn; rewrite <- app_assoc; reflexivity.
Qed.

(** The poll that starts below the limit sends its request and waits. *)
Lemma begin_below_limit r w m l now :
  polling r m l ->
  checkMotionStateBegin now (r, w)
  = (Ok (Some (AwaitingState m l (delaySecondsOf (settings (automation r))))),
     (r, addRequests [GetState m] w)).
Proof.
  intros (Hg & Hm & Hl). apply Z.leb_gt in Hg.
  unfold checkMotionStateBegin. unfold_run. cbn. rewrite Hg, Hm, Hl. reflexivity.
Qed.

(** The answer is a failure: the poll counts it, whatever the counter and
    [isRunning] are by then. *)
Lemma afterState_failed r w now m l d msg :
  afterState now m l d (Err msg) (r, w)
  = (Ok None,
     (set_stateHistory (pushHistory (failedEntry now msg r) (stateHistory r))
        (set_consecutiveSuccesses 0 (set_errorCount (errorCount r + 1) r)),
      addEvents
        (if (errorCount r + 1 =? 1) || (js_rem (errorCount r + 1) 5 =? 0)
         then [failedEvent msg r] else [])
        w)).
Proof.
  unfold afterState, addStateHistory. unfold_run. cbn.
  destruct ((errorCount r + 1 =? 1) || (js_rem (errorCount r + 1) 5 =? 0));
    cbn; unfold addEvents; cbn; rewrite ?app_nil_r; destruct w; reflexivity.
Qed.

(** The answer is a state: the counter is at 0 when the poll next gives way
    or returns. *)
Lemma afterState_ok r w now m l d e :
  let out := afterState now m l d (Ok e) (r, w) in
  errorCount (fst (snd out)) = 0 /\
  isRunning (fst (snd out)) = isRunning r /\
  pollInterval (fst (snd out)) = pollInterval r.
Proof.
  open_runner r.
  unfold afterState, motionStopped, addStateHistory. unfold_run. cbn.
  destruct last as [last |]; cbn; [| repeat split].
  destruct (String.eqb last (state e)); cbn; [repeat split |].
  destruct (String.eqb last "off" && String.eqb (state e) "on"); cbn.
  - destruct timeout; repeat split.
  - destruct (String.eqb last "on" && String.eqb (state e) "off"); repeat split.
Qed.


End MotionParts.

Module AlarmParts.
Import AlarmAutoArm AlarmSpec AlarmOverlap AlarmFacts.

Lemma arm_in_parts now a s :
  armAlarmWithValidation now a s
  = Run.bind (sendRequest (GetState panel)) (fun _ => armAfterPreArm now a) s.
Proof.
  destruct s as [r w].
  unfold armAlarmWithValidation, armAfterPreArm. unfold_run. cbn.
  reflexivity.
Qed.

Local Arguments isInArmingWindow : simpl never.

Lemma alarm_poll_in_parts now fetch arm s :
  Run.exec (checkAndArm now fetch arm) s = Run.exec (inOneGo now fetch arm) s.
Proof.
  destruct s as [r w]. open_runner r.
  unfold checkAndArm, inOneGo, checkAndArmBegin, afterPanel, afterPreArm,
    generalError, pollAlarm, checkCooldown, stop, armAlarmWithValidation,
    armAfterPreArm, armFallback, addStateHistory.
  unfold_run. cbn.
  destruct (limit <=? errors); cbn.
  { destruct running; cbn; [| reflexivity]. destruct interval; reflexivity. }
  destruct fetch as [e | msg]; cbn; [| reflexivity].
  generalize (isInArmingWindow now) as inWindow. intros inWindow.
  destruct last as [last |]; cbn;
    repeat first
      [ reflexivity
      | match goal with
        | |- context [match ?x with _ => _ end] =>
            lazymatch type of x with
            | bool => destruct x; cbn
            | option _ => destruct x; cbn
            | Result _ => destruct x as [[] | ?] || destruct x; cbn
            end
        end ].
Qed.

Lemma alarm_begin_at_limit r w now :
  maxErrors r <= errorCount r -> isRunning r = true ->
  checkAndArmBegin now (r, w)
  = (Ok None,
     (stopped r,
      {| eventLog := eventLog w ++
           [mkEvent (id (automation r)) "error"
              [Lit "Automation stopped due to "; Num (errorCount r);
               Lit " consecutive errors"];
            mkEvent (id (automation r)) "stopped"
              [Lit "Alarm auto-arm automation stopped"]];
         apiCalls := apiCalls w;
         triggerCountUpdates := triggerCountUpdates w;
         timers := clearHandle (checkInterval r) (timers w);
         nextHandle := nextHandle w |})).
Proof.
  intros Hlim Hrun. apply Z.leb_le in Hlim. open_runner r. subst running.
  unfold checkAndArmBegin, stop. unfold_run. cbn. rewrite Hlim.
  destruct interval; cbn; rewrite <- app_assoc; reflexivity.
Qed.

Lemma alarm_begin_below_limit r w now :
  errorCount r < maxErrors r ->
  checkAndArmBegin now (r, w)
  = (Ok (Some (AwaitingPanel now)),
     (r, {| eventLog := eventLog w;
            apiCalls := apiCalls w ++ [GetState panel];
            triggerCountUpdates := triggerCountUpdates w;
            timers := timers w;
            nextHandle := nextHandle w |})).
Proof.
  intros Hg. apply Z.leb_gt in Hg.
  unfold checkAndArmBegin. unfold_run. cbn. rewrite Hg. reflexivity.
Qed.

(** The entry and the event of a failed panel request whose answer arrives
    at [clock], for the poll that started at [now]. *)
Lemma afterPanel_failed r w now clock msg :
  afterPanel now clock (Err msg) (r, w)
  = (Ok None,
     (set_stateHistory
        (pushHistory
           (mkEntry (epochMs clock) "fetch_error"
              [Lit "Failed to get alarm state: "; Str msg]
              (lastAlarmState r) (isInArmingWindow clock)
              [("errorCount", MNum (errorCount r + 1)); ("time", MTime (epochMs now))])
           (stateHistory r))
        (set_errorCount (errorCount r + 1) r),
      {| eventLog := eventLog w ++ [failedEvent msg r];
         apiCalls := apiCalls w;
         triggerCountUpdates := triggerCountUpdates w;
         timers := timers w;
         nextHandle := nextHandle w |})).
Proof.
  unfold afterPanel, addStateHistory. unfold_run. cbn. reflexivity.
Qed.

Lemma afterPanel_ok r w now clock e :
  let out := afterPanel now clock (Ok e) (r, w) in
  errorCount (fst (snd out)) = 0 /\
  isRunning (fst (snd out)) = isRunning r /\
  lastAlarmState (fst (snd out)) = Some (state e) /\
  lastArmAttempt (fst (snd out)) = lastArmAttempt r.
Proof.
  open_runner r.
  unfold afterPanel, addStateHistory. unfold_run. cbn.
  generalize (isInArmingWindow now) as inWindow. intros inWindow.
  destruct last as [last |]; cbn;
    [destruct (String.eqb last (state e)); cbn |];
    (destruct (inWindow && String.eqb (state e) "disarmed"); cbn;
     [destruct attempt as [at0 |]; cbn;
      [destruct (0 <? cooldown - (epochMs now - epochMs at0)); cbn |] |]);
    repeat split.
Qed.

(** The check passes: the pre-arm request is sent, and [lastArmAttempt] is
    as it was. *)
Lemma afterPanel_arms r w now clock e :
  isInArmingWindow now = true -> state e = "disarmed" -> cooling r now = false ->
  let out := afterPanel now clock (Ok e) (r, w) in
  fst out = Ok (Some (AwaitingPreArm now)) /\
  apiCalls (snd (snd out)) = apiCalls w ++ [GetState panel] /\
  timers (snd (snd out)) = timers w /\
  triggerCountUpdates (snd (snd out)) = triggerCountUpdates w /\
  lastArmAttempt (fst (snd out)) = lastArmAttempt r.
Proof.
  intros Hwin He Hcool. unfold cooling in Hcool. revert Hwin. open_runner r.
  intros Hwin.
  unfold afterPanel, addStateHistory. unfold_run. cbn.
  rewrite Hwin, He. cbn.
  destruct last as [last |]; cbn;
    [destruct (String.eqb last "disarmed"); cbn |];
    (destruct attempt as [at0 |]; cbn; [rewrite Hcool; cbn |]);
    repeat split.
Qed.




End AlarmParts.

(** ** The error limit and the cooldown, with polls in flight *)

(** C4, as the code has it.  For both runners: a poll whose state request
    fails adds one to the error counter and leaves the last observed state
    alone; a poll whose state request succeeds leaves the counter at 0.  The
    limit is tested when a poll callback starts, and only then.  A callback
    that starts with the counter at the limit or above sends no request, logs
    one error event "Automation stopped due to [n] consecutive errors"
    followed by the stopped event, clears [isRunning] and takes the interval
    out of the timer table, so that no callback starts after it.  A callback
    that starts below the limit sends its request and waits.  When the
    answer arrives nothing is tested again: a failure is counted whatever the
    counter and [isRunning] are by then, and a state puts the counter back
    to 0. *)
Theorem consecutive_error_policy :
  (forall r w m l now msg turnOn,
     MotionSpec.polling r m l ->
     let s' := Run.exec (MotionLight.checkMotionState now (Err msg) turnOn) (r, w) in
     MotionLight.errorCount (fst s') = MotionLight.errorCount r + 1 /\
     MotionLight.lastMotionState (fst s') = MotionLight.lastMotionState r) /\
  (forall r w m l now e turnOn,
     MotionSpec.polling r m l ->
     let s' := Run.exec (MotionLight.checkMotionState now (Ok e) turnOn) (r, w) in
     MotionLight.errorCount (fst s') = 0) /\
  (forall r w h now,
     MotionLight.maxErrors r <= MotionLight.errorCount r ->
     MotionLight.isRunning r = true -> MotionLight.pollInterval r = Some h ->
     let out := MotionOverlap.checkMotionStateBegin now (r, w) in
     fst out = Ok None /\
     MotionLight.isRunning (fst (snd out)) = false /\
     MotionLight.pollInterval (fst (snd out)) = None /\
     pending h (snd (snd out)) = false /\
     MotionLight.errorCount (fst (snd out)) = MotionLight.errorCount r /\
     apiCalls (snd (snd out)) = apiCalls w /\
     eventLog (snd (snd out)) =
       eventLog w ++
       [mkEvent (MotionLight.id (MotionLight.automation r)) "error"
          [Lit "Automation stopped due to "; Num (MotionLight.errorCount r);
           Lit " consecutive errors"];
        mkEvent (MotionLight.id (MotionLight.automation r)) "stopped"
          [Lit "Automation stopped"]]) /\
  (forall r w m l now,
     MotionSpec.polling r m l ->
     MotionOverlap.checkMotionStateBegin now (r, w)
     = (Ok (Some (MotionOverlap.AwaitingState m l
                    (MotionLight.delaySecondsOf
                       (MotionLight.settings (MotionLight.automation r))))),
        (r, MotionSpec.addRequests [GetState m] w))) /\
  (forall r w now m l d msg,
     let out := MotionOverlap.afterState now m l d (Err msg) (r, w) in
     fst out = Ok None /\
     MotionLight.errorCount (fst (snd out)) = MotionLight.errorCount r + 1 /\
     MotionLight.lastMotionState (fst (snd out)) = MotionLight.lastMotionState r /\
     MotionLight.isRunning (fst (snd out)) = MotionLight.isRunning r /\
     apiCalls (snd (snd out)) = apiCalls w /\
     timers (snd (snd out)) = timers w) /\
  (forall r w now m l d e,
     let out := MotionOverlap.afterState now m l d (Ok e) (r, w) in
     MotionLight.errorCount (fst (snd out)) = 0 /\
     MotionLight.isRunning (fst (snd out)) = MotionLight.isRunning r) /\
  (forall r w now msg arm,
     AlarmAutoArm.errorCount r < AlarmAutoArm.maxErrors r ->
     let s' := Run.exec (AlarmAutoArm.checkAndArm now (Err msg) arm) (r, w) in
     AlarmAutoArm.errorCount (fst s') = AlarmAutoArm.errorCount r + 1 /\
     AlarmAutoArm.lastAlarmState (fst s') = AlarmAutoArm.lastAlarmState r) /\
  (forall r w now e arm,
     AlarmAutoArm.errorCount r < AlarmAutoArm.maxErrors r ->
     let s' := Run.exec (AlarmAutoArm.checkAndArm now (Ok e) arm) (r, w) in
     AlarmAutoArm.errorCount (fst s') = 0) /\
  (forall r w h now,
     AlarmAutoArm.maxErrors r <= AlarmAutoArm.errorCount r ->
     AlarmAutoArm.isRunning r = true -> AlarmAutoArm.checkInterval r = Some h ->
     let out := AlarmOverlap.checkAndArmBegin now (r, w) in
     fst out = Ok None /\
     AlarmAutoArm.isRunning (fst (snd out)) = false /\
     AlarmAutoArm.checkInterval (fst (snd out)) = None /\
     pending h (snd (snd out)) = false /\
     AlarmAutoArm.errorCount (fst (snd out)) = AlarmAutoArm.errorCount r /\
     apiCalls (snd (snd out)) = apiCalls w /\
     eventLog (snd (snd out)) =
       eventLog w ++
       [mkEvent (AlarmAutoArm.id (AlarmAutoArm.automation r)) "error"
          [Lit "Automation stopped due to "; Num (AlarmAutoArm.errorCount r);
           Lit " consecutive errors"];
        mkEvent (AlarmAutoArm.id (AlarmAutoArm.automation r)) "stopped"
          [Lit "Alarm auto-arm automation stopped"]]) /\
  (forall r w now,
     AlarmAutoArm.errorCount r < AlarmAutoArm.maxErrors r ->
     let out := AlarmOverlap.checkAndArmBegin now (r, w) in
     fst out = Ok (Some (AlarmOverlap.AwaitingPanel now)) /\
     fst (snd out) = r /\
     apiCalls (snd (snd out)) = apiCalls w ++ [GetState AlarmAutoArm.panel] /\
     eventLog (snd (snd out)) = eventLog w /\
     timers (snd (snd out)) = timers w) /\
  (forall r w now clock msg,
     let out := AlarmOverlap.afterPanel now clock (Err msg) (r, w) in
     fst out = Ok None /\
     AlarmAutoArm.errorCount (fst (snd out)) = AlarmAutoArm.errorCount r + 1 /\
     AlarmAutoArm.lastAlarmState (fst (snd out)) = AlarmAutoArm.lastAlarmState r /\
     AlarmAutoArm.isRunning (fst (snd out)) = AlarmAutoArm.isRunning r /\
     apiCalls (snd (snd out)) = apiCalls w /\
     timers (snd (snd out)) = timers w) /\
  (forall r w now clock e,
     let out := AlarmOverlap.afterPanel now clock (Ok e) (r, w) in
     AlarmAutoArm.errorCount (fst (snd out)) = 0 /\
     AlarmAutoArm.isRunning (fst (snd out)) = AlarmAutoArm.isRunning r).
Proof.
  repeat match goal with |- _ /\ _ => split end.
  - intros r w m l now msg turnOn Hp s'. subst s'.
    rewrite (MotionFacts.motion_poll_failed r w m l now msg turnOn Hp).
    split; reflexivity.
  - intros r w m l now e turnOn Hp.
    apply (MotionFacts.motion_poll_ok_effect r w m l now e turnOn Hp).
  - intros r w h now Hlim Hrun Hint out. subst out.
    rewrite (MotionParts.begin_at_limit r w now Hlim Hrun). cbn.
    repeat split. unfold pending. cbn. rewrite Hint.
    apply clearHandle_keeps_gone, removeTimer_gone.
  - intros r w m l now Hp. apply MotionParts.begin_below_limit, Hp.
  - intros r w now m l d msg out. subst out.
    rewrite MotionParts.afterState_failed. cbn. repeat split.
  - intros r w now m l d e out.
    destruct (MotionParts.afterState_ok r w now m l d e) as (He & Hr & _).
    split; assumption.
  - intros r w now msg arm Hg s'. subst s'.
    rewrite (AlarmFacts.alarm_poll_failed r w now msg arm Hg).
    split; reflexivity.
  - intros r w now e arm Hg.
    apply (AlarmFacts.alarm_poll_ok_effect r w now e arm Hg).
  - intros r w h now Hlim Hrun Hint out. subst out.
    rewrite (AlarmParts.alarm_begin_at_limit r w now Hlim Hrun). cbn.
    repeat split. unfold pending. cbn. rewrite Hint. apply removeTimer_gone.
  - intros r w now Hg out. subst out.
    rewrite (AlarmParts.alarm_begin_below_limit r w now Hg). cbn. repeat split.
  - intros r w now clock msg out. subst out.
    rewrite AlarmParts.afterPanel_failed. cbn. repeat split.
  - intros r w now clock e out.
    destruct (AlarmParts.afterPanel_ok r w now clock e) as (He & Hr & _).
    split; assumption.
Qed.

Lemma consecutive_error_policy_witness :
  MotionLight.errorCount (fst Demo.hallFailing) = 10 /\
  MotionLight.isRunning
    (fst (snd (MotionOverlap.checkMotionStateBegin 8250 Demo.hallFailing))) = false /\
  pending 1 (snd (snd (MotionOverlap.checkMotionStateBegin 8250 Demo.hallFailing)))
  = false.
Proof.
  destruct (proj1 (proj2 (proj2 consecutive_error_policy))
              (fst Demo.hallFailing) (snd Demo.hallFailing) 1%positive 8250)
    as (_ & Hstop & _ & Hgone & _).
  - apply Z.leb_le. reflexivity.
  - reflexivity.
  - reflexivity.
  - split; [reflexivity | split; [exact Hstop | exact Hgone]].
Defined.

(** C4 as stated fails when polls overlap.  The edge-triggered runner has
    counted nine failures; two more polls start 750 ms apart, each below the
    limit, and both await the hub.  The first request fails: the counter is
    at 10.  The next callback of the interval finds the limit reached, logs
    the error event and stops the runner.  Then the second request fails
    too and is processed on the stopped runner: the counter is at 11.  The
    same happens in the scheduled-window runner. *)
Lemma consecutive_error_policy_counterexample :
  (let s9 := MotionLight.run Demo.hallOff
               (MotionSpec.failures 1
                  [(750, "timeout", Ok tt); (1500, "timeout", Ok tt);
                   (2250, "timeout", Ok tt); (3000, "timeout", Ok tt);
                   (3750, "timeout", Ok tt); (4500, "timeout", Ok tt);
                   (5250, "timeout", Ok tt); (6000, "timeout", Ok tt);
                   (6750, "timeout", Ok tt)]) in
   let st10 := MotionOverlap.run (MotionOverlap.mkState s9 [])
                 [MotionOverlap.Tick 1 7500; MotionOverlap.Tick 1 8250;
                  MotionOverlap.Reply 0 8900 (Err "timeout") (Ok tt)] in
   let stopped := MotionOverlap.run st10 [MotionOverlap.Tick 1 9000] in
   let st11 := MotionOverlap.run stopped
                 [MotionOverlap.Reply 0 9400 (Err "timeout") (Ok tt)] in
   MotionLight.errorCount (fst s9) = 9 /\
   MotionLight.errorCount (fst (MotionOverlap.machine st10)) = 10 /\
   List.length (MotionOverlap.inFlight st10) = 1%nat /\
   MotionLight.isRunning (fst (MotionOverlap.machine stopped)) = false /\
   skipn 4 (map message (eventLog (snd (MotionOverlap.machine stopped))))
   = [[Lit "Automation stopped due to "; Num 10; Lit " consecutive errors"];
      [Lit "Automation stopped"]] /\
   MotionLight.errorCount (fst (MotionOverlap.machine st11)) = 11 /\
   map MotionLight.action
     (skipn 11 (MotionLight.stateHistory (fst (MotionOverlap.machine st11))))
   = ["motion_state_error"]) /\
  (let at_12 (m s : Z) := AlarmAutoArm.mkDate (43200000 + m * 60000 + s * 1000) 12 m in
   let s9 := AlarmAutoArm.run Demo.alarmIdle
               (AlarmSpec.failures 1
                  [(at_12 0 30, "timeout", Demo.armsFine);
                   (at_12 1 0, "timeout", Demo.armsFine);
                   (at_12 1 30, "timeout", Demo.armsFine);
                   (at_12 2 0, "timeout", Demo.armsFine);
                   (at_12 2 30, "timeout", Demo.armsFine);
                   (at_12 3 0, "timeout", Demo.armsFine);
                   (at_12 3 30, "timeout", Demo.armsFine);
                   (at_12 4 0, "timeout", Demo.armsFine);
                   (at_12 4 30, "timeout", Demo.armsFine)]) in
   let st10 := AlarmOverlap.run (AlarmOverlap.mkState s9 [])
                 [AlarmOverlap.Tick 1 (at_12 5 0); AlarmOverlap.Tick 1 (at_12 5 30);
                  AlarmOverlap.Reply 0 (at_12 5 40) (Err "timeout") Demo.armsFine] in
   let stopped := AlarmOverlap.run st10 [AlarmOverlap.Tick 1 (at_12 6 0)] in
   let st11 := AlarmOverlap.run stopped
                 [AlarmOverlap.Reply 0 (at_12 6 10) (Err "timeout") Demo.armsFine] in
   AlarmAutoArm.errorCount (fst s9) = 9 /\
   AlarmAutoArm.errorCount (fst (AlarmOverlap.machine st10)) = 10 /\
   AlarmAutoArm.isRunning (fst (AlarmOverlap.machine stopped)) = false /\
   AlarmAutoArm.errorCount (fst (AlarmOverlap.machine st11)) = 11).
Proof. vm_compute. repeat split; reflexivity. Qed.




(** C2: the cancellation misses a countdown whose handle the runner no
    longer holds.  The sensor reads "on", "off" (countdown 2 is set and
    held), "unavailable", "on", "off" (countdown 3 is set and takes the
    place of 2 in [timeoutId]); countdown 2 fires with the sensor "off",
    turns the light off and sets [timeoutId] to null.  Countdown 3 is now
    pending with no handle held.  The off->on poll that follows turns the
    light on and cancels nothing: countdown 3 stays in the table and no
    [countdown_cancelled] entry is written.  When the sensor goes "off" again
    and countdown 3 fires, the light is turned off 750 ms after the motion
    stopped, not 15 s. *)
Theorem pending_countdown_not_cancelled :
  let s := MotionLight.run Demo.hallCounting
             [MotionLight.Fire 1 1500 (Demo.hub "unavailable") (Ok tt);
              MotionLight.Fire 1 2250 (Demo.hub "on") (Ok tt);
              MotionLight.Fire 1 3000 (Demo.hub "off") (Ok tt);
              MotionLight.Fire 2 15750 (Demo.hub "off") (Ok tt)] in
  let s' := MotionLight.run s [MotionLight.Fire 1 16500 (Demo.hub "on") (Ok tt)] in
  let s'' := MotionLight.run s'
               [MotionLight.Fire 1 17250 (Demo.hub "off") (Ok tt);
                MotionLight.Fire 3 18000 (Demo.hub "off") (Ok tt)] in
  let actions st := map MotionLight.action (MotionLight.stateHistory (fst st)) in
  MotionLight.lastMotionState (fst s) = Some "off" /\
  MotionLight.timeoutId (fst s) = None /\
  findTimer 3 (snd s) = Some (mkTimer 3 (TurnOffCountdown "m1" "l1" 15) 15000 false) /\
  MotionLight.lastMotionState (fst s') = Some "on" /\
  findTimer 3 (snd s') = Some (mkTimer 3 (TurnOffCountdown "m1" "l1" 15) 15000 false) /\
  actions s' = actions s ++ ["motion_detected"; "light_turned_on"] /\
  apiCalls (snd s') =
    apiCalls (snd s) ++ [GetState "m1"; CallService "turn_on" "light" "l1"] /\
  apiCalls (snd s'') =
    apiCalls (snd s') ++
    [GetState "m1"; GetState "m1"; CallService "turn_off" "light" "l1"].
Proof. vm_compute. repeat split; reflexivity. Qed.

(** ** What a poll in flight does after [stop] *)

(** [stop] does not reach a poll of the scheduled-window runner that awaits
    the hub.  The code that runs when the answer arrives never reads
    [isRunning]: whatever the flag, it does the same to the runner and to
    the world.  So a poll that is in flight when [stop] returns still sends
    the pre-arm request when it finds the panel disarmed inside the window
    with no cooldown running, and an arm sequence in flight still sends
    [alarm_arm_away] when the pre-arm answer is "disarmed". *)
Theorem alarm_poll_in_flight_ignores_stop :
  (forall r w now clock fetch b,
     let out := AlarmOverlap.afterPanel now clock fetch (r, w) in
     AlarmOverlap.afterPanel now clock fetch (AlarmAutoArm.set_isRunning b r, w)
     = (fst out, (AlarmAutoArm.set_isRunning b (fst (snd out)), snd (snd out)))) /\
  (forall r w now clock arm b,
     let s' := Run.exec (AlarmOverlap.afterPreArm now clock arm) (r, w) in
     Run.exec (AlarmOverlap.afterPreArm now clock arm) (AlarmAutoArm.set_isRunning b r, w)
     = (AlarmAutoArm.set_isRunning b (fst s'), snd s')) /\
  (forall r w now clock e,
     AlarmAutoArm.isRunning r = false ->
     AlarmAutoArm.isInArmingWindow now = true -> state e = "disarmed" ->
     AlarmSpec.cooling r now = false ->
     let out := AlarmOverlap.afterPanel now clock (Ok e) (r, w) in
     fst out = Ok (Some (AlarmOverlap.AwaitingPreArm now)) /\
     apiCalls (snd (snd out)) = apiCalls w ++ [GetState AlarmAutoArm.panel] /\
     AlarmAutoArm.isRunning (fst (snd out)) = false) /\
  (forall r w now clock arm e,
     AlarmAutoArm.isRunning r = false ->
     AlarmAutoArm.preArm arm = Ok e -> state e = "disarmed" ->
     let s' := Run.exec (AlarmOverlap.afterPreArm now clock arm) (r, w) in
     exists sent,
       apiCalls (snd s') =
         apiCalls w ++
         CallService "alarm_arm_away" "alarm_control_panel" AlarmAutoArm.panel :: sent /\
       AlarmAutoArm.isRunning (fst s') = false).
Proof.
  split; [| split; [| split]].
  - intros r w now clock fetch b out. subst out. AlarmFacts.open_runner r.
    unfold AlarmOverlap.afterPanel, AlarmOverlap.generalError,
      AlarmAutoArm.addStateHistory.
    unfold_run. cbn.
    destruct fetch as [e | msg]; cbn; [| reflexivity].
    generalize (AlarmAutoArm.isInArmingWindow now) as inWindow. intros inWindow.
    destruct last as [last |]; cbn;
      repeat first
        [ reflexivity
        | match goal with
          | |- context [match ?x with _ => _ end] =>
              lazymatch type of x with
              | bool => destruct x; cbn
              | option _ => destruct x; cbn
              end
          end ].
  - intros r w now clock arm b s'. subst s'. AlarmFacts.open_runner r.
    unfold AlarmOverlap.afterPreArm, AlarmOverlap.armAfterPreArm,
      AlarmOverlap.generalError, AlarmAutoArm.armFallback,
      AlarmAutoArm.addStateHistory.
    unfold_run. cbn.
    destruct (AlarmAutoArm.preArm arm) as [p | pmsg]; cbn; [| reflexivity].
    destruct (String.eqb (state p) "disarmed"); cbn; [| reflexivity].
    destruct (AlarmAutoArm.armAway arm) as [[] | amsg]; cbn; [reflexivity |].
    destruct (AlarmAutoArm.includes "500" amsg) eqn:H500; cbn; [| reflexivity].
    destruct (AlarmAutoArm.alarmDetails arm), (AlarmAutoArm.armHome arm) as [[] | hmsg];
      reflexivity.
  - intros r w now clock e Hoff Hwin He Hcool out.
    destruct (AlarmParts.afterPanel_arms r w now clock e Hwin He Hcool)
      as (Hout & Hcalls & _).
    destruct (AlarmParts.afterPanel_ok r w now clock e) as (_ & Hr & _).
    fold out in Hr. rewrite Hr. repeat split; assumption.
  - intros r w now clock arm e Hoff Hpre He s'. subst s'.
    AlarmFacts.open_runner r. subst running.
    unfold AlarmOverlap.afterPreArm, AlarmOverlap.armAfterPreArm,
      AlarmOverlap.generalError, AlarmAutoArm.armFallback,
      AlarmAutoArm.addStateHistory.
    unfold_run. cbn. rewrite Hpre. cbn. rewrite He. cbn.
    destruct (AlarmAutoArm.armAway arm) as [[] | amsg]; cbn.
    { eexists. split; reflexivity. }
    destruct (AlarmAutoArm.includes "500" amsg) eqn:H500; cbn.
    2: { eexists. split; reflexivity. }
    destruct (AlarmAutoArm.alarmDetails arm), (AlarmAutoArm.armHome arm) as [[] | hmsg];
      cbn; eexists; rewrite <- ?app_assoc; split; reflexivity.
Qed.

Lemma alarm_poll_in_flight_ignores_stop_witness :
  let clock (m s : Z) := AlarmAutoArm.mkDate (75600000 + m * 60000 + s * 1000) 21 m in
  let stopped := AlarmAutoArm.run Demo.alarmIdle [AlarmAutoArm.CallStop] in
  let out := AlarmOverlap.afterPanel (clock 5 0) (clock 5 40) (Demo.hub "disarmed")
               stopped in
  AlarmAutoArm.isRunning (fst stopped) = false /\
  fst out = Ok (Some (AlarmOverlap.AwaitingPreArm (clock 5 0))) /\
  apiCalls (snd (snd out)) = apiCalls (snd stopped) ++ [GetState AlarmAutoArm.panel].
Proof.
  intros clock stopped out.
  destruct (proj1 (proj2 (proj2 alarm_poll_in_flight_ignores_stop))
              (fst stopped) (snd stopped) (clock 5 0) (clock 5 40)
              (mkEntityState "disarmed" "{}"))
    as (Hout & Hcalls & _); try reflexivity.
  split; [reflexivity | split; [exact Hout | exact Hcalls]].
Defined.

(** [stop] does not reach a poll of the edge-triggered runner that awaits
    the hub either.  The code that runs when the answer arrives never reads
    [isRunning].  A poll in flight when [stop] returns that sees the sensor go
    from "off" to "on" sends [turn_on]; one that sees it go from "on" to
    "off" sets a countdown and keeps its handle in [timeoutId], on a runner
    that is not running. *)
Theorem motion_poll_in_flight_ignores_stop :
  (forall r w now m l d fetch b,
     let out := MotionOverlap.afterState now m l d fetch (r, w) in
     MotionOverlap.afterState now m l d fetch (MotionLight.set_isRunning b r, w)
     = (fst out, (MotionLight.set_isRunning b (fst (snd out)), snd (snd out)))) /\
  (forall r w now c l turnOn b,
     let s' := Run.exec (MotionOverlap.afterTurnOn now c l turnOn) (r, w) in
     Run.exec (MotionOverlap.afterTurnOn now c l turnOn) (MotionLight.set_isRunning b r, w)
     = (MotionLight.set_isRunning b (fst s'), snd s')) /\
  (forall r w now m l d e,
     MotionLight.isRunning r = false ->
     MotionLight.lastMotionState r = Some "off" -> state e = "on" ->
     let out := MotionOverlap.afterState now m l d (Ok e) (r, w) in
     fst out = Ok (Some (MotionOverlap.AwaitingTurnOn "on" l)) /\
     apiCalls (snd (snd out)) = apiCalls w ++ [CallService "turn_on" "light" l] /\
     MotionLight.isRunning (fst (snd out)) = false) /\
  (forall r w now m l d e,
     MotionLight.isRunning r = false ->
     MotionLight.lastMotionState r = Some "on" -> state e = "off" ->
     let out := MotionOverlap.afterState now m l d (Ok e) (r, w) in
     fst out = Ok None /\
     timers (snd (snd out)) =
       timers w ++ [mkTimer (nextHandle w) (TurnOffCountdown m l d) (d * 1000) false] /\
     MotionLight.timeoutId (fst (snd out)) = Some (nextHandle w) /\
     MotionLight.isRunning (fst (snd out)) = false).
Proof.
  split; [| split; [| split]].
  - intros r w now m l d fetch b out. subst out. MotionFacts.open_runner r.
    unfold MotionOverlap.afterState, MotionOverlap.generalError,
      MotionLight.motionStopped, MotionLight.addStateHistory.
    unfold_run. cbn.
    destruct fetch as [e | msg]; cbn.
    2: { destruct ((errors + 1 =? 1) || (js_rem (errors + 1) 5 =? 0)); reflexivity. }
    destruct last as [last |]; cbn; [| reflexivity].
    destruct (String.eqb last (state e)); cbn; [reflexivity |].
    destruct (String.eqb last "off" && String.eqb (state e) "on"); cbn.
    + destruct timeout; reflexivity.
    + destruct (String.eqb last "on" && String.eqb (state e) "off"); reflexivity.
  - intros r w now c l turnOn b s'. subst s'. MotionFacts.open_runner r.
    unfold MotionOverlap.afterTurnOn, MotionOverlap.generalError,
      MotionLight.addStateHistory.
    unfold_run. cbn. destruct turnOn as [[] | msg]; reflexivity.
  - intros r w now m l d e Hoff Hlast He out. subst out.
    MotionFacts.open_runner r. subst running last.
    unfold MotionOverlap.afterState, MotionLight.addStateHistory.
    unfold_run. cbn. rewrite He. cbn.
    destruct timeout; repeat split.
  - intros r w now m l d e Hoff Hlast He out. subst out.
    MotionFacts.open_runner r. subst running last.
    unfold MotionOverlap.afterState, MotionLight.motionStopped,
      MotionLight.addStateHistory.
    unfold_run. cbn. rewrite He. cbn. repeat split.
Qed.

Lemma motion_poll_in_flight_ignores_stop_witness :
  let stopped := MotionLight.run Demo.hallOff [MotionLight.CallStop] in
  let out := MotionOverlap.afterState 1500 "m1" "l1" 15 (Demo.hub "on") stopped in
  MotionLight.isRunning (fst stopped) = false /\
  apiCalls (snd (snd out)) =
    apiCalls (snd stopped) ++ [CallService "turn_on" "light" "l1"].
Proof.
  intros stopped out.
  destruct (proj1 (proj2 (proj2 motion_poll_in_flight_ignores_stop))
              (fst stopped) (snd stopped) 1500 "m1" "l1" 15
              (mkEntityState "on" "{}"))
    as (_ & Hcalls & _); try reflexivity.
  split; [reflexivity | exact Hcalls].
Defined.

(** ** The error counter, with polls in flight *)

(** Through a method or a part of one, for a property of the runner that the
    assignments to [errorCount] keep. *)
Ltac counts_frame methods :=
  frame_step
    ltac:(idtac; lazymatch goal with
          | |- preserves _ getRunner => apply preserves_getRunner
          | |- preserves _ getWorld => apply preserves_getWorld
          | |- preserves _ (logEvent _ _ _) => apply preserves_logEvent
          | |- preserves _ (updateAutomationTriggerCount _) =>
              apply preserves_updateAutomationTriggerCount
          | |- preserves _ (sendRequest _) => apply preserves_onWorld
          | |- preserves _ (clearTimer _) => apply preserves_clearTimer
          | |- preserves _ (getHAEntityState _ _) => apply preserves_getHAEntityState
          | |- preserves _ (callHAService _ _ _ _) => apply preserves_callHAService
          | |- preserves _ (setTimer _ _ _) => apply preserves_setTimer
          | |- preserves _ (setInterval _ _) => apply preserves_setTimer
          | |- preserves _ (setTimeout _ _) => apply preserves_setTimer
          | |- preserves _ (onRunner _) =>
              apply preserves_onRunner;
              let r := fresh in let H := fresh in
              intros r H;
              first [ exact H
                    | unfold motionCounts, alarmCounts in *; cbn in *;
                      repeat split; try apply H; lia ]
          | |- _ => methods
          end).

Module CountsFacts.

Ltac motion_methods :=
  progress unfold MotionLight.start, MotionLight.stop, MotionLight.fire,
    MotionLight.initializeState, MotionLight.checkMotionState, MotionLight.pollMotion,
    MotionLight.motionDetected, MotionLight.motionStopped,
    MotionLight.countdownCallback, MotionLight.addStateHistory,
    MotionOverlap.checkMotionStateBegin, MotionOverlap.afterState,
    MotionOverlap.afterTurnOn, MotionOverlap.generalError.

Ltac alarm_methods :=
  progress unfold AlarmAutoArm.start, AlarmAutoArm.stop, AlarmAutoArm.fire,
    AlarmAutoArm.initializeState, AlarmAutoArm.checkAndArm, AlarmAutoArm.pollAlarm,
    AlarmAutoArm.checkCooldown, AlarmAutoArm.armAlarmWithValidation,
    AlarmAutoArm.armFallback, AlarmAutoArm.verifyArmStatus,
    AlarmAutoArm.addStateHistory,
    AlarmOverlap.checkAndArmBegin, AlarmOverlap.afterPanel, AlarmOverlap.afterPreArm,
    AlarmOverlap.armAfterPreArm, AlarmOverlap.generalError.

Lemma motion_step_counts a st i :
  motionCounts a (fst (MotionOverlap.machine st)) ->
  motionCounts a (fst (MotionOverlap.machine (MotionOverlap.step st i))).
Proof.
  intros H. destruct st as [s fl]. cbn [MotionOverlap.machine] in *.
  destruct i as [i | h now | k now answer act]; cbn [MotionOverlap.step MotionOverlap.machine MotionOverlap.inFlight].
  - destruct i; cbn [MotionLight.step];
      apply (preserves_exec (ofRunner (motionCounts a))); trivial;
      repeat (counts_frame ltac:(idtac; motion_methods)).
  - destruct (findTimer h (snd s)) as [t |]; [| exact H].
    destruct (callback t); try exact H. cbn [MotionOverlap.machine].
    apply (preserves_exec (ofRunner (motionCounts a))); trivial.
    repeat (counts_frame ltac:(idtac; motion_methods)).
  - destruct (nth_error fl k) as [[m l d | c l] |]; [| | exact H];
      cbn [MotionOverlap.machine];
      apply (preserves_exec (ofRunner (motionCounts a))); trivial;
      repeat (counts_frame ltac:(idtac; motion_methods)).
Qed.

Lemma alarm_step_counts a st i :
  alarmCounts a (fst (AlarmOverlap.machine st)) ->
  alarmCounts a (fst (AlarmOverlap.machine (AlarmOverlap.step st i))).
Proof.
  intros H. destruct st as [s fl]. cbn [AlarmOverlap.machine] in *.
  destruct i as [i | h now | k clock answer arm]; cbn [AlarmOverlap.step AlarmOverlap.machine AlarmOverlap.inFlight].
  - destruct i; cbn [AlarmAutoArm.step];
      apply (preserves_exec (ofRunner (alarmCounts a))); trivial;
      repeat (counts_frame ltac:(idtac; alarm_methods)).
  - destruct (findTimer h (snd s)) as [t |]; [| exact H].
    destruct (callback t); try exact H. cbn [AlarmOverlap.machine].
    apply (preserves_exec (ofRunner (alarmCounts a))); trivial.
    repeat (counts_frame ltac:(idtac; alarm_methods)).
  - destruct (nth_error fl k) as [[now | now] |]; [| | exact H];
      cbn [AlarmOverlap.machine];
      apply (preserves_exec (ofRunner (alarmCounts a))); trivial;
      repeat (counts_frame ltac:(idtac; alarm_methods)).
Qed.

End CountsFacts.

(** In every state the runners reach from their constructors, also with
    polls that overlap, the counter of consecutive errors is not negative,
    and the limit of 10, the cooldown of 5 minutes and the automation the
    runner was made for are what the constructor set: no method assigns
    them. *)
Theorem error_count_never_negative :
  (forall a inputs,
     let r := fst (MotionOverlap.machine
                     (MotionOverlap.run (MotionOverlap.initial a) inputs)) in
     0 <= MotionLight.errorCount r /\
     MotionLight.maxErrors r = 10 /\ MotionLight.automation r = a) /\
  (forall a inputs,
     let r := fst (AlarmOverlap.machine
                     (AlarmOverlap.run (AlarmOverlap.initial a) inputs)) in
     0 <= AlarmAutoArm.errorCount r /\
     AlarmAutoArm.maxErrors r = 10 /\ AlarmAutoArm.armCooldown r = 300000 /\
     AlarmAutoArm.automation r = a).
Proof.
  split; intros a inputs r; subst r.
  - assert (H : forall st,
              motionCounts a (fst (MotionOverlap.machine st)) ->
              motionCounts a
                (fst (MotionOverlap.machine (MotionOverlap.run st inputs)))).
    { induction inputs as [| i rest IH]; intros st Hst; cbn; trivial.
      apply IH, CountsFacts.motion_step_counts, Hst. }
    apply (H (MotionOverlap.initial a)). repeat split. cbn. lia.
  - assert (H : forall st,
              alarmCounts a (fst (AlarmOverlap.machine st)) ->
              alarmCounts a
                (fst (AlarmOverlap.machine (AlarmOverlap.run st inputs)))).
    { induction inputs as [| i rest IH]; intros st Hst; cbn; trivial.
      apply IH, CountsFacts.alarm_step_counts, Hst. }
    apply (H (AlarmOverlap.initial a)). repeat split. cbn. lia.
Qed.
